(** * Expense management: approval rules, approval flows, expense lifecycle

    A shallow embedding of the three service classes of the repository

    - [ApprovalRuleEngine]   (services/ApprovalRuleEngine.ts),
    - [ApprovalFlowService]  (services/ApprovalFlowService.ts),
    - [ExpenseService]       (services/ExpenseService.ts),

    together with the data model of models/Expense.ts, models/ApprovalRule.ts
    and models/ApprovalFlow.ts, followed by the properties of the
    specification that concern them.

    Conventions of the embedding.

    - A JavaScript [number] that the code uses as a level, a count, a
      priority or an index is an integer [Z]; an expense amount and the
      thresholds it is compared with are rationals [Q] (decimal values;
      floating-point rounding and NaN are outside the embedding).
    - A [Date] is the integer [Z] of its epoch milliseconds.  A method
      that reads the clock takes the clock as its argument [now]: [now k]
      is what the clock answers at the [k]-th [new Date()] or [Date.now()]
      of the method, counted from 0 in the order of the source text, a
      call of another method counting for the readings of that method.
      Nothing is assumed of the readings of one call, which may all
      differ.
    - An optional field [f?: T] is an [option T].
    - A [Map<string, V>] is an association list in insertion order with the
      [get]/[set] behaviour of a JavaScript Map (module [JsMap]): the order
      matters to [getFlowByExpenseId], which takes the first flow of
      [values()] with the given expense id.
    - The services mutate objects that live in their maps.  An operation is
      a function from the service state to a result and the state after the
      call; a [throw] leaves the state as the statements executed before it
      made it, which is what a caller that catches the error observes.
    - A step of a flow shares its [approverRoles] array with the level of
      the rule it was built from.  Module [Shared] embeds the rule engine
      and the flow service with these arrays in a store, levels and steps
      holding references; the property on the edits of rules is stated
      there.  [call_view] and [calls_view] show that no method writes to
      the store and that each method does, to the values read through the
      references, what the method of the embedding by values does: the
      embedding by values, on which the other properties are stated, is
      that view of the services. *)

From Stdlib Require Import ZArith QArith String List Bool Lia DecimalString Sorted.
From stdpp Require Import base tactics option list.
Import ListNotations.

Local Open Scope string_scope.
Local Open Scope list_scope.
Local Open Scope Z_scope.

Set Default Proof Using "Type".

(* ===================================================================== *)
(** ** JavaScript Map with string keys                                    *)
(* ===================================================================== *)

Module JsMap.

Definition t (V : Type) : Type := list (string * V).

Definition empty {V : Type} : t V := [].

(** [m.get(k)] *)
Fixpoint get {V : Type} (m : t V) (k : string) : option V :=
  match m with
  | [] => None
  | (k', v) :: m' => if String.eqb k' k then Some v else get m' k
  end.

(** [m.set(k, v)]: an existing key keeps its position, a new key goes
    last. *)
Fixpoint set {V : Type} (m : t V) (k : string) (v : V) : t V :=
  match m with
  | [] => [(k, v)]
  | (k', v') :: m' =>
      if String.eqb k' k then (k, v) :: m' else (k', v') :: set m' k v
  end.

(** [Array.from(m.values())] *)
Definition values {V : Type} (m : t V) : list V := map snd m.

End JsMap.

(* ===================================================================== *)
(** ** The clock                                                           *)
(* ===================================================================== *)

Module Clock.

(** The readings of one call, by the place of the reading in the source. *)
Definition t : Type := nat -> Z.

(** The readings left to a method that is called after [n] readings. *)
Definition after (n : nat) (now : t) : t := fun k => now (n + k)%nat.

(** A clock that starts at [z] and moves by one millisecond from one
    reading to the next. *)
Definition ticking (z : Z) : t := fun k => z + Z.of_nat k.

End Clock.

(* ===================================================================== *)
(** ** models/Expense.ts                                                   *)
(* ===================================================================== *)

Module ExpenseStatus.
Inductive t := DRAFT | PENDING | APPROVED | REJECTED | CANCELLED.

Definition eqb (a b : t) : bool :=
  match a, b with
  | DRAFT, DRAFT | PENDING, PENDING | APPROVED, APPROVED
  | REJECTED, REJECTED | CANCELLED, CANCELLED => true
  | _, _ => false
  end.
End ExpenseStatus.

Module ExpenseCategory.
Inductive t := TRAVEL | MEALS | OFFICE_SUPPLIES | EQUIPMENT | TRAINING | OTHER.

(** The string value of the enum member. *)
Definition value (c : t) : string :=
  match c with
  | TRAVEL => "TRAVEL"
  | MEALS => "MEALS"
  | OFFICE_SUPPLIES => "OFFICE_SUPPLIES"
  | EQUIPMENT => "EQUIPMENT"
  | TRAINING => "TRAINING"
  | OTHER => "OTHER"
  end.
End ExpenseCategory.

(** ['APPROVED' | 'REJECTED'], the action of an approver. *)
Module Action.
Inductive t := APPROVED | REJECTED.

Definition eqb (a b : t) : bool :=
  match a, b with
  | APPROVED, APPROVED | REJECTED, REJECTED => true
  | _, _ => false
  end.
End Action.

Module ApprovalRecord.
Record t := mk {
  approverId : string;
  approverName : string;
  approverLevel : Z;
  action : Action.t;
  timestamp : Z;
  comments : option string
}.
End ApprovalRecord.

Module Expense.
Record t := mk {
  id : string;
  employeeId : string;
  employeeName : string;
  amount : Q;
  currency : string;
  category : ExpenseCategory.t;
  description : string;
  date : Z;
  status : ExpenseStatus.t;
  submittedAt : option Z;
  approvalHistory : list ApprovalRecord.t;
  attachments : option (list string)
}.

Definition set_status (s : ExpenseStatus.t) (e : t) : t :=
  mk (id e) (employeeId e) (employeeName e) (amount e) (currency e)
     (category e) (description e) (date e) s (submittedAt e)
     (approvalHistory e) (attachments e).

Definition set_submittedAt (d : option Z) (e : t) : t :=
  mk (id e) (employeeId e) (employeeName e) (amount e) (currency e)
     (category e) (description e) (date e) (status e) d
     (approvalHistory e) (attachments e).

Definition set_approvalHistory (h : list ApprovalRecord.t) (e : t) : t :=
  mk (id e) (employeeId e) (employeeName e) (amount e) (currency e)
     (category e) (description e) (date e) (status e) (submittedAt e)
     h (attachments e).
End Expense.

(* ===================================================================== *)
(** ** models/ApprovalRule.ts                                              *)
(* ===================================================================== *)

Module ConditionType.
Inductive t := AMOUNT | CATEGORY | DEPARTMENT | EMPLOYEE_LEVEL.
End ConditionType.

Module Operator.
Inductive t :=
| EQUALS | GREATER_THAN | LESS_THAN
| GREATER_THAN_OR_EQUAL | LESS_THAN_OR_EQUAL | IN.
End Operator.

(** [value: string | number | string[]] *)
Module ConditionValue.
Inductive t :=
| Str (s : string)
| Num (n : Q)
| Strs (l : list string).
End ConditionValue.

Module ApprovalCondition.
Record t := mk {
  type : ConditionType.t;
  operator : Operator.t;
  value : ConditionValue.t
}.
End ApprovalCondition.

Module ApprovalLevel.
Record t := mk {
  level : Z;
  approverRoles : list string;
  requiredApprovers : Z;
  autoApprove : option bool;
  autoApproveThreshold : option Q
}.
End ApprovalLevel.

Module ApprovalRule.
Record t := mk {
  id : string;
  name : string;
  description : string;
  conditions : list ApprovalCondition.t;
  approvalLevels : list ApprovalLevel.t;
  priority : Z;
  active : bool
}.

(** [Partial<ApprovalRule>]: the fields an update carries.  A key is
    absent ([None]) or carries a value of the type of the field; an update
    with a key whose value is [undefined], which would leave the rule
    without that field, is outside the embedding. *)
Record partial := mkPartial {
  p_id : option string;
  p_name : option string;
  p_description : option string;
  p_conditions : option (list ApprovalCondition.t);
  p_approvalLevels : option (list ApprovalLevel.t);
  p_priority : option Z;
  p_active : option bool
}.

(** [{ ...r, ...updates }]: a fresh object, the fields of [updates]
    winning. *)
Definition spread (r : t) (updates : partial) : t :=
  mk (default (id r) (p_id updates))
     (default (name r) (p_name updates))
     (default (description r) (p_description updates))
     (default (conditions r) (p_conditions updates))
     (default (approvalLevels r) (p_approvalLevels updates))
     (default (priority r) (p_priority updates))
     (default (active r) (p_active updates)).
End ApprovalRule.

(** [DEFAULT_APPROVAL_RULES] *)
Definition DEFAULT_APPROVAL_RULES : list ApprovalRule.t :=
  [ ApprovalRule.mk "rule-1" "Small Expenses (< $100)"
      "Single manager approval for expenses under $100"
      [ApprovalCondition.mk ConditionType.AMOUNT Operator.LESS_THAN
         (ConditionValue.Num 100)]
      [ApprovalLevel.mk 1 ["MANAGER"] 1 None None]
      1 true;
    ApprovalRule.mk "rule-2" "Medium Expenses ($100 - $1000)"
      "Manager approval for expenses between $100 and $1000"
      [ApprovalCondition.mk ConditionType.AMOUNT Operator.GREATER_THAN_OR_EQUAL
         (ConditionValue.Num 100);
       ApprovalCondition.mk ConditionType.AMOUNT Operator.LESS_THAN
         (ConditionValue.Num 1000)]
      [ApprovalLevel.mk 1 ["MANAGER"] 1 None None]
      2 true;
    ApprovalRule.mk "rule-3" "Large Expenses ($1000 - $5000)"
      "Manager and Director approval for expenses between $1000 and $5000"
      [ApprovalCondition.mk ConditionType.AMOUNT Operator.GREATER_THAN_OR_EQUAL
         (ConditionValue.Num 1000);
       ApprovalCondition.mk ConditionType.AMOUNT Operator.LESS_THAN
         (ConditionValue.Num 5000)]
      [ApprovalLevel.mk 1 ["MANAGER"] 1 None None;
       ApprovalLevel.mk 2 ["DIRECTOR"] 1 None None]
      3 true;
    ApprovalRule.mk "rule-4" "Very Large Expenses (>= $5000)"
      "Multi-level approval (Manager, Director, VP) for expenses over $5000"
      [ApprovalCondition.mk ConditionType.AMOUNT Operator.GREATER_THAN_OR_EQUAL
         (ConditionValue.Num 5000)]
      [ApprovalLevel.mk 1 ["MANAGER"] 1 None None;
       ApprovalLevel.mk 2 ["DIRECTOR"] 1 None None;
       ApprovalLevel.mk 3 ["VP"; "CFO"] 1 None None]
      4 true;
    ApprovalRule.mk "rule-5" "Travel Expenses Special Rule"
      "Special approval flow for travel expenses over $500"
      [ApprovalCondition.mk ConditionType.CATEGORY Operator.EQUALS
         (ConditionValue.Str "TRAVEL");
       ApprovalCondition.mk ConditionType.AMOUNT Operator.GREATER_THAN
         (ConditionValue.Num 500)]
      [ApprovalLevel.mk 1 ["MANAGER"] 1 None None;
       ApprovalLevel.mk 2 ["TRAVEL_COORDINATOR"] 1 None None]
      5 true ].

(* ===================================================================== *)
(** ** models/ApprovalFlow.ts                                              *)
(* ===================================================================== *)

Module FlowStatus.
Inductive t := PENDING | APPROVED | REJECTED.

Definition eqb (a b : t) : bool :=
  match a, b with
  | PENDING, PENDING | APPROVED, APPROVED | REJECTED, REJECTED => true
  | _, _ => false
  end.
End FlowStatus.

Module StepStatus.
Inductive t := PENDING | APPROVED | REJECTED | SKIPPED.

Definition eqb (a b : t) : bool :=
  match a, b with
  | PENDING, PENDING | APPROVED, APPROVED
  | REJECTED, REJECTED | SKIPPED, SKIPPED => true
  | _, _ => false
  end.
End StepStatus.

Module StepApproval.
Record t := mk {
  approverId : string;
  approverName : string;
  approverRole : string;
  action : Action.t;
  timestamp : Z;
  comments : option string
}.
End StepApproval.

Module ApprovalStep.
Record t := mk {
  level : Z;
  approverRoles : list string;
  requiredApprovers : Z;
  approvals : list StepApproval.t;
  status : StepStatus.t;
  startedAt : option Z;
  completedAt : option Z
}.

Definition set_approvals (a : list StepApproval.t) (s : t) : t :=
  mk (level s) (approverRoles s) (requiredApprovers s) a (status s)
     (startedAt s) (completedAt s).

Definition set_status (st : StepStatus.t) (s : t) : t :=
  mk (level s) (approverRoles s) (requiredApprovers s) (approvals s) st
     (startedAt s) (completedAt s).

Definition set_startedAt (d : option Z) (s : t) : t :=
  mk (level s) (approverRoles s) (requiredApprovers s) (approvals s)
     (status s) d (completedAt s).

Definition set_completedAt (d : option Z) (s : t) : t :=
  mk (level s) (approverRoles s) (requiredApprovers s) (approvals s)
     (status s) (startedAt s) d.
End ApprovalStep.

Module ApprovalFlow.
Record t := mk {
  id : string;
  expenseId : string;
  ruleId : string;
  currentLevel : Z;
  totalLevels : Z;
  status : FlowStatus.t;
  steps : list ApprovalStep.t;
  createdAt : Z;
  completedAt : option Z
}.

Definition set_currentLevel (l : Z) (f : t) : t :=
  mk (id f) (expenseId f) (ruleId f) l (totalLevels f) (status f)
     (steps f) (createdAt f) (completedAt f).

Definition set_status (s : FlowStatus.t) (f : t) : t :=
  mk (id f) (expenseId f) (ruleId f) (currentLevel f) (totalLevels f) s
     (steps f) (createdAt f) (completedAt f).

Definition set_steps (l : list ApprovalStep.t) (f : t) : t :=
  mk (id f) (expenseId f) (ruleId f) (currentLevel f) (totalLevels f)
     (status f) l (createdAt f) (completedAt f).

Definition set_completedAt (d : option Z) (f : t) : t :=
  mk (id f) (expenseId f) (ruleId f) (currentLevel f) (totalLevels f)
     (status f) (steps f) (createdAt f) d.

(** [flow.steps[i]] for a numeric index: [undefined] out of range. *)
Definition stepAt (f : t) (i : Z) : option ApprovalStep.t :=
  if i <? 0 then None else steps f !! Z.to_nat i.

(** Assignment to fields of the object [flow.steps[i]]. *)
Definition set_stepAt (i : Z) (s : ApprovalStep.t) (f : t) : t :=
  set_steps (<[Z.to_nat i := s]> (steps f)) f.
End ApprovalFlow.

(* ===================================================================== *)
(** ** Errors                                                              *)
(* ===================================================================== *)

(** The services throw [Error] objects that differ by their message only.
    Each constructor stands for one [throw] of the source and carries what
    the message interpolates. *)
Inductive Error :=
| NoMatchingRule (expenseId : string)
    (** [No approval rule found for expense ${expense.id}] *)
| FlowNotFound (flowId : string)
    (** [Approval flow ${flowId} not found] *)
| FlowAlreadyResolved (flowId : string) (status : FlowStatus.t)
    (** [Approval flow ${flowId} is already ${flow.status}] *)
| InvalidLevel (currentLevel : Z)
    (** [Invalid approval level ${flow.currentLevel}] *)
| UnauthorizedRole (approverRole : string) (currentLevel : Z)
    (** [Approver role ${approverRole} is not authorized for level ...] *)
| DuplicateApproval (approverId : string)
    (** [Approver ${approverId} has already submitted an approval for this
        step] *)
| TypeError
    (** the runtime's error for a property write on [undefined] *)
| ExpenseNotFound (expenseId : string)
    (** [Expense ${expenseId} not found] *)
| AlreadySubmitted (expenseId : string)
    (** [Expense ${expenseId} has already been submitted] *)
| NotPending (expenseId : string)
    (** [Expense ${expenseId} is not pending approval] *)
| NoFlowForExpense (expenseId : string)
    (** [No approval flow found for expense ${expenseId}] *)
| NotOwner
    (** [Only the expense owner can cancel it] *)
| AlreadyFinal (expenseId : string) (status : ExpenseStatus.t).
    (** [Cannot cancel an expense that is already ${expense.status}] *)

Inductive result (A : Type) : Type :=
| Ok (a : A)
| Throw (e : Error).
Arguments Ok {A} a.
Arguments Throw {A} e.

Definition isThrow {A : Type} (r : result A) : bool :=
  match r with Ok _ => false | Throw _ => true end.

(* ===================================================================== *)
(** ** services/ApprovalRuleEngine.ts                                      *)
(* ===================================================================== *)

Module ApprovalRuleEngine.

(** [rules.sort((a, b) => b.priority - a.priority)]: a stable sort,
    descending by priority.  [insertRule r l] puts [r] in front of the
    first rule whose priority is not above its own. *)
Fixpoint insertRule (r : ApprovalRule.t) (l : list ApprovalRule.t)
  : list ApprovalRule.t :=
  match l with
  | [] => [r]
  | x :: l' =>
      if ApprovalRule.priority r <? ApprovalRule.priority x
      then x :: insertRule r l'
      else r :: x :: l'
  end.

Fixpoint sortRules (l : list ApprovalRule.t) : list ApprovalRule.t :=
  match l with
  | [] => []
  | r :: l' => insertRule r (sortRules l')
  end.

(** The state of an engine: its private array [rules]. *)
Record t := mk { rules : list ApprovalRule.t }.

(** [new ApprovalRuleEngine(rules)] *)
Definition constructor (rs : list ApprovalRule.t) : t := mk (sortRules rs).

Definition Qlt_bool (a b : Q) : bool := negb (Qle_bool b a).

(** [evaluateAmountCondition].  The cast [condition.value as number] is
    trusted: for a value that is not a number, where JavaScript would
    coerce, the embedding answers [false]. *)
Definition evaluateAmountCondition (c : ApprovalCondition.t) (amount : Q)
  : bool :=
  match ApprovalCondition.value c with
  | ConditionValue.Num threshold =>
      match ApprovalCondition.operator c with
      | Operator.EQUALS => Qeq_bool amount threshold
      | Operator.GREATER_THAN => Qlt_bool threshold amount
      | Operator.LESS_THAN => Qlt_bool amount threshold
      | Operator.GREATER_THAN_OR_EQUAL => Qle_bool threshold amount
      | Operator.LESS_THAN_OR_EQUAL => Qle_bool amount threshold
      | Operator.IN => false
      end
  | _ => false
  end.

(** [Array.prototype.includes] on strings. *)
Definition includes (l : list string) (s : string) : bool :=
  existsb (fun x => String.eqb x s) l.

(** [evaluateCategoryCondition].  [===] between the category string and
    a value that is not a string is [false]; the cast
    [condition.value as string[]] is trusted, a value that is not a list
    answers [false]. *)
Definition evaluateCategoryCondition (c : ApprovalCondition.t)
    (category : ExpenseCategory.t) : bool :=
  match ApprovalCondition.operator c with
  | Operator.EQUALS =>
      match ApprovalCondition.value c with
      | ConditionValue.Str s => String.eqb (ExpenseCategory.value category) s
      | _ => false
      end
  | Operator.IN =>
      match ApprovalCondition.value c with
      | ConditionValue.Strs allowedCategories =>
          includes allowedCategories (ExpenseCategory.value category)
      | _ => false
      end
  | _ => false
  end.

(** [evaluateCondition]; the [default] branch of the source's switch has
    no counterpart, the type of [condition.type] being closed. *)
Definition evaluateCondition (c : ApprovalCondition.t) (e : Expense.t)
  : bool :=
  match ApprovalCondition.type c with
  | ConditionType.AMOUNT => evaluateAmountCondition c (Expense.amount e)
  | ConditionType.CATEGORY => evaluateCategoryCondition c (Expense.category e)
  | ConditionType.DEPARTMENT => true
  | ConditionType.EMPLOYEE_LEVEL => true
  end.

(** [evaluateRule]: [rule.conditions.every(...)] *)
Definition evaluateRule (r : ApprovalRule.t) (e : Expense.t) : bool :=
  forallb (fun c => evaluateCondition c e) (ApprovalRule.conditions r).

(** The [for ... of] loop of [findMatchingRule]. *)
Fixpoint firstMatch (l : list ApprovalRule.t) (e : Expense.t)
  : option ApprovalRule.t :=
  match l with
  | [] => None
  | r :: l' => if evaluateRule r e then Some r else firstMatch l' e
  end.

(** [findMatchingRule]; [None] is [null]. *)
Definition findMatchingRule (eng : t) (e : Expense.t)
  : option ApprovalRule.t :=
  let activeRules := List.filter ApprovalRule.active (rules eng) in
  firstMatch activeRules e.

(** [getRules] *)
Definition getRules (eng : t) : list ApprovalRule.t := rules eng.

(** [addRule]: push, then sort. *)
Definition addRule (eng : t) (r : ApprovalRule.t) : t :=
  mk (sortRules (rules eng ++ [r])).

(** [this.rules.findIndex(r => r.id === ruleId)]; [None] is [-1]. *)
Fixpoint findIndex (l : list ApprovalRule.t) (ruleId : string) : option nat :=
  match l with
  | [] => None
  | r :: l' =>
      if String.eqb (ApprovalRule.id r) ruleId then Some O
      else option_map S (findIndex l' ruleId)
  end.

(** [updateRule]: the boolean result and the engine after the call. *)
Definition updateRule (eng : t) (ruleId : string)
    (updates : ApprovalRule.partial) : bool * t :=
  match findIndex (rules eng) ruleId with
  | None => (false, eng)
  | Some index =>
      (true,
       mk (sortRules
             (alter (fun old => ApprovalRule.spread old updates) index
                    (rules eng))))
  end.

Definition deactivation : ApprovalRule.partial :=
  ApprovalRule.mkPartial None None None None None None (Some false).

(** [deactivateRule] *)
Definition deactivateRule (eng : t) (ruleId : string) : bool * t :=
  updateRule eng ruleId deactivation.

End ApprovalRuleEngine.

(** The object [getApprovalSummary] returns, and its entry for a step. *)
Module SummaryStep.
Record t := mk {
  level : Z;
  roles : list string;
  required : Z;
  approved : Z;
  status : StepStatus.t
}.
End SummaryStep.

Module ApprovalSummary.
Record t := mk {
  currentLevel : Z;
  totalLevels : Z;
  status : FlowStatus.t;
  steps : list SummaryStep.t
}.
End ApprovalSummary.

(* ===================================================================== *)
(** ** services/ApprovalFlowService.ts                                     *)
(* ===================================================================== *)

Module ApprovalFlowService.

(** The state of a flow service: the rule engine it was constructed with
    and its private map [flows]. *)
Record t := mk {
  ruleEngine : ApprovalRuleEngine.t;
  flows : JsMap.t ApprovalFlow.t
}.

(** [new ApprovalFlowService(ruleEngine)] *)
Definition constructor (eng : ApprovalRuleEngine.t) : t := mk eng JsMap.empty.

Definition set_flows (m : JsMap.t ApprovalFlow.t) (svc : t) : t :=
  mk (ruleEngine svc) m.

Definition set_ruleEngine (eng : ApprovalRuleEngine.t) (svc : t) : t :=
  mk eng (flows svc).

(** The decimal digits of [Date.now()] inside a template string. *)
Definition showNumber (n : Z) : string := NilZero.string_of_int (Z.to_int n).

(** [`flow-${expense.id}-${Date.now()}`] *)
Definition flowId (expenseId : string) (now : Z) : string :=
  ("flow-" ++ expenseId ++ "-" ++ showNumber now)%string.

(** The callback of [rule.approvalLevels.map((level, index) => ...)]. *)
Definition newStep (now : Z) (index : nat) (l : ApprovalLevel.t)
  : ApprovalStep.t :=
  ApprovalStep.mk
    (ApprovalLevel.level l)
    (ApprovalLevel.approverRoles l)
    (ApprovalLevel.requiredApprovers l)
    []
    (match index with O => StepStatus.PENDING | _ => StepStatus.PENDING end)
    (match index with O => Some now | _ => None end)
    None.

(** [createApprovalFlow].  The declared result type admits [null], which
    no path returns. *)
Definition createApprovalFlow (svc : t) (now : Clock.t) (expense : Expense.t)
  : result ApprovalFlow.t * t :=
  match ApprovalRuleEngine.findMatchingRule (ruleEngine svc) expense with
  | None => (Throw (NoMatchingRule (Expense.id expense)), svc)
  | Some rule =>
      let flow :=
        ApprovalFlow.mk
          (* id: `flow-${expense.id}-${Date.now()}` *)
          (flowId (Expense.id expense) (now 0%nat))
          (Expense.id expense)
          (ApprovalRule.id rule)
          1
          (Z.of_nat (length (ApprovalRule.approvalLevels rule)))
          FlowStatus.PENDING
          (* startedAt: index === 0 ? new Date() : undefined *)
          (imap (newStep (now 1%nat)) (ApprovalRule.approvalLevels rule))
          (* createdAt: new Date() *)
          (now 2%nat)
          None in
      (Ok flow, set_flows (JsMap.set (flows svc) (ApprovalFlow.id flow) flow) svc)
  end.

(** [a => a.action === 'APPROVED'] *)
Definition isApproved (a : StepApproval.t) : bool :=
  Action.eqb (StepApproval.action a) Action.APPROVED.

(** [currentStep.approvals.filter(a => a.action === 'APPROVED').length] *)
Definition approvedCount (s : ApprovalStep.t) : Z :=
  Z.of_nat (length (List.filter isApproved (ApprovalStep.approvals s))).

(** [approvals.find(a => a.approverId === approverId)] is defined *)
Definition hasActed (s : ApprovalStep.t) (approverId : string) : bool :=
  existsb (fun a => String.eqb (StepApproval.approverId a) approverId)
          (ApprovalStep.approvals s).

(** The flow object lives in the map under the key it was fetched with:
    its mutation is a write at that key. *)
Definition store (svc : t) (key : string) (flow : ApprovalFlow.t) : t :=
  set_flows (JsMap.set (flows svc) key flow) svc.

(** [processApproval].  Every [throw] of the source precedes the first
    assignment, except the write to [nextStep.startedAt], which the
    runtime rejects when [flow.steps] has no element at the new level.
    The clock is read at six places: for the timestamp of the action (0),
    on a rejection for [completedAt] of the step (1) and of the flow (2),
    on the approval that completes a step for [completedAt] of the step
    (3) and then for [startedAt] of the next step (4) or [completedAt] of
    the flow (5). *)
Definition processApproval (svc : t) (now : Clock.t)
    (flowId approverId approverName approverRole : string)
    (action : Action.t) (comments : option string)
  : result ApprovalFlow.t * t :=
  match JsMap.get (flows svc) flowId with
  | None => (Throw (FlowNotFound flowId), svc)
  | Some flow =>
    if negb (FlowStatus.eqb (ApprovalFlow.status flow) FlowStatus.PENDING)
    then (Throw (FlowAlreadyResolved flowId (ApprovalFlow.status flow)), svc)
    else
    let index := ApprovalFlow.currentLevel flow - 1 in
    match ApprovalFlow.stepAt flow index with
    | None => (Throw (InvalidLevel (ApprovalFlow.currentLevel flow)), svc)
    | Some currentStep =>
      if negb (ApprovalRuleEngine.includes
                 (ApprovalStep.approverRoles currentStep) approverRole)
      then (Throw (UnauthorizedRole approverRole
                     (ApprovalFlow.currentLevel flow)), svc)
      else if hasActed currentStep approverId
      then (Throw (DuplicateApproval approverId), svc)
      else
      let approval :=
        StepApproval.mk approverId approverName approverRole action
                        (now 0%nat)
                        comments in
      (* currentStep.approvals.push(approval) *)
      let step1 :=
        ApprovalStep.set_approvals
          (ApprovalStep.approvals currentStep ++ [approval]) currentStep in
      match action with
      | Action.REJECTED =>
          let step2 :=
            ApprovalStep.set_completedAt (Some (now 1%nat))
              (ApprovalStep.set_status StepStatus.REJECTED step1) in
          let flow' :=
            ApprovalFlow.set_completedAt (Some (now 2%nat))
              (ApprovalFlow.set_status FlowStatus.REJECTED
                 (ApprovalFlow.set_stepAt index step2 flow)) in
          (Ok flow', store svc flowId flow')
      | Action.APPROVED =>
          if ApprovalStep.requiredApprovers step1 <=? approvedCount step1
          then
            let step2 :=
              ApprovalStep.set_completedAt (Some (now 3%nat))
                (ApprovalStep.set_status StepStatus.APPROVED step1) in
            let flow1 := ApprovalFlow.set_stepAt index step2 flow in
            if ApprovalFlow.currentLevel flow1 <? ApprovalFlow.totalLevels flow1
            then
              (* flow.currentLevel++ *)
              let flow2 :=
                ApprovalFlow.set_currentLevel
                  (ApprovalFlow.currentLevel flow1 + 1) flow1 in
              let next := ApprovalFlow.currentLevel flow2 - 1 in
              match ApprovalFlow.stepAt flow2 next with
              | None => (Throw TypeError, store svc flowId flow2)
              | Some nextStep =>
                  let flow' :=
                    ApprovalFlow.set_stepAt next
                      (ApprovalStep.set_startedAt (Some (now 4%nat)) nextStep)
                      flow2 in
                  (Ok flow', store svc flowId flow')
              end
            else
              let flow' :=
                ApprovalFlow.set_completedAt (Some (now 5%nat))
                  (ApprovalFlow.set_status FlowStatus.APPROVED flow1) in
              (Ok flow', store svc flowId flow')
          else
            let flow' := ApprovalFlow.set_stepAt index step1 flow in
            (Ok flow', store svc flowId flow')
      end
    end
  end.

(** [getFlow] *)
Definition getFlow (svc : t) (flowId : string) : option ApprovalFlow.t :=
  JsMap.get (flows svc) flowId.

(** [getFlowByExpenseId]: the first flow, in insertion order, of the
    expense. *)
Definition getFlowByExpenseId (svc : t) (expenseId : string)
  : option ApprovalFlow.t :=
  List.find (fun flow => String.eqb (ApprovalFlow.expenseId flow) expenseId)
            (JsMap.values (flows svc)).

(** [getPendingApprovalsForRole] *)
Definition getPendingApprovalsForRole (svc : t) (approverRole : string)
  : list ApprovalFlow.t :=
  List.filter
    (fun flow =>
       if negb (FlowStatus.eqb (ApprovalFlow.status flow) FlowStatus.PENDING)
       then false
       else
         match ApprovalFlow.stepAt flow (ApprovalFlow.currentLevel flow - 1) with
         | None => false
         | Some currentStep =>
             StepStatus.eqb (ApprovalStep.status currentStep) StepStatus.PENDING
             && ApprovalRuleEngine.includes
                  (ApprovalStep.approverRoles currentStep) approverRole
         end)
    (JsMap.values (flows svc)).

(** [getApprovalSummary]; [None] is [null]. *)
Definition getApprovalSummary (svc : t) (flowId : string)
  : option ApprovalSummary.t :=
  match JsMap.get (flows svc) flowId with
  | None => None
  | Some flow =>
      Some (ApprovalSummary.mk
              (ApprovalFlow.currentLevel flow)
              (ApprovalFlow.totalLevels flow)
              (ApprovalFlow.status flow)
              (map (fun step =>
                      SummaryStep.mk
                        (ApprovalStep.level step)
                        (ApprovalStep.approverRoles step)
                        (ApprovalStep.requiredApprovers step)
                        (approvedCount step)
                        (ApprovalStep.status step))
                   (ApprovalFlow.steps flow)))
  end.

(** [canApprove] *)
Definition canApprove (svc : t) (flowId approverRole approverId : string)
  : bool :=
  match JsMap.get (flows svc) flowId with
  | None => false
  | Some flow =>
      if negb (FlowStatus.eqb (ApprovalFlow.status flow) FlowStatus.PENDING)
      then false
      else
        match ApprovalFlow.stepAt flow (ApprovalFlow.currentLevel flow - 1) with
        | None => false
        | Some currentStep =>
            if negb (StepStatus.eqb (ApprovalStep.status currentStep)
                       StepStatus.PENDING)
            then false
            else if negb (ApprovalRuleEngine.includes
                            (ApprovalStep.approverRoles currentStep)
                            approverRole)
            then false
            else negb (hasActed currentStep approverId)
        end
  end.

End ApprovalFlowService.

(* ===================================================================== *)
(** ** services/ExpenseService.ts                                          *)
(* ===================================================================== *)

Module ExpenseService.

(** The state of an expense service: its private map [expenses] and the
    flow service it was constructed with. *)
Record t := mk {
  expenses : JsMap.t Expense.t;
  approvalFlowService : ApprovalFlowService.t
}.

(** [new ExpenseService(approvalFlowService)] *)
Definition constructor (fs : ApprovalFlowService.t) : t := mk JsMap.empty fs.

Definition set_expenses (m : JsMap.t Expense.t) (svc : t) : t :=
  mk m (approvalFlowService svc).

Definition set_approvalFlowService (fs : ApprovalFlowService.t) (svc : t) : t :=
  mk (expenses svc) fs.

(** The expense object lives in the map under the key it was fetched
    with: its mutation is a write at that key. *)
Definition store (svc : t) (key : string) (e : Expense.t) : t :=
  set_expenses (JsMap.set (expenses svc) key e) svc.

(** [createExpense]; [rnd] is the text that
    [Math.random().toString(36).substr(2, 9)] yields for this call. *)
Definition createExpense (svc : t) (now : Clock.t) (rnd : string)
    (employeeId employeeName : string) (amount : Q) (currency : string)
    (category : ExpenseCategory.t) (description : string) (date : Z)
    (attachments : option (list string)) : Expense.t * t :=
  let expense :=
    Expense.mk
      ("exp-" ++ ApprovalFlowService.showNumber (now 0%nat) ++ "-" ++ rnd)%string
      employeeId employeeName amount currency category description date
      ExpenseStatus.DRAFT None []
      (Some (default [] attachments)) in
  (expense, store svc (Expense.id expense) expense).

(** [submitExpense]: the status and the submission date (reading 0) are
    assigned before the flow service is called (readings 1 to 3). *)
Definition submitExpense (svc : t) (now : Clock.t) (expenseId : string)
  : result (Expense.t * string) * t :=
  match JsMap.get (expenses svc) expenseId with
  | None => (Throw (ExpenseNotFound expenseId), svc)
  | Some expense =>
      if negb (ExpenseStatus.eqb (Expense.status expense) ExpenseStatus.DRAFT)
      then (Throw (AlreadySubmitted expenseId), svc)
      else
        let expense' :=
          Expense.set_submittedAt (Some (now 0%nat))
            (Expense.set_status ExpenseStatus.PENDING expense) in
        let svc1 := store svc expenseId expense' in
        match ApprovalFlowService.createApprovalFlow
                (approvalFlowService svc1) (Clock.after 1 now) expense' with
        | (Throw err, fs) => (Throw err, set_approvalFlowService fs svc1)
        | (Ok flow, fs) =>
            (Ok (expense', ApprovalFlow.id flow),
             set_approvalFlowService fs svc1)
        end
  end.

(** The level written into the approval record:
    [updatedFlow.currentLevel -
     (action === 'APPROVED' && updatedFlow.status === 'APPROVED' ? 0 : 1)] *)
Definition recordLevel (updatedFlow : ApprovalFlow.t) (action : Action.t) : Z :=
  ApprovalFlow.currentLevel updatedFlow
  - (if Action.eqb action Action.APPROVED
        && FlowStatus.eqb (ApprovalFlow.status updatedFlow) FlowStatus.APPROVED
     then 0 else 1).

(** [processExpenseApproval]: the readings 0 to 5 are those of
    [processApproval], the reading 6 is the timestamp of the record. *)
Definition processExpenseApproval (svc : t) (now : Clock.t)
    (expenseId approverId approverName approverRole : string)
    (action : Action.t) (comments : option string)
  : result Expense.t * t :=
  match JsMap.get (expenses svc) expenseId with
  | None => (Throw (ExpenseNotFound expenseId), svc)
  | Some expense =>
      if negb (ExpenseStatus.eqb (Expense.status expense) ExpenseStatus.PENDING)
      then (Throw (NotPending expenseId), svc)
      else
        match ApprovalFlowService.getFlowByExpenseId
                (approvalFlowService svc) expenseId with
        | None => (Throw (NoFlowForExpense expenseId), svc)
        | Some flow =>
            match ApprovalFlowService.processApproval
                    (approvalFlowService svc) now (ApprovalFlow.id flow)
                    approverId approverName approverRole action comments with
            | (Throw err, fs) => (Throw err, set_approvalFlowService fs svc)
            | (Ok updatedFlow, fs) =>
                let approvalRecord :=
                  ApprovalRecord.mk approverId approverName
                    (recordLevel updatedFlow action) action (now 6%nat)
                    comments in
                (* expense.approvalHistory.push(approvalRecord) *)
                let expense1 :=
                  Expense.set_approvalHistory
                    (Expense.approvalHistory expense ++ [approvalRecord])
                    expense in
                let expense2 :=
                  match ApprovalFlow.status updatedFlow with
                  | FlowStatus.APPROVED =>
                      Expense.set_status ExpenseStatus.APPROVED expense1
                  | FlowStatus.REJECTED =>
                      Expense.set_status ExpenseStatus.REJECTED expense1
                  | FlowStatus.PENDING => expense1
                  end in
                (Ok expense2,
                 store (set_approvalFlowService fs svc) expenseId expense2)
            end
        end
  end.

(** [getExpense] *)
Definition getExpense (svc : t) (expenseId : string) : option Expense.t :=
  JsMap.get (expenses svc) expenseId.

(** [getExpensesByEmployee] *)
Definition getExpensesByEmployee (svc : t) (employeeId : string)
  : list Expense.t :=
  List.filter (fun e => String.eqb (Expense.employeeId e) employeeId)
              (JsMap.values (expenses svc)).


(** [getAllExpenses] *)
Definition getAllExpenses (svc : t) : list Expense.t :=
  JsMap.values (expenses svc).

(** [cancelExpense] *)
Definition cancelExpense (svc : t) (expenseId employeeId : string)
  : result Expense.t * t :=
  match JsMap.get (expenses svc) expenseId with
  | None => (Throw (ExpenseNotFound expenseId), svc)
  | Some expense =>
      if negb (String.eqb (Expense.employeeId expense) employeeId)
      then (Throw NotOwner, svc)
      else if ExpenseStatus.eqb (Expense.status expense) ExpenseStatus.APPROVED
              || ExpenseStatus.eqb (Expense.status expense) ExpenseStatus.REJECTED
      then (Throw (AlreadyFinal expenseId (Expense.status expense)), svc)
      else
        let expense' := Expense.set_status ExpenseStatus.CANCELLED expense in
        (Ok expense', store svc expenseId expense')
  end.

End ExpenseService.

(* ===================================================================== *)
(** ** Clients: sequences of calls                                         *)
(* ===================================================================== *)

(** The calls a client can make on a flow service and on the rule engine
    it holds.  A call that throws is caught by the client; the service
    continues from the state the call left. *)
Inductive Call :=
| AddRule (r : ApprovalRule.t)
| UpdateRule (ruleId : string) (updates : ApprovalRule.partial)
| DeactivateRule (ruleId : string)
| CreateApprovalFlow (now : Clock.t) (expense : Expense.t)
| ProcessApproval (now : Clock.t)
    (flowId approverId approverName approverRole : string)
    (action : Action.t) (comments : option string).

Definition call (svc : ApprovalFlowService.t) (c : Call)
  : ApprovalFlowService.t :=
  match c with
  | AddRule r =>
      ApprovalFlowService.set_ruleEngine
        (ApprovalRuleEngine.addRule (ApprovalFlowService.ruleEngine svc) r) svc
  | UpdateRule ruleId updates =>
      ApprovalFlowService.set_ruleEngine
        (snd (ApprovalRuleEngine.updateRule
                (ApprovalFlowService.ruleEngine svc) ruleId updates)) svc
  | DeactivateRule ruleId =>
      ApprovalFlowService.set_ruleEngine
        (snd (ApprovalRuleEngine.deactivateRule
                (ApprovalFlowService.ruleEngine svc) ruleId)) svc
  | CreateApprovalFlow now expense =>
      snd (ApprovalFlowService.createApprovalFlow svc now expense)
  | ProcessApproval now flowId approverId approverName approverRole action
                    comments =>
      snd (ApprovalFlowService.processApproval svc now flowId approverId
             approverName approverRole action comments)
  end.

Definition calls (svc : ApprovalFlowService.t) (cs : list Call)
  : ApprovalFlowService.t :=
  fold_left call cs svc.

(** A service as a program can hold it: constructed over some rules, then
    called any number of times.  The expense service reaches its flow
    service through [createApprovalFlow] and [processApproval] only, so
    what it does to the flows is among these calls. *)
Definition reachable (svc : ApprovalFlowService.t) : Prop :=
  exists (rules0 : list ApprovalRule.t) (cs : list Call),
    svc = calls (ApprovalFlowService.constructor
                   (ApprovalRuleEngine.constructor rules0)) cs.

(** A call that leaves the object stored under the key [k] in the map: any
    call but the creation of a flow under that same key (for the same
    expense id at the same reading of [Date.now()]), which puts a new
    object there. *)
Definition keepsFlow (k : string) (c : Call) : bool :=
  match c with
  | CreateApprovalFlow now expense =>
      negb (String.eqb
              (ApprovalFlowService.flowId (Expense.id expense) (now 0%nat)) k)
  | _ => true
  end.

(* ===================================================================== *)
(** ** Vocabulary of the properties                                        *)
(* ===================================================================== *)

Abbreviation prio := ApprovalRule.priority.

(** Descending by priority. *)
Definition sortedRules (l : list ApprovalRule.t) : Prop :=
  StronglySorted (fun a b => prio b <= prio a) l.

(** A rule that [findMatchingRule] can return for [e]: active, and all its
    conditions hold. *)
Definition candidate (e : Expense.t) (r : ApprovalRule.t) : bool :=
  ApprovalRule.active r && ApprovalRuleEngine.evaluateRule r e.

(** Where the stable sort puts a rule pushed at the end of a sorted array:
    behind every rule whose priority is not below its own. *)
Fixpoint insertLast (r : ApprovalRule.t) (l : list ApprovalRule.t)
  : list ApprovalRule.t :=
  match l with
  | [] => [r]
  | y :: l' =>
      if prio y <? prio r then r :: y :: l' else y :: insertLast r l'
  end.

(** The rule the scan selects, computed on the sequence of insertions: a
    rule gives way to a later one only if that one has a priority strictly
    above its own. *)
Fixpoint bestMatch (l : list ApprovalRule.t) (e : Expense.t)
  : option ApprovalRule.t :=
  match l with
  | [] => None
  | x :: l' =>
      if candidate e x then
        match bestMatch l' e with
        | Some r => if prio x <? prio r then Some r else Some x
        | None => Some x
        end
      else bestMatch l' e
  end.

(** [r] is the first, in the order of [l], of the candidates of highest
    priority. *)
Definition firstOfHighest (e : Expense.t) (l : list ApprovalRule.t)
    (r : ApprovalRule.t) : Prop :=
  exists l1 l2,
    l = l1 ++ r :: l2 /\
    candidate e r = true /\
    (forall y, In y l1 -> candidate e y = true -> prio y < prio r) /\
    (forall y, In y l2 -> candidate e y = true -> prio y <= prio r).

(** An engine after [new ApprovalRuleEngine(rules0)] and one [addRule] for
    each rule of [added], in that order. *)
Definition engineOf (rules0 added : list ApprovalRule.t) : ApprovalRuleEngine.t :=
  fold_left ApprovalRuleEngine.addRule added
            (ApprovalRuleEngine.constructor rules0).

(** The step [flow.steps[flow.currentLevel - 1]]. *)
Definition currentStep (f : ApprovalFlow.t) : option ApprovalStep.t :=
  ApprovalFlow.stepAt f (ApprovalFlow.currentLevel f - 1).

(** The approvers that have recorded an action on a step, oldest first. *)
Definition approverIds (s : ApprovalStep.t) : list string :=
  map StepApproval.approverId (ApprovalStep.approvals s).

(** What a step keeps of the level of the rule it was made from. *)
Definition stepShape (s : ApprovalStep.t) : Z * list string * Z :=
  (ApprovalStep.level s, ApprovalStep.approverRoles s,
   ApprovalStep.requiredApprovers s).

Definition levelShape (l : ApprovalLevel.t) : Z * list string * Z :=
  (ApprovalLevel.level l, ApprovalLevel.approverRoles l,
   ApprovalLevel.requiredApprovers l).

(** What a flow keeps of its rule: the number of levels and the shape of
    each step. *)
Definition flowShape (f : ApprovalFlow.t) : Z * list (Z * list string * Z) :=
  (ApprovalFlow.totalLevels f, map stepShape (ApprovalFlow.steps f)).

(** The invariant of a flow held by a service. *)
Record flowInv (f : ApprovalFlow.t) : Prop := mkFlowInv {
  inv_level_pos : 1 <= ApprovalFlow.currentLevel f;
  inv_total :
    ApprovalFlow.totalLevels f = Z.of_nat (length (ApprovalFlow.steps f));
  inv_level_max :
    ApprovalFlow.currentLevel f <= Z.max 1 (ApprovalFlow.totalLevels f);
  inv_before : forall (i : nat) s,
    ApprovalFlow.steps f !! i = Some s ->
    Z.of_nat i < ApprovalFlow.currentLevel f - 1 ->
    ApprovalStep.status s = StepStatus.APPROVED;
  inv_after : forall (i : nat) s,
    ApprovalFlow.steps f !! i = Some s ->
    ApprovalFlow.currentLevel f - 1 < Z.of_nat i ->
    ApprovalStep.status s = StepStatus.PENDING /\ ApprovalStep.approvals s = [];
  inv_current :
    match ApprovalFlow.status f with
    | FlowStatus.PENDING =>
        forall s, currentStep f = Some s ->
                  ApprovalStep.status s = StepStatus.PENDING
    | FlowStatus.APPROVED =>
        ApprovalFlow.currentLevel f = ApprovalFlow.totalLevels f /\
        exists s, currentStep f = Some s /\
                  ApprovalStep.status s = StepStatus.APPROVED
    | FlowStatus.REJECTED =>
        exists s, currentStep f = Some s /\
                  ApprovalStep.status s = StepStatus.REJECTED
    end;
  inv_nodup : forall (i : nat) s,
    ApprovalFlow.steps f !! i = Some s -> NoDup (approverIds s)
}.

(** Every flow of the map satisfies the invariant. *)
Definition serviceInv (svc : ApprovalFlowService.t) : Prop :=
  forall f, In f (JsMap.values (ApprovalFlowService.flows svc)) -> flowInv f.

(** A flow on which no approver can act any more: it is resolved, or it has
    no step at its current level. *)
Definition frozen (f : ApprovalFlow.t) : Prop :=
  ApprovalFlow.status f <> FlowStatus.PENDING \/ currentStep f = None.

(** The error [processApproval] throws for a frozen flow stored at
    [flowId]. *)
Definition frozenError (flowId : string) (f : ApprovalFlow.t) : Error :=
  match ApprovalFlow.status f with
  | FlowStatus.PENDING => InvalidLevel (ApprovalFlow.currentLevel f)
  | st => FlowAlreadyResolved flowId st
  end.

(** The approval object [processApproval] pushes onto the current step. *)
Definition approvalOf (now : Z) (approverId approverName approverRole : string)
    (action : Action.t) (comments : option string) : StepApproval.t :=
  StepApproval.mk approverId approverName approverRole action now comments.

(** The current step after the push. *)
Definition pushed (a : StepApproval.t) (s : ApprovalStep.t) : ApprovalStep.t :=
  ApprovalStep.set_approvals (ApprovalStep.approvals s ++ [a]) s.

(** *** Vocabulary of the further properties *)


(** A condition on data the expense does not carry. *)
Definition placeholder (c : ApprovalCondition.t) : bool :=
  match ApprovalCondition.type c with
  | ConditionType.DEPARTMENT | ConditionType.EMPLOYEE_LEVEL => true
  | _ => false
  end.

(** The rule without its placeholder conditions. *)
Definition withoutPlaceholders (r : ApprovalRule.t) : ApprovalRule.t :=
  ApprovalRule.mk (ApprovalRule.id r) (ApprovalRule.name r)
    (ApprovalRule.description r)
    (List.filter (fun c => negb (placeholder c)) (ApprovalRule.conditions r))
    (ApprovalRule.approvalLevels r) (ApprovalRule.priority r)
    (ApprovalRule.active r).

(** The entries of the map of flows: the keys are distinct, each flow is
    stored under its own id, and its id is made from its expense id and a
    reading of the clock. *)
Definition keysInv (svc : ApprovalFlowService.t) : Prop :=
  NoDup (map fst (ApprovalFlowService.flows svc)) /\
  forall k f,
    In (k, f) (ApprovalFlowService.flows svc) ->
    k = ApprovalFlow.id f /\
    exists t,
      ApprovalFlow.id f
      = ApprovalFlowService.flowId (ApprovalFlow.expenseId f) t.

(** The number of approvals that completes a step: [requiredApprovers],
    and one when that is below one, the count being compared after each
    approval. *)
Definition quota (s : ApprovalStep.t) : Z :=
  Z.max 1 (ApprovalStep.requiredApprovers s).

(** What the recorded actions of a step look like, by its status. *)
Definition stepAudit (s : ApprovalStep.t) : Prop :=
  match ApprovalStep.status s with
  | StepStatus.PENDING =>
      Forall (fun a => StepApproval.action a = Action.APPROVED)
             (ApprovalStep.approvals s) /\
      ApprovalFlowService.approvedCount s < quota s /\
      ApprovalStep.completedAt s = None
  | StepStatus.APPROVED =>
      Forall (fun a => StepApproval.action a = Action.APPROVED)
             (ApprovalStep.approvals s) /\
      ApprovalFlowService.approvedCount s = quota s /\
      ApprovalStep.completedAt s <> None
  | StepStatus.REJECTED =>
      (exists init a,
         ApprovalStep.approvals s = init ++ [a] /\
         Forall (fun a => StepApproval.action a = Action.APPROVED) init /\
         StepApproval.action a = Action.REJECTED) /\
      ApprovalFlowService.approvedCount s < quota s /\
      ApprovalStep.completedAt s <> None
  | StepStatus.SKIPPED => False
  end.

(** The audit trail of a flow: every step is as [stepAudit] says, a step
    has a start date exactly when the flow has reached it, and the flow
    has a completion date exactly when it is resolved. *)
Definition flowAudit (f : ApprovalFlow.t) : Prop :=
  (forall (i : nat) s,
     ApprovalFlow.steps f !! i = Some s ->
     stepAudit s /\
     (ApprovalStep.startedAt s = None <->
      ApprovalFlow.currentLevel f - 1 < Z.of_nat i)) /\
  (ApprovalFlow.completedAt f = None <->
   ApprovalFlow.status f = FlowStatus.PENDING).

Definition serviceAudit (svc : ApprovalFlowService.t) : Prop :=
  forall f, In f (JsMap.values (ApprovalFlowService.flows svc)) -> flowAudit f.

(** A step later in its life: the same level, roles and required count,
    and the actions recorded so far at the head of its actions. *)
Definition stepLe (s s' : ApprovalStep.t) : Prop :=
  stepShape s' = stepShape s /\
  exists more,
    ApprovalStep.approvals s' = ApprovalStep.approvals s ++ more.

(** A flow later in its life. *)
Definition flowLe (f f' : ApprovalFlow.t) : Prop :=
  ApprovalFlow.id f' = ApprovalFlow.id f /\
  ApprovalFlow.expenseId f' = ApprovalFlow.expenseId f /\
  ApprovalFlow.ruleId f' = ApprovalFlow.ruleId f /\
  ApprovalFlow.createdAt f' = ApprovalFlow.createdAt f /\
  ApprovalFlow.totalLevels f' = ApprovalFlow.totalLevels f /\
  ApprovalFlow.currentLevel f <= ApprovalFlow.currentLevel f' /\
  Forall2 stepLe (ApprovalFlow.steps f) (ApprovalFlow.steps f').

(** An expense on which no approval can be recorded any more. *)
Definition closed (st : ExpenseStatus.t) : bool :=
  match st with
  | ExpenseStatus.APPROVED | ExpenseStatus.REJECTED | ExpenseStatus.CANCELLED =>
      true
  | _ => false
  end.

(* ===================================================================== *)
(** ** The rule engine and the flow service over shared arrays of roles    *)
(* ===================================================================== *)

(** [createApprovalFlow] gives each step the array [approverRoles] of the
    level of the rule, not a copy of it: the rule and the flow hold the
    same object, and a write to it in place through one is seen through
    the other.  Module [Shared] embeds the methods of the rule engine and
    of the flow service with these arrays in a store: a level and a step
    hold a reference to an array, [includes] reads the array through the
    reference, and every method takes and returns the whole of what it can
    reach, the store included.  The other objects of a rule (the rule
    object, its array of levels, a level object) are not referenced by a
    flow, which copies from them numbers and strings only; they stay
    values. *)

Module Shared.

(** The arrays of roles, by reference.  A reference that the store does
    not hold reads as the empty array. *)
Module Roles.

Definition ref : Type := nat.

Definition t : Type := list (list string).

Definition read (h : t) (l : ref) : list string := default [] (h !! l).

(** A write in place: the array at [l] becomes [roles]. *)
Definition write (h : t) (l : ref) (roles : list string) : t :=
  <[l := roles]> h.

End Roles.

Module ApprovalLevel.
Record t := mk {
  level : Z;
  approverRoles : Roles.ref;
  requiredApprovers : Z;
  autoApprove : option bool;
  autoApproveThreshold : option Q
}.
End ApprovalLevel.

Module ApprovalRule.
Record t := mk {
  id : string;
  name : string;
  description : string;
  conditions : list ApprovalCondition.t;
  approvalLevels : list ApprovalLevel.t;
  priority : Z;
  active : bool
}.

Record partial := mkPartial {
  p_id : option string;
  p_name : option string;
  p_description : option string;
  p_conditions : option (list ApprovalCondition.t);
  p_approvalLevels : option (list ApprovalLevel.t);
  p_priority : option Z;
  p_active : option bool
}.

(** [{ ...r, ...updates }]: a fresh object; a level it takes from [r] or
    from [updates] keeps its reference. *)
Definition spread (r : t) (updates : partial) : t :=
  mk (default (id r) (p_id updates))
     (default (name r) (p_name updates))
     (default (description r) (p_description updates))
     (default (conditions r) (p_conditions updates))
     (default (approvalLevels r) (p_approvalLevels updates))
     (default (priority r) (p_priority updates))
     (default (active r) (p_active updates)).
End ApprovalRule.

Module ApprovalStep.
Record t := mk {
  level : Z;
  approverRoles : Roles.ref;
  requiredApprovers : Z;
  approvals : list StepApproval.t;
  status : StepStatus.t;
  startedAt : option Z;
  completedAt : option Z
}.

Definition set_approvals (a : list StepApproval.t) (s : t) : t :=
  mk (level s) (approverRoles s) (requiredApprovers s) a (status s)
     (startedAt s) (completedAt s).

Definition set_status (st : StepStatus.t) (s : t) : t :=
  mk (level s) (approverRoles s) (requiredApprovers s) (approvals s) st
     (startedAt s) (completedAt s).

Definition set_startedAt (d : option Z) (s : t) : t :=
  mk (level s) (approverRoles s) (requiredApprovers s) (approvals s)
     (status s) d (completedAt s).

Definition set_completedAt (d : option Z) (s : t) : t :=
  mk (level s) (approverRoles s) (requiredApprovers s) (approvals s)
     (status s) (startedAt s) d.
End ApprovalStep.

Module ApprovalFlow.
Record t := mk {
  id : string;
  expenseId : string;
  ruleId : string;
  currentLevel : Z;
  totalLevels : Z;
  status : FlowStatus.t;
  steps : list ApprovalStep.t;
  createdAt : Z;
  completedAt : option Z
}.

Definition set_currentLevel (l : Z) (f : t) : t :=
  mk (id f) (expenseId f) (ruleId f) l (totalLevels f) (status f)
     (steps f) (createdAt f) (completedAt f).

Definition set_status (s : FlowStatus.t) (f : t) : t :=
  mk (id f) (expenseId f) (ruleId f) (currentLevel f) (totalLevels f) s
     (steps f) (createdAt f) (completedAt f).

Definition set_steps (l : list ApprovalStep.t) (f : t) : t :=
  mk (id f) (expenseId f) (ruleId f) (currentLevel f) (totalLevels f)
     (status f) l (createdAt f) (completedAt f).

Definition set_completedAt (d : option Z) (f : t) : t :=
  mk (id f) (expenseId f) (ruleId f) (currentLevel f) (totalLevels f)
     (status f) (steps f) (createdAt f) d.

Definition stepAt (f : t) (i : Z) : option ApprovalStep.t :=
  if i <? 0 then None else steps f !! Z.to_nat i.

Definition set_stepAt (i : Z) (s : ApprovalStep.t) (f : t) : t :=
  set_steps (<[Z.to_nat i := s]> (steps f)) f.
End ApprovalFlow.

(** What the methods of a flow service and of its rule engine can reach:
    the arrays of roles, the array [rules] of the engine, the map [flows]
    of the service. *)
Record t := mk {
  arrays : Roles.t;
  rules : list ApprovalRule.t;
  flows : JsMap.t ApprovalFlow.t
}.

Definition set_arrays (h : Roles.t) (w : t) : t := mk h (rules w) (flows w).

Definition set_rules (rs : list ApprovalRule.t) (w : t) : t :=
  mk (arrays w) rs (flows w).

Definition set_flows (m : JsMap.t ApprovalFlow.t) (w : t) : t :=
  mk (arrays w) (rules w) m.

(** [rules.sort((a, b) => b.priority - a.priority)] *)
Fixpoint insertRule (r : ApprovalRule.t) (l : list ApprovalRule.t)
  : list ApprovalRule.t :=
  match l with
  | [] => [r]
  | x :: l' =>
      if ApprovalRule.priority r <? ApprovalRule.priority x
      then x :: insertRule r l'
      else r :: x :: l'
  end.

Fixpoint sortRules (l : list ApprovalRule.t) : list ApprovalRule.t :=
  match l with
  | [] => []
  | r :: l' => insertRule r (sortRules l')
  end.

(** [new ApprovalFlowService(new ApprovalRuleEngine(rules))], the arrays
    of roles of [rules] being in the store [h]. *)
Definition constructor (h : Roles.t) (rs : list ApprovalRule.t) : t :=
  mk h (sortRules rs) JsMap.empty.

(** [evaluateRule]; a condition holds no reference. *)
Definition evaluateRule (r : ApprovalRule.t) (e : Expense.t) : bool :=
  forallb (fun c => ApprovalRuleEngine.evaluateCondition c e)
          (ApprovalRule.conditions r).

Fixpoint firstMatch (l : list ApprovalRule.t) (e : Expense.t)
  : option ApprovalRule.t :=
  match l with
  | [] => None
  | r :: l' => if evaluateRule r e then Some r else firstMatch l' e
  end.

(** [findMatchingRule] *)
Definition findMatchingRule (w : t) (e : Expense.t)
  : option ApprovalRule.t :=
  let activeRules := List.filter ApprovalRule.active (rules w) in
  firstMatch activeRules e.

(** [addRule]: push onto the array of the engine, then sort it. *)
Definition addRule (w : t) (r : ApprovalRule.t) : t :=
  set_rules (sortRules (rules w ++ [r])) w.

Fixpoint findIndex (l : list ApprovalRule.t) (ruleId : string) : option nat :=
  match l with
  | [] => None
  | r :: l' =>
      if String.eqb (ApprovalRule.id r) ruleId then Some O
      else option_map S (findIndex l' ruleId)
  end.

(** [updateRule]: the slot of the array of the engine receives a fresh
    object, then the array is sorted. *)
Definition updateRule (w : t) (ruleId : string)
    (updates : ApprovalRule.partial) : bool * t :=
  match findIndex (rules w) ruleId with
  | None => (false, w)
  | Some index =>
      (true,
       set_rules
         (sortRules
            (alter (fun old => ApprovalRule.spread old updates) index
                   (rules w))) w)
  end.

Definition deactivation : ApprovalRule.partial :=
  ApprovalRule.mkPartial None None None None None None (Some false).

(** [deactivateRule] *)
Definition deactivateRule (w : t) (ruleId : string) : bool * t :=
  updateRule w ruleId deactivation.

(** The callback of [rule.approvalLevels.map((level, index) => ...)]:
    [approverRoles: level.approverRoles] copies the reference. *)
Definition newStep (now : Z) (index : nat) (l : ApprovalLevel.t)
  : ApprovalStep.t :=
  ApprovalStep.mk
    (ApprovalLevel.level l)
    (ApprovalLevel.approverRoles l)
    (ApprovalLevel.requiredApprovers l)
    []
    (match index with O => StepStatus.PENDING | _ => StepStatus.PENDING end)
    (match index with O => Some now | _ => None end)
    None.

(** [createApprovalFlow] *)
Definition createApprovalFlow (w : t) (now : Clock.t) (expense : Expense.t)
  : result ApprovalFlow.t * t :=
  match findMatchingRule w expense with
  | None => (Throw (NoMatchingRule (Expense.id expense)), w)
  | Some rule =>
      let flow :=
        ApprovalFlow.mk
          (ApprovalFlowService.flowId (Expense.id expense) (now 0%nat))
          (Expense.id expense)
          (ApprovalRule.id rule)
          1
          (Z.of_nat (length (ApprovalRule.approvalLevels rule)))
          FlowStatus.PENDING
          (imap (newStep (now 1%nat)) (ApprovalRule.approvalLevels rule))
          (now 2%nat)
          None in
      (Ok flow, set_flows (JsMap.set (flows w) (ApprovalFlow.id flow) flow) w)
  end.

Definition approvedCount (s : ApprovalStep.t) : Z :=
  Z.of_nat (length (List.filter ApprovalFlowService.isApproved
                                (ApprovalStep.approvals s))).

Definition hasActed (s : ApprovalStep.t) (approverId : string) : bool :=
  existsb (fun a => String.eqb (StepApproval.approverId a) approverId)
          (ApprovalStep.approvals s).

Definition store (w : t) (key : string) (flow : ApprovalFlow.t) : t :=
  set_flows (JsMap.set (flows w) key flow) w.

(** [processApproval]; [currentStep.approverRoles.includes(approverRole)]
    reads the array of the step in the store as it is at the call. *)
Definition processApproval (w : t) (now : Clock.t)
    (flowId approverId approverName approverRole : string)
    (action : Action.t) (comments : option string)
  : result ApprovalFlow.t * t :=
  match JsMap.get (flows w) flowId with
  | None => (Throw (FlowNotFound flowId), w)
  | Some flow =>
    if negb (FlowStatus.eqb (ApprovalFlow.status flow) FlowStatus.PENDING)
    then (Throw (FlowAlreadyResolved flowId (ApprovalFlow.status flow)), w)
    else
    let index := ApprovalFlow.currentLevel flow - 1 in
    match ApprovalFlow.stepAt flow index with
    | None => (Throw (InvalidLevel (ApprovalFlow.currentLevel flow)), w)
    | Some currentStep =>
      if negb (ApprovalRuleEngine.includes
                 (Roles.read (arrays w) (ApprovalStep.approverRoles currentStep))
                 approverRole)
      then (Throw (UnauthorizedRole approverRole
                     (ApprovalFlow.currentLevel flow)), w)
      else if hasActed currentStep approverId
      then (Throw (DuplicateApproval approverId), w)
      else
      let approval :=
        StepApproval.mk approverId approverName approverRole action
                        (now 0%nat) comments in
      let step1 :=
        ApprovalStep.set_approvals
          (ApprovalStep.approvals currentStep ++ [approval]) currentStep in
      match action with
      | Action.REJECTED =>
          let step2 :=
            ApprovalStep.set_completedAt (Some (now 1%nat))
              (ApprovalStep.set_status StepStatus.REJECTED step1) in
          let flow' :=
            ApprovalFlow.set_completedAt (Some (now 2%nat))
              (ApprovalFlow.set_status FlowStatus.REJECTED
                 (ApprovalFlow.set_stepAt index step2 flow)) in
          (Ok flow', store w flowId flow')
      | Action.APPROVED =>
          if ApprovalStep.requiredApprovers step1 <=? approvedCount step1
          then
            let step2 :=
              ApprovalStep.set_completedAt (Some (now 3%nat))
                (ApprovalStep.set_status StepStatus.APPROVED step1) in
            let flow1 := ApprovalFlow.set_stepAt index step2 flow in
            if ApprovalFlow.currentLevel flow1 <? ApprovalFlow.totalLevels flow1
            then
              let flow2 :=
                ApprovalFlow.set_currentLevel
                  (ApprovalFlow.currentLevel flow1 + 1) flow1 in
              let next := ApprovalFlow.currentLevel flow2 - 1 in
              match ApprovalFlow.stepAt flow2 next with
              | None => (Throw TypeError, store w flowId flow2)
              | Some nextStep =>
                  let flow' :=
                    ApprovalFlow.set_stepAt next
                      (ApprovalStep.set_startedAt (Some (now 4%nat)) nextStep)
                      flow2 in
                  (Ok flow', store w flowId flow')
              end
            else
              let flow' :=
                ApprovalFlow.set_completedAt (Some (now 5%nat))
                  (ApprovalFlow.set_status FlowStatus.APPROVED flow1) in
              (Ok flow', store w flowId flow')
          else
            let flow' := ApprovalFlow.set_stepAt index step1 flow in
            (Ok flow', store w flowId flow')
      end
    end
  end.

(** [getFlow] *)
Definition getFlow (w : t) (flowId : string) : option ApprovalFlow.t :=
  JsMap.get (flows w) flowId.

(** The calls of a client on the flow service and on its rule engine. *)
Inductive Call :=
| AddRule (r : ApprovalRule.t)
| UpdateRule (ruleId : string) (updates : ApprovalRule.partial)
| DeactivateRule (ruleId : string)
| CreateApprovalFlow (now : Clock.t) (expense : Expense.t)
| ProcessApproval (now : Clock.t)
    (flowId approverId approverName approverRole : string)
    (action : Action.t) (comments : option string).

Definition call (w : t) (c : Call) : t :=
  match c with
  | AddRule r => addRule w r
  | UpdateRule ruleId updates => snd (updateRule w ruleId updates)
  | DeactivateRule ruleId => snd (deactivateRule w ruleId)
  | CreateApprovalFlow now expense => snd (createApprovalFlow w now expense)
  | ProcessApproval now flowId approverId approverName approverRole action
                    comments =>
      snd (processApproval w now flowId approverId approverName approverRole
             action comments)
  end.

Definition calls (w : t) (cs : list Call) : t := fold_left call cs w.

Definition isRuleCall (c : Call) : bool :=
  match c with
  | AddRule _ | UpdateRule _ _ | DeactivateRule _ => true
  | _ => false
  end.

Definition keepsFlow (k : string) (c : Call) : bool :=
  match c with
  | CreateApprovalFlow now expense =>
      negb (String.eqb
              (ApprovalFlowService.flowId (Expense.id expense) (now 0%nat)) k)
  | _ => true
  end.

(** What no method does and a client that holds a rule or a flow can do:
    a write in place to an array of roles, as
    [rule.approvalLevels[0].approverRoles.push(role)] is. *)
Definition writeRoles (w : t) (l : Roles.ref) (roles : list string) : t :=
  set_arrays (Roles.write (arrays w) l roles) w.

End Shared.

(** *** The values behind the references *)

(** A level, a rule, an update, a step and a flow of [Shared] with each
    reference replaced by the array that the store [h] holds for it, and
    the flow service that [Shared.t] is when its arrays are read so. *)
Definition viewLevel (h : Shared.Roles.t) (l : Shared.ApprovalLevel.t)
  : ApprovalLevel.t :=
  ApprovalLevel.mk
    (Shared.ApprovalLevel.level l)
    (Shared.Roles.read h (Shared.ApprovalLevel.approverRoles l))
    (Shared.ApprovalLevel.requiredApprovers l)
    (Shared.ApprovalLevel.autoApprove l)
    (Shared.ApprovalLevel.autoApproveThreshold l).

Definition viewRule (h : Shared.Roles.t) (r : Shared.ApprovalRule.t)
  : ApprovalRule.t :=
  ApprovalRule.mk
    (Shared.ApprovalRule.id r) (Shared.ApprovalRule.name r)
    (Shared.ApprovalRule.description r) (Shared.ApprovalRule.conditions r)
    (map (viewLevel h) (Shared.ApprovalRule.approvalLevels r))
    (Shared.ApprovalRule.priority r) (Shared.ApprovalRule.active r).

Definition viewPartial (h : Shared.Roles.t) (u : Shared.ApprovalRule.partial)
  : ApprovalRule.partial :=
  ApprovalRule.mkPartial
    (Shared.ApprovalRule.p_id u) (Shared.ApprovalRule.p_name u)
    (Shared.ApprovalRule.p_description u)
    (Shared.ApprovalRule.p_conditions u)
    (option_map (map (viewLevel h)) (Shared.ApprovalRule.p_approvalLevels u))
    (Shared.ApprovalRule.p_priority u) (Shared.ApprovalRule.p_active u).

Definition viewStep (h : Shared.Roles.t) (s : Shared.ApprovalStep.t)
  : ApprovalStep.t :=
  ApprovalStep.mk
    (Shared.ApprovalStep.level s)
    (Shared.Roles.read h (Shared.ApprovalStep.approverRoles s))
    (Shared.ApprovalStep.requiredApprovers s)
    (Shared.ApprovalStep.approvals s)
    (Shared.ApprovalStep.status s)
    (Shared.ApprovalStep.startedAt s)
    (Shared.ApprovalStep.completedAt s).

Definition viewFlow (h : Shared.Roles.t) (f : Shared.ApprovalFlow.t)
  : ApprovalFlow.t :=
  ApprovalFlow.mk
    (Shared.ApprovalFlow.id f) (Shared.ApprovalFlow.expenseId f)
    (Shared.ApprovalFlow.ruleId f) (Shared.ApprovalFlow.currentLevel f)
    (Shared.ApprovalFlow.totalLevels f) (Shared.ApprovalFlow.status f)
    (map (viewStep h) (Shared.ApprovalFlow.steps f))
    (Shared.ApprovalFlow.createdAt f) (Shared.ApprovalFlow.completedAt f).

Definition viewFlows (h : Shared.Roles.t) (m : JsMap.t Shared.ApprovalFlow.t)
  : JsMap.t ApprovalFlow.t :=
  map (fun kf => (fst kf, viewFlow h (snd kf))) m.

Definition view (w : Shared.t) : ApprovalFlowService.t :=
  ApprovalFlowService.mk
    (ApprovalRuleEngine.mk (map (viewRule (Shared.arrays w)) (Shared.rules w)))
    (viewFlows (Shared.arrays w) (Shared.flows w)).

Definition viewResult (h : Shared.Roles.t) (r : result Shared.ApprovalFlow.t)
  : result ApprovalFlow.t :=
  match r with
  | Ok f => Ok (viewFlow h f)
  | Throw e => Throw e
  end.

Definition viewCall (h : Shared.Roles.t) (c : Shared.Call) : Call :=
  match c with
  | Shared.AddRule r => AddRule (viewRule h r)
  | Shared.UpdateRule ruleId updates => UpdateRule ruleId (viewPartial h updates)
  | Shared.DeactivateRule ruleId => DeactivateRule ruleId
  | Shared.CreateApprovalFlow now expense => CreateApprovalFlow now expense
  | Shared.ProcessApproval now flowId approverId approverName approverRole
                           action comments =>
      ProcessApproval now flowId approverId approverName approverRole action
                      comments
  end.

(** ** Scenarios *)

Module Scenario.

(** The rules of the flow service's test suite. *)
Definition managerLevel : ApprovalLevel.t :=
  ApprovalLevel.mk 1 ["MANAGER"] 1 None None.

Definition directorLevel : ApprovalLevel.t :=
  ApprovalLevel.mk 2 ["DIRECTOR"] 1 None None.

Definition singleLevel : ApprovalRule.t :=
  ApprovalRule.mk "rule-1" "Single Level" "Single approval"
    [ApprovalCondition.mk ConditionType.AMOUNT Operator.LESS_THAN
       (ConditionValue.Num 100)]
    [managerLevel] 1 true.

Definition twoLevel : ApprovalRule.t :=
  ApprovalRule.mk "rule-2" "Two Level" "Two level approval"
    [ApprovalCondition.mk ConditionType.AMOUNT Operator.GREATER_THAN_OR_EQUAL
       (ConditionValue.Num 100)]
    [managerLevel; directorLevel] 2 true.

(** A rule without approval levels, as the rule engine's test suite
    builds them. *)
Definition noLevels : ApprovalRule.t :=
  ApprovalRule.mk "rule-3" "Test Rule" "Test" [] [] 5 true.

(** A level that needs two managers. *)
Definition twoManagers : ApprovalRule.t :=
  ApprovalRule.mk "rule-4" "Two Managers" "Two approvals at one level"
    [] [ApprovalLevel.mk 1 ["MANAGER"] 2 None None] 1 true.

Definition expenseOf (id : string) (amount : Q) (c : ExpenseCategory.t)
  : Expense.t :=
  Expense.mk id "emp-1" "John Doe" amount "USD" c "Lunch" 0
             ExpenseStatus.DRAFT None [] None.

Definition lunch : Expense.t := expenseOf "exp-1" 50 ExpenseCategory.MEALS.
Definition monitor : Expense.t := expenseOf "exp-2" 500 ExpenseCategory.EQUIPMENT.

Definition flowService (rules0 : list ApprovalRule.t) : ApprovalFlowService.t :=
  ApprovalFlowService.constructor (ApprovalRuleEngine.constructor rules0).

(** An expense service over [rules0] that holds the draft [e]. *)
Definition expenseService (rules0 : list ApprovalRule.t) (e : Expense.t)
  : ExpenseService.t :=
  ExpenseService.store (ExpenseService.constructor (flowService rules0))
                       (Expense.id e) e.

(** The keys of the flows created for the two expenses when [Date.now()]
    answers 1000. *)
Definition lunchFlow : string := "flow-exp-1-1000".
Definition monitorFlow : string := "flow-exp-2-1000".

Definition approve (now : Z) (fid approverId approverName approverRole : string)
  : Call :=
  ProcessApproval (Clock.ticking now) fid approverId approverName approverRole
                  Action.APPROVED None.

(** A two-level flow, just created. *)
Definition created : ApprovalFlowService.t :=
  calls (flowService [singleLevel; twoLevel]) [CreateApprovalFlow (Clock.ticking 1000) monitor].

(** The two-level flow after the manager's approval. *)
Definition advanced : ApprovalFlowService.t :=
  calls created [approve 1001 monitorFlow "mgr-1" "Manager One" "MANAGER"].

(** A single-level flow, approved by its manager. *)
Definition approved : ApprovalFlowService.t :=
  calls (flowService [singleLevel; twoLevel])
        [CreateApprovalFlow (Clock.ticking 1000) lunch;
         approve 1001 lunchFlow "mgr-1" "Manager One" "MANAGER"].

(** A flow made from the rule without levels. *)
Definition stuck : ApprovalFlowService.t :=
  calls (flowService [noLevels]) [CreateApprovalFlow (Clock.ticking 1000) lunch].

(** A flow whose only level needs two managers, after the first one has
    approved. *)
Definition halfApproved : ApprovalFlowService.t :=
  calls (flowService [twoManagers])
        [CreateApprovalFlow (Clock.ticking 1000) lunch;
         approve 1001 lunchFlow "mgr-1" "Manager One" "MANAGER"].

(** An expense service whose only rule is for amounts below 100, holding
    the draft of 500. *)
Definition draftOnly : ExpenseService.t := expenseService [singleLevel] monitor.

(** An expense service after the submission of the lunch expense. *)
Definition submitted : ExpenseService.t :=
  snd (ExpenseService.submitExpense
         (expenseService [singleLevel] lunch) (Clock.ticking 1000) "exp-1").

(** The same with the rule whose level needs two managers. *)
Definition submittedTwoManagers : ExpenseService.t :=
  snd (ExpenseService.submitExpense
         (expenseService [twoManagers] lunch) (Clock.ticking 1000) "exp-1").

(** Three active rules without conditions, of priorities 1, 2 and 3. *)
Definition ruleOfPriority (id : string) (p : Z) : ApprovalRule.t :=
  ApprovalRule.mk id id id [] [managerLevel] p true.

Definition ruleB : ApprovalRule.t := ruleOfPriority "B" 1.
Definition ruleA : ApprovalRule.t := ruleOfPriority "A" 2.
Definition ruleC : ApprovalRule.t := ruleOfPriority "C" 3.

(** The two rules of the test suite over a store of arrays of roles: the
    manager level holds the array 0, the director level the array 1; the
    array 2 is for a level that an update brings. *)
Definition roleArrays : Shared.Roles.t := [["MANAGER"]; ["DIRECTOR"]; ["CFO"]].

Definition sharedManagerLevel : Shared.ApprovalLevel.t :=
  Shared.ApprovalLevel.mk 1 0%nat 1 None None.

Definition sharedDirectorLevel : Shared.ApprovalLevel.t :=
  Shared.ApprovalLevel.mk 2 1%nat 1 None None.

Definition sharedCfoLevel : Shared.ApprovalLevel.t :=
  Shared.ApprovalLevel.mk 1 2%nat 1 None None.

Definition sharedSingleLevel : Shared.ApprovalRule.t :=
  Shared.ApprovalRule.mk "rule-1" "Single Level" "Single approval"
    [ApprovalCondition.mk ConditionType.AMOUNT Operator.LESS_THAN
       (ConditionValue.Num 100)]
    [sharedManagerLevel] 1 true.

Definition sharedTwoLevel : Shared.ApprovalRule.t :=
  Shared.ApprovalRule.mk "rule-2" "Two Level" "Two level approval"
    [ApprovalCondition.mk ConditionType.AMOUNT Operator.GREATER_THAN_OR_EQUAL
       (ConditionValue.Num 100)]
    [sharedManagerLevel; sharedDirectorLevel] 2 true.

Definition sharedService : Shared.t :=
  Shared.constructor roleArrays [sharedSingleLevel; sharedTwoLevel].

(** The two-level flow, just created. *)
Definition sharedCreated : Shared.t :=
  Shared.calls sharedService
    [Shared.CreateApprovalFlow (Clock.ticking 1000) monitor].

(** Edits of the two-level rule: its levels are replaced by one level for
    the CFO, then it is deactivated. *)
Definition sharedEdits : list Shared.Call :=
  [Shared.UpdateRule "rule-2"
     (Shared.ApprovalRule.mkPartial None None None None
        (Some [sharedCfoLevel]) None None);
   Shared.DeactivateRule "rule-2"].

End Scenario.


(* ===================================================================== *)
(** ** Rule matching                                                       *)
(* ===================================================================== *)

Section RuleMatching.

Import ApprovalRuleEngine.

Lemma insertRule_In r x l : In x (insertRule r l) <-> x = r \/ In x l.
Proof.
  induction l as [|y l IH]; simpl.
  - intuition.
  - destruct (prio r <? prio y); simpl; rewrite ?IH; intuition.
Qed.

Lemma insertRule_sorted r l : sortedRules l -> sortedRules (insertRule r l).
Proof.
  unfold sortedRules. induction l as [|y l IH]; simpl; intros Hs.
  - repeat constructor.
  - inversion Hs as [|? ? Hs' Hall]; subst.
    destruct (prio r <? prio y) eqn:E.
    + apply Z.ltb_lt in E. constructor; [auto|].
      rewrite List.Forall_forall. intros x Hx.
      apply insertRule_In in Hx as [->|Hx]; [lia|].
      rewrite List.Forall_forall in Hall. auto.
    + apply Z.ltb_ge in E. constructor; [exact Hs|].
      constructor; [exact E|].
      rewrite List.Forall_forall in Hall |- *.
      intros x Hx. specialize (Hall x Hx). lia.
Qed.

Lemma sortRules_sorted l : sortedRules (sortRules l).
Proof.
  induction l as [|r l IH]; simpl.
  - constructor.
  - by apply insertRule_sorted.
Qed.

Lemma sortRules_In x l : In x (sortRules l) <-> In x l.
Proof.
  induction l as [|r l IH]; simpl; [tauto|].
  rewrite insertRule_In, IH. intuition.
Qed.

(** Sorting a sorted array leaves it as it is. *)
Lemma sortRules_id l : sortedRules l -> sortRules l = l.
Proof.
  unfold sortedRules. induction l as [|r l IH]; simpl; intros Hs; [done|].
  inversion Hs as [|? ? Hs' Hall]; subst. rewrite IH by done.
  destruct l as [|y l]; simpl; [done|].
  inversion Hall; subst.
  destruct (prio r <? prio y) eqn:E; [|done].
  apply Z.ltb_lt in E. lia.
Qed.

Lemma insertRule_insertLast x r l :
  insertRule x (insertLast r l) = insertLast r (insertRule x l).
Proof.
  induction l as [|y l IH]; cbn [insertRule insertLast].
  - by destruct (prio x <? prio r) eqn:E.
  - destruct (prio y <? prio r) eqn:E1; destruct (prio x <? prio y) eqn:E2;
      cbn [insertRule insertLast]; rewrite ?E1, ?E2.
    + assert ((prio x <? prio r) = true) as ->
        by (apply Z.ltb_lt; apply Z.ltb_lt in E1, E2; lia).
      done.
    + destruct (prio x <? prio r) eqn:E3; cbn [insertLast]; by rewrite ?E1.
    + by rewrite IH.
    + assert ((prio x <? prio r) = false) as ->
        by (apply Z.ltb_ge; apply Z.ltb_ge in E1, E2; lia).
      by rewrite ?E1.
Qed.

Lemma sortRules_push l r : sortRules (l ++ [r]) = insertLast r (sortRules l).
Proof.
  induction l as [|x l IH]; simpl; [done|].
  by rewrite IH, insertRule_insertLast.
Qed.

(** Pushing onto the sorted array and sorting again is sorting the
    sequence of insertions. *)
Lemma sortRules_resort l r :
  sortRules (sortRules l ++ [r]) = sortRules (l ++ [r]).
Proof.
  rewrite !sortRules_push. f_equal. apply sortRules_id, sortRules_sorted.
Qed.

Lemma addRules_rules (added : list ApprovalRule.t) (l : list ApprovalRule.t) :
  rules (fold_left addRule added (mk (sortRules l)))
  = sortRules (l ++ added).
Proof.
  revert l. induction added as [|r added IH]; intros l; simpl.
  - by rewrite app_nil_r.
  - unfold addRule at 2. simpl. rewrite sortRules_resort, IH.
    by rewrite <- app_assoc.
Qed.

Lemma firstMatch_filter l e :
  firstMatch (List.filter ApprovalRule.active l) e
  = List.find (candidate e) l.
Proof.
  induction l as [|r l IH]; simpl; [done|].
  unfold candidate at 1. destruct (ApprovalRule.active r); simpl; [|done].
  by rewrite IH.
Qed.

Lemma find_sorted_le l e r x :
  sortedRules (x :: l) -> List.find (candidate e) (x :: l) = Some r ->
  prio r <= prio x.
Proof.
  intros Hs Hf. apply List.find_some in Hf as [Hin _].
  inversion Hs as [|? ? _ Hall]; subst.
  destruct Hin as [->|Hin]; [lia|].
  rewrite List.Forall_forall in Hall. auto.
Qed.

Lemma find_insertRule x l e :
  sortedRules l ->
  List.find (candidate e) (insertRule x l)
  = if candidate e x then
      match List.find (candidate e) l with
      | Some r => if prio x <? prio r then Some r else Some x
      | None => Some x
      end
    else List.find (candidate e) l.
Proof.
  induction l as [|y l IH]; intros Hs.
  - simpl. by destruct (candidate e x).
  - pose proof Hs as Hs0. inversion Hs as [|? ? Hs' Hall]; subst.
    cbn [insertRule]. destruct (prio x <? prio y) eqn:E.
    + cbn [List.find]. destruct (candidate e y) eqn:Cy.
      * rewrite E. by destruct (candidate e x).
      * by apply IH.
    + cbn [List.find]. destruct (candidate e x) eqn:Cx; [|done].
      destruct (candidate e y) eqn:Cy.
      * by rewrite E.
      * destruct (List.find (candidate e) l) as [r|] eqn:F; [|done].
        assert (prio r <= prio y).
        { apply (find_sorted_le l e r y Hs0). cbn [List.find].
          by rewrite Cy. }
        apply Z.ltb_ge in E.
        assert ((prio x <? prio r) = false) as -> by (apply Z.ltb_ge; lia).
        done.
Qed.

Lemma find_sortRules l e :
  List.find (candidate e) (sortRules l) = bestMatch l e.
Proof.
  induction l as [|x l IH]; simpl; [done|].
  rewrite find_insertRule by apply sortRules_sorted. by rewrite IH.
Qed.

Lemma firstOfHighest_max e l r y :
  firstOfHighest e l r -> In y l -> candidate e y = true -> prio y <= prio r.
Proof.
  intros (l1 & l2 & -> & _ & H1 & H2) Hin Hy.
  apply in_app_or in Hin as [Hin|[->|Hin]].
  - specialize (H1 _ Hin Hy). lia.
  - lia.
  - auto.
Qed.

Lemma bestMatch_spec l e :
  match bestMatch l e with
  | Some r => firstOfHighest e l r
  | None => forall y, In y l -> candidate e y = false
  end.
Proof.
  induction l as [|x l IH]; simpl.
  - intros y [].
  - destruct (candidate e x) eqn:Cx.
    + destruct (bestMatch l e) as [r|] eqn:B.
      * destruct (prio x <? prio r) eqn:E.
        -- apply Z.ltb_lt in E.
           destruct IH as (l1 & l2 & -> & Cr & H1 & H2).
           exists (x :: l1), l2. repeat split; auto.
           intros y [->|Hy] Cy; auto.
        -- apply Z.ltb_ge in E. exists [], l. repeat split; auto.
           ++ intros y [].
           ++ intros y Hy Cy.
              pose proof (firstOfHighest_max e l r y IH Hy Cy). lia.
      * exists [], l. repeat split; auto.
        -- intros y [].
        -- intros y Hy Cy. rewrite IH in Cy by done. discriminate.
    + destruct (bestMatch l e) as [r|] eqn:B.
      * destruct IH as (l1 & l2 & -> & Cr & H1 & H2).
        exists (x :: l1), l2. repeat split; auto.
        intros y [->|Hy] Cy; [congruence|auto].
      * intros y [->|Hy]; auto.
Qed.


(** Whatever the calls that led to it, an engine whose array is sorted
    returns the first, in the order of the array, of the active matching
    rules of highest priority; and every method of the engine leaves the
    array sorted. *)
Lemma findMatchingRule_sorted eng e :
  sortedRules (rules eng) ->
  match findMatchingRule eng e with
  | Some r => firstOfHighest e (rules eng) r
  | None => forall y, In y (rules eng) -> candidate e y = false
  end.
Proof.
  intros Hs. unfold findMatchingRule. cbv zeta.
  rewrite firstMatch_filter.
  replace (List.find (candidate e) (rules eng))
    with (bestMatch (rules eng) e)
    by (rewrite <- find_sortRules; f_equal; by apply sortRules_id).
  apply bestMatch_spec.
Qed.

Lemma engine_methods_sorted :
  (forall rs, sortedRules (rules (constructor rs))) /\
  (forall eng r, sortedRules (rules (addRule eng r))) /\
  (forall eng ruleId updates,
     sortedRules (rules eng) ->
     sortedRules (rules (snd (updateRule eng ruleId updates)))) /\
  (forall eng ruleId,
     sortedRules (rules eng) ->
     sortedRules (rules (snd (deactivateRule eng ruleId)))).
Proof.
  assert (Hupd : forall eng ruleId updates,
            sortedRules (rules eng) ->
            sortedRules (rules (snd (updateRule eng ruleId updates)))).
  { intros eng ruleId updates Hs. unfold updateRule.
    destruct (findIndex (rules eng) ruleId); simpl; [|done].
    apply sortRules_sorted. }
  repeat split.
  - intros rs. apply sortRules_sorted.
  - intros eng r. apply sortRules_sorted.
  - exact Hupd.
  - intros eng ruleId. apply Hupd.
Qed.

(** C3, amended.  For an engine built by the constructor over [rules0] and
    then extended by [addRule] with the rules of [added], and for every
    expense: the engine's array is the stable descending sort of the
    sequence of insertions; [findMatchingRule] returns the first rule of
    the active part of that array whose conditions all hold; the rule
    returned is the first, in insertion order, of the active matching rules
    of highest priority, and [null] is returned exactly when no active rule
    matches.  In particular, when two active rules [A] and [B] both match
    and [priority A > priority B], the rule returned has at least the
    priority of [A], so it is not [B], and it is [A] itself when every
    other active matching rule has a lower priority than [A]. *)
Theorem findMatchingRule_priority_order
    (rules0 added : list ApprovalRule.t) (e : Expense.t) :
  let eng := engineOf rules0 added in
  let inserted := rules0 ++ added in
  ApprovalRuleEngine.rules eng = ApprovalRuleEngine.sortRules inserted /\
  sortedRules (ApprovalRuleEngine.rules eng) /\
  ApprovalRuleEngine.findMatchingRule eng e
  = List.find (fun r => ApprovalRuleEngine.evaluateRule r e)
      (List.filter ApprovalRule.active (ApprovalRuleEngine.sortRules inserted)) /\
  match ApprovalRuleEngine.findMatchingRule eng e with
  | Some r => firstOfHighest e inserted r
  | None => forall y, In y inserted -> candidate e y = false
  end /\
  forall A B,
    In A inserted -> In B inserted ->
    candidate e A = true -> candidate e B = true ->
    prio B < prio A ->
    exists r,
      ApprovalRuleEngine.findMatchingRule eng e = Some r /\
      prio A <= prio r /\ r <> B /\
      ((forall C, In C inserted -> candidate e C = true ->
                  C = A \/ prio C < prio A) -> r = A).
Proof.
  intros eng inserted.
  assert (Hrules : rules eng = sortRules inserted).
  { unfold eng, engineOf, constructor. apply addRules_rules. }
  assert (Hfind : findMatchingRule eng e = bestMatch inserted e).
  { unfold findMatchingRule. cbv zeta.
    rewrite firstMatch_filter, Hrules. apply find_sortRules. }
  split; [exact Hrules|].
  split; [rewrite Hrules; apply sortRules_sorted|].
  split.
  { unfold findMatchingRule. cbv zeta. rewrite Hrules.
    generalize (List.filter ApprovalRule.active (sortRules inserted)).
    intros l. induction l as [|r l IH]; simpl; [done|].
    destruct (evaluateRule r e); [done|exact IH]. }
  pose proof (bestMatch_spec inserted e) as Hspec.
  rewrite Hfind. split; [exact Hspec|].
  intros A B HA HB CA CB Hlt.
  destruct (bestMatch inserted e) as [r|].
  - pose proof (firstOfHighest_max e inserted r A Hspec HA CA) as Hmax.
    exists r. repeat split; [exact Hmax| |].
    + intros ->. lia.
    + intros Hall. destruct Hspec as (l1 & l2 & Heq & Cr & _).
      destruct (Hall r) as [->|Hr]; [|done|done|lia].
      rewrite Heq. apply in_or_app. right. by left.
  - rewrite (Hspec A HA) in CA. discriminate.
Qed.

End RuleMatching.

(** The priority test of the rule engine's suite: a rule of priority 10
    added after construction wins over the rule of priority 1 that also
    matches an expense of 75. *)
Example findMatchingRule_respects_priority :
  let highPriorityRule :=
    ApprovalRule.mk "rule-high" "High Priority" "High priority rule"
      [ApprovalCondition.mk ConditionType.AMOUNT
         Operator.GREATER_THAN_OR_EQUAL (ConditionValue.Num 50)]
      [ApprovalLevel.mk 1 ["VP"] 1 None None] 10 true in
  let eng := engineOf [Scenario.singleLevel; Scenario.twoLevel]
                      [highPriorityRule] in
  option_map ApprovalRule.id
    (ApprovalRuleEngine.findMatchingRule eng
       (Scenario.expenseOf "exp-3" 75 ExpenseCategory.MEALS))
  = Some "rule-high".
Proof. reflexivity. Qed.

(** C3 as stated fails when a third rule outranks both: [A] and [B] are
    active, both match, [priority A > priority B], and the rule returned
    is [C]. *)
Lemma findMatchingRule_priority_order_counterexample :
  candidate Scenario.lunch Scenario.ruleA = true /\
  candidate Scenario.lunch Scenario.ruleB = true /\
  prio Scenario.ruleB < prio Scenario.ruleA /\
  ApprovalRuleEngine.findMatchingRule
    (engineOf [Scenario.ruleB; Scenario.ruleA; Scenario.ruleC] [])
    Scenario.lunch = Some Scenario.ruleC /\
  ApprovalRuleEngine.findMatchingRule
    (engineOf [Scenario.ruleB; Scenario.ruleA; Scenario.ruleC] [])
    Scenario.lunch <> Some Scenario.ruleA.
Proof. repeat split. discriminate. Qed.

(* ===================================================================== *)
(** ** The map of flows                                                    *)
(* ===================================================================== *)

Section JsMapFacts.

Context {V : Type}.
Implicit Types (m : JsMap.t V) (k : string) (v : V).

Lemma get_set_eq m k v : JsMap.get (JsMap.set m k v) k = Some v.
Proof.
  induction m as [|[k' v'] m IH]; simpl.
  - by rewrite String.eqb_refl.
  - destruct (String.eqb k' k) eqn:E; simpl.
    + by rewrite String.eqb_refl.
    + by rewrite E.
Qed.

Lemma get_set_ne m k k' v :
  k <> k' -> JsMap.get (JsMap.set m k v) k' = JsMap.get m k'.
Proof.
  intros Hne. induction m as [|[k0 v0] m IH]; simpl.
  - by apply String.eqb_neq in Hne as ->.
  - destruct (String.eqb k0 k) eqn:E; simpl.
    + apply String.eqb_eq in E as ->.
      by apply String.eqb_neq in Hne as ->.
    + by rewrite IH.
Qed.

Lemma get_In_values m k v : JsMap.get m k = Some v -> In v (JsMap.values m).
Proof.
  induction m as [|[k' v'] m IH]; simpl; [done|].
  destruct (String.eqb k' k).
  - intros [= ->]. by left.
  - intros H. right. by apply IH.
Qed.

Lemma values_set_In m k v x :
  In x (JsMap.values (JsMap.set m k v)) -> x = v \/ In x (JsMap.values m).
Proof.
  induction m as [|[k' v'] m IH]; simpl.
  - intros [<-|[]]. by left.
  - destruct (String.eqb k' k); simpl.
    + intros [<-|H]; [by left|right; by right].
    + intros [<-|H]; [right; by left|].
      destruct (IH H) as [->|H']; [by left|right; by right].
Qed.

End JsMapFacts.

(* ===================================================================== *)
(** ** Steps of a flow                                                     *)
(* ===================================================================== *)

(** Reads of the fields of a flow after assignments. *)
Ltac flow_fields :=
  unfold ApprovalFlow.set_currentLevel, ApprovalFlow.set_status,
    ApprovalFlow.set_steps, ApprovalFlow.set_completedAt;
  cbn [ApprovalFlow.id ApprovalFlow.expenseId ApprovalFlow.ruleId
       ApprovalFlow.currentLevel ApprovalFlow.totalLevels ApprovalFlow.status
       ApprovalFlow.steps ApprovalFlow.createdAt ApprovalFlow.completedAt].

Section FlowFacts.

Import ApprovalFlowService.

Lemma stepAt_Some f i s :
  ApprovalFlow.stepAt f i = Some s ->
  0 <= i /\ ApprovalFlow.steps f !! Z.to_nat i = Some s.
Proof.
  unfold ApprovalFlow.stepAt. destruct (i <? 0) eqn:E; [done|].
  apply Z.ltb_ge in E. done.
Qed.

Lemma stepAt_lookup f (n : nat) :
  ApprovalFlow.stepAt f (Z.of_nat n) = ApprovalFlow.steps f !! n.
Proof.
  unfold ApprovalFlow.stepAt.
  assert ((Z.of_nat n <? 0) = false) as -> by (apply Z.ltb_ge; lia).
  by rewrite Nat2Z.id.
Qed.

Lemma currentStep_lookup f s :
  currentStep f = Some s ->
  exists n : nat,
    Z.of_nat n = ApprovalFlow.currentLevel f - 1 /\
    ApprovalFlow.steps f !! n = Some s.
Proof.
  intros H. apply stepAt_Some in H as [Hpos H].
  exists (Z.to_nat (ApprovalFlow.currentLevel f - 1)). split; [lia|done].
Qed.

Lemma hasActed_In s a : hasActed s a = true <-> In a (approverIds s).
Proof.
  unfold hasActed, approverIds. rewrite existsb_exists, in_map_iff.
  split.
  - intros (x & Hx & E). apply String.eqb_eq in E. eauto.
  - intros (x & E & Hx). exists x. split; [done|]. by apply String.eqb_eq.
Qed.

Lemma approverIds_pushed a s :
  approverIds (pushed a s) = approverIds s ++ [StepApproval.approverId a].
Proof. unfold approverIds, pushed. simpl. by rewrite map_app. Qed.

Lemma NoDup_pushed a s :
  NoDup (approverIds s) -> hasActed s (StepApproval.approverId a) = false ->
  NoDup (approverIds (pushed a s)).
Proof.
  intros Hnd Hact. rewrite approverIds_pushed.
  apply NoDup_app. split; [done|]. split.
  - intros x Hx Hx'. apply list_elem_of_singleton in Hx' as ->.
    apply list_elem_of_In, hasActed_In in Hx. congruence.
  - apply NoDup_singleton.
Qed.

(** A flow created from a list of levels. *)
Lemma imap_newStep_lookup now (levels : list ApprovalLevel.t) (i : nat) s :
  imap (newStep now) levels !! i = Some s ->
  ApprovalStep.status s = StepStatus.PENDING /\ ApprovalStep.approvals s = [].
Proof.
  rewrite list_lookup_imap. destruct (levels !! i) as [l|]; simpl; [|done].
  intros [= <-]. by destruct i.
Qed.

Lemma imap_newStep_shape now (levels : list ApprovalLevel.t) :
  map stepShape (imap (newStep now) levels) = map levelShape levels.
Proof.
  assert (H : forall g : nat -> ApprovalLevel.t -> ApprovalStep.t,
             (forall i l, stepShape (g i l) = levelShape l) ->
             map stepShape (imap g levels) = map levelShape levels).
  { induction levels as [|l levels IH]; intros g Hg; simpl; [done|].
    rewrite Hg. f_equal. apply IH. intros i l'. apply Hg. }
  apply H. intros i l. by destruct i.
Qed.

(** The invariant after an assignment to the current step and to the
    status of the flow, the level staying where it is. *)
Lemma flowInv_update f (n : nat) step s' st' c' :
  flowInv f ->
  Z.of_nat n = ApprovalFlow.currentLevel f - 1 ->
  ApprovalFlow.steps f !! n = Some step ->
  NoDup (approverIds s') ->
  match st' with
  | FlowStatus.PENDING => ApprovalStep.status s' = StepStatus.PENDING
  | FlowStatus.APPROVED =>
      ApprovalFlow.currentLevel f = ApprovalFlow.totalLevels f /\
      ApprovalStep.status s' = StepStatus.APPROVED
  | FlowStatus.REJECTED => ApprovalStep.status s' = StepStatus.REJECTED
  end ->
  flowInv
    (ApprovalFlow.mk (ApprovalFlow.id f) (ApprovalFlow.expenseId f)
       (ApprovalFlow.ruleId f) (ApprovalFlow.currentLevel f)
       (ApprovalFlow.totalLevels f) st'
       (<[n := s']> (ApprovalFlow.steps f))
       (ApprovalFlow.createdAt f) c').
Proof.
  intros Hinv Hn Hstep Hnd Hst.
  pose proof (lookup_lt_Some _ _ _ Hstep) as Hlt.
  constructor; simpl.
  - apply Hinv.
  - rewrite length_insert. apply Hinv.
  - apply Hinv.
  - intros i s Hi Hlti. rewrite list_lookup_insert_ne in Hi by lia.
    by eapply (inv_before f Hinv).
  - intros i s Hi Hlti. rewrite list_lookup_insert_ne in Hi by lia.
    by eapply (inv_after f Hinv).
  - assert (Hcur : forall st,
      currentStep
        (ApprovalFlow.mk (ApprovalFlow.id f) (ApprovalFlow.expenseId f)
           (ApprovalFlow.ruleId f) (ApprovalFlow.currentLevel f)
           (ApprovalFlow.totalLevels f) st
           (<[n := s']> (ApprovalFlow.steps f))
           (ApprovalFlow.createdAt f) c') = Some s').
    { intros st. unfold currentStep. simpl. rewrite <- Hn, stepAt_lookup.
      simpl. by apply list_lookup_insert_eq. }
    destruct st'.
    + intros s. rewrite Hcur. by intros [= <-].
    + split; [apply Hst|]. exists s'. split; [apply Hcur|apply Hst].
    + exists s'. split; [apply Hcur|apply Hst].
  - intros i s Hi. destruct (decide (i = n)) as [->|Hne].
    + rewrite list_lookup_insert_eq in Hi by done. by injection Hi as <-.
    + rewrite list_lookup_insert_ne in Hi by done.
      by eapply (inv_nodup f Hinv).
Qed.

(** The invariant after the current step is approved and the flow moves to
    the next level. *)
Lemma flowInv_advance f (n : nat) step s' next next' st' c' :
  flowInv f ->
  st' = FlowStatus.PENDING ->
  Z.of_nat n = ApprovalFlow.currentLevel f - 1 ->
  ApprovalFlow.steps f !! n = Some step ->
  ApprovalFlow.steps f !! S n = Some next ->
  NoDup (approverIds s') ->
  ApprovalStep.status s' = StepStatus.APPROVED ->
  ApprovalStep.status next' = ApprovalStep.status next ->
  ApprovalStep.approvals next' = ApprovalStep.approvals next ->
  flowInv
    (ApprovalFlow.mk (ApprovalFlow.id f) (ApprovalFlow.expenseId f)
       (ApprovalFlow.ruleId f) (ApprovalFlow.currentLevel f + 1)
       (ApprovalFlow.totalLevels f) st'
       (<[S n := next']> (<[n := s']> (ApprovalFlow.steps f)))
       (ApprovalFlow.createdAt f) c').
Proof.
  intros Hinv -> Hn Hstep Hnext Hnd Hst Hnst Hnap.
  pose proof (lookup_lt_Some _ _ _ Hstep) as Hlt.
  pose proof (lookup_lt_Some _ _ _ Hnext) as Hlt'.
  pose proof (inv_total f Hinv) as Htot.
  destruct (inv_after f Hinv (S n) next Hnext) as [Hnp Hna]; [lia|].
  constructor; simpl.
  - pose proof (inv_level_pos f Hinv). lia.
  - rewrite !length_insert. apply Hinv.
  - lia.
  - intros i s Hi Hlti. rewrite list_lookup_insert_ne in Hi by lia.
    destruct (decide (i = n)) as [->|Hne].
    + rewrite list_lookup_insert_eq in Hi by done. by injection Hi as <-.
    + rewrite list_lookup_insert_ne in Hi by done.
      eapply (inv_before f Hinv); [done|lia].
  - intros i s Hi Hlti. rewrite !list_lookup_insert_ne in Hi by lia.
    eapply (inv_after f Hinv); [done|lia].
  - intros s. unfold currentStep. simpl.
    replace (ApprovalFlow.currentLevel f + 1 - 1) with (Z.of_nat (S n)) by lia.
    rewrite stepAt_lookup. simpl.
    rewrite list_lookup_insert_eq by (rewrite length_insert; done).
    intros [= <-]. congruence.
  - intros i s Hi. destruct (decide (i = S n)) as [->|Hne].
    + rewrite list_lookup_insert_eq in Hi by (rewrite length_insert; done).
      injection Hi as <-. unfold approverIds. rewrite Hnap, Hna. constructor.
    + rewrite list_lookup_insert_ne in Hi by done.
      destruct (decide (i = n)) as [->|Hne'].
      * rewrite list_lookup_insert_eq in Hi by done. by injection Hi as <-.
      * rewrite list_lookup_insert_ne in Hi by done.
        by eapply (inv_nodup f Hinv).
Qed.

(** A flow as [createApprovalFlow] builds it. *)
Lemma flowInv_new fid eid rid now created (levels : list ApprovalLevel.t) :
  flowInv
    (ApprovalFlow.mk fid eid rid 1 (Z.of_nat (length levels))
       FlowStatus.PENDING (imap (newStep now) levels) created None).
Proof.
  constructor; simpl.
  - lia.
  - by rewrite length_imap.
  - lia.
  - intros i s _ Hi. lia.
  - intros i s Hi _. by eapply imap_newStep_lookup.
  - intros s Hs. apply stepAt_Some in Hs as [_ Hs]. simpl in Hs.
    by eapply imap_newStep_lookup.
  - intros i s Hi. apply imap_newStep_lookup in Hi as [_ Hi].
    unfold approverIds. rewrite Hi. constructor.
Qed.

Lemma serviceInv_store svc k f :
  serviceInv svc -> flowInv f -> serviceInv (store svc k f).
Proof.
  intros Hsvc Hf x Hx. unfold store in Hx. simpl in Hx.
  apply values_set_In in Hx as [->|Hx]; [done|by apply Hsvc].
Qed.

Lemma FlowStatus_eqb_eq a b : FlowStatus.eqb a b = true <-> a = b.
Proof. destruct a, b; simpl; split; congruence. Qed.

Lemma pending_check f :
  negb (FlowStatus.eqb (ApprovalFlow.status f) FlowStatus.PENDING) = false ->
  ApprovalFlow.status f = FlowStatus.PENDING.
Proof. intros H. apply negb_false_iff in H. by apply FlowStatus_eqb_eq. Qed.

(** [processApproval] on a frozen flow throws and changes nothing. *)
Lemma processApproval_frozen svc now fid aid an ar act cm f :
  JsMap.get (flows svc) fid = Some f -> frozen f ->
  processApproval svc now fid aid an ar act cm = (Throw (frozenError fid f), svc).
Proof.
  intros G Hf. unfold processApproval, frozenError. rewrite G.
  destruct (ApprovalFlow.status f) eqn:Hst; simpl; try done.
  destruct Hf as [Hf|Hf]; [done|].
  unfold currentStep in Hf. by rewrite Hf.
Qed.

(** The state after [processApproval]: as before, or with one write at the
    key of the flow. *)
Lemma processApproval_state svc now fid aid an ar act cm :
  snd (processApproval svc now fid aid an ar act cm) = svc \/
  exists f', snd (processApproval svc now fid aid an ar act cm) = store svc fid f'.
Proof.
  unfold processApproval.
  repeat (match goal with
          | |- context [match ?x with _ => _ end] => destruct x
          end; simpl; eauto).
Qed.

Lemma processApproval_ruleEngine svc now fid aid an ar act cm :
  ruleEngine (snd (processApproval svc now fid aid an ar act cm)) = ruleEngine svc.
Proof.
  destruct (processApproval_state svc now fid aid an ar act cm) as [->|[f' ->]];
    done.
Qed.

Lemma processApproval_frame svc now fid aid an ar act cm k :
  fid <> k ->
  JsMap.get (flows (snd (processApproval svc now fid aid an ar act cm))) k
  = JsMap.get (flows svc) k.
Proof.
  intros Hne.
  destruct (processApproval_state svc now fid aid an ar act cm) as [->|[f' ->]];
    [done|].
  unfold store. simpl. by apply get_set_ne.
Qed.

(** [processApproval] keeps the invariant of the flows. *)
Lemma processApproval_inv svc now fid aid an ar act cm :
  serviceInv svc ->
  serviceInv (snd (processApproval svc now fid aid an ar act cm)).
Proof.
  intros Hsvc. unfold processApproval.
  destruct (JsMap.get (flows svc) fid) as [flow|] eqn:G; [|done].
  assert (Hinv : flowInv flow) by (eapply Hsvc, get_In_values, G).
  destruct (negb (FlowStatus.eqb (ApprovalFlow.status flow) FlowStatus.PENDING))
    eqn:Hst; [done|].
  apply pending_check in Hst. cbv zeta.
  destruct (ApprovalFlow.stepAt flow (ApprovalFlow.currentLevel flow - 1))
    as [step|] eqn:C; [|done].
  destruct (negb (ApprovalRuleEngine.includes (ApprovalStep.approverRoles step) ar));
    [done|].
  destruct (hasActed step aid) eqn:A; [done|].
  pose proof (currentStep_lookup flow step C) as (n & Hn & Hstep).
  assert (Z.to_nat (ApprovalFlow.currentLevel flow - 1) = n) as En by lia.
  pose proof (lookup_lt_Some _ _ _ Hstep) as Hlt.
  pose proof (inv_total flow Hinv) as Htot.
  pose proof (inv_nodup flow Hinv n step Hstep) as Hnd.
  pose proof (NoDup_pushed (StepApproval.mk aid an ar act (now 0%nat) cm) step Hnd A)
    as Hnd'.
  assert (Hpend : ApprovalStep.status step = StepStatus.PENDING).
  { pose proof (inv_current flow Hinv) as Hc. rewrite Hst in Hc. by apply Hc. }
  destruct act.
  - destruct (_ <=? _).
    + unfold ApprovalFlow.set_stepAt. simpl. rewrite En.
      destruct (ApprovalFlow.currentLevel flow <? ApprovalFlow.totalLevels flow)
        eqn:L.
      * apply Z.ltb_lt in L.
        destruct (ApprovalFlow.steps flow !! S n) as [next|] eqn:Hnext;
          [|apply lookup_ge_None in Hnext; lia].
        unfold ApprovalFlow.stepAt. simpl.
        assert ((ApprovalFlow.currentLevel flow + 1 - 1 <? 0) = false) as ->
          by (apply Z.ltb_ge; lia).
        replace (Z.to_nat (ApprovalFlow.currentLevel flow + 1 - 1))
          with (S n) by lia.
        rewrite list_lookup_insert_ne by lia. rewrite Hnext. simpl.
        apply serviceInv_store; [done|].
        by apply (flowInv_advance flow n step _ next).
      * apply Z.ltb_ge in L. simpl.
        apply serviceInv_store; [done|].
        apply (flowInv_update flow n step); try done.
        split; [|done]. pose proof (inv_level_max flow Hinv). lia.
    + unfold ApprovalFlow.set_stepAt. simpl. rewrite En.
      apply serviceInv_store; [done|].
      apply (flowInv_update flow n step); try done. by rewrite Hst.
  - unfold ApprovalFlow.set_stepAt. simpl. rewrite En.
    apply serviceInv_store; [done|].
    by apply (flowInv_update flow n step).
Qed.

(** Under the invariant, a call of [processApproval] that throws has
    changed nothing. *)
Lemma processApproval_throw_unchanged svc now fid aid an ar act cm :
  serviceInv svc ->
  isThrow (fst (processApproval svc now fid aid an ar act cm)) = true ->
  snd (processApproval svc now fid aid an ar act cm) = svc.
Proof.
  intros Hsvc. unfold processApproval.
  destruct (JsMap.get (flows svc) fid) as [flow|] eqn:G; [|done].
  assert (Hinv : flowInv flow) by (eapply Hsvc, get_In_values, G).
  destruct (negb _); [done|]. cbv zeta.
  destruct (ApprovalFlow.stepAt flow (ApprovalFlow.currentLevel flow - 1))
    as [step|] eqn:C; [|done].
  destruct (negb _); [done|]. destruct (hasActed step aid); [done|].
  pose proof (currentStep_lookup flow step C) as (n & Hn & Hstep).
  pose proof (inv_total flow Hinv) as Htot.
  destruct act; [|done].
  destruct (_ <=? _); [|done].
  unfold ApprovalFlow.set_stepAt. simpl.
  destruct (ApprovalFlow.currentLevel flow <? ApprovalFlow.totalLevels flow)
    eqn:L; [|done].
  apply Z.ltb_lt in L.
  destruct (ApprovalFlow.steps flow !! S n) as [next|] eqn:Hnext;
    [|apply lookup_ge_None in Hnext; lia].
  unfold ApprovalFlow.stepAt. simpl.
  assert ((ApprovalFlow.currentLevel flow + 1 - 1 <? 0) = false) as ->
    by (apply Z.ltb_ge; lia).
  replace (Z.to_nat (ApprovalFlow.currentLevel flow + 1 - 1)) with (S n) by lia.
  rewrite list_lookup_insert_ne by lia. by rewrite Hnext.
Qed.

Lemma createApprovalFlow_inv svc now e :
  serviceInv svc -> serviceInv (snd (createApprovalFlow svc now e)).
Proof.
  intros Hsvc. unfold createApprovalFlow.
  destruct (ApprovalRuleEngine.findMatchingRule (ruleEngine svc) e) as [rule|];
    [|done].
  simpl. intros f Hf. apply values_set_In in Hf as [->|Hf]; [|by apply Hsvc].
  apply flowInv_new.
Qed.

Lemma call_inv svc c : serviceInv svc -> serviceInv (call svc c).
Proof.
  intros Hsvc. destruct c; simpl; try done.
  - by apply createApprovalFlow_inv.
  - by apply processApproval_inv.
Qed.

Lemma calls_inv svc cs : serviceInv svc -> serviceInv (calls svc cs).
Proof.
  revert svc. induction cs as [|c cs IH]; intros svc Hsvc; simpl; [done|].
  by apply IH, call_inv.
Qed.

(** Every flow of a reachable service satisfies the invariant. *)
Lemma reachable_inv svc : reachable svc -> serviceInv svc.
Proof.
  intros (rules0 & cs & ->). apply calls_inv. intros f [].
Qed.

Lemma calls_app svc cs cs' : calls svc (cs ++ cs') = calls (calls svc cs) cs'.
Proof. unfold calls. apply fold_left_app. Qed.

Lemma reachable_calls svc cs : reachable svc -> reachable (calls svc cs).
Proof.
  intros (rules0 & cs0 & ->). exists rules0, (cs0 ++ cs).
  by rewrite calls_app.
Qed.

Lemma shape_insert (l : list ApprovalStep.t) (n : nat) s s' :
  l !! n = Some s -> stepShape s' = stepShape s ->
  map stepShape (<[n := s']> l) = map stepShape l.
Proof.
  revert n. induction l as [|x l IH]; intros [|n] Hn Hs; simpl in *;
    try done.
  - injection Hn as ->. by rewrite Hs.
  - f_equal. by apply IH.
Qed.

(** The state after [processApproval]: as before, or with one write at the
    key of the flow, of a flow of the same shape. *)
Lemma processApproval_state_shape svc now fid aid an ar act cm :
  snd (processApproval svc now fid aid an ar act cm) = svc \/
  exists f f',
    JsMap.get (flows svc) fid = Some f /\
    snd (processApproval svc now fid aid an ar act cm) = store svc fid f' /\
    flowShape f' = flowShape f.
Proof.
  unfold processApproval.
  destruct (JsMap.get (flows svc) fid) as [flow|] eqn:G; [|by left].
  destruct (negb _); [by left|]. cbv zeta.
  destruct (ApprovalFlow.stepAt flow (ApprovalFlow.currentLevel flow - 1))
    as [step|] eqn:C; [|by left].
  destruct (negb _); [by left|]. destruct (hasActed step aid); [by left|].
  apply stepAt_Some in C as [_ Hstep].
  right. exists flow. unfold ApprovalFlow.set_stepAt.
  destruct act.
  - destruct (_ <=? _).
    + flow_fields. destruct (_ <? _).
      * destruct (ApprovalFlow.stepAt _ _) as [next|] eqn:C2.
        -- apply stepAt_Some in C2 as [_ Hnext]. revert Hnext. flow_fields.
           intros Hnext. eexists. split; [done|]. split; [reflexivity|].
           unfold flowShape. flow_fields. f_equal.
           rewrite (shape_insert _ _ next) by done.
           by rewrite (shape_insert _ _ step).
        -- eexists. split; [done|]. split; [reflexivity|].
           unfold flowShape. flow_fields. f_equal.
           by rewrite (shape_insert _ _ step).
      * eexists. split; [done|]. split; [reflexivity|].
        unfold flowShape. flow_fields. f_equal.
        by rewrite (shape_insert _ _ step).
    + eexists. split; [done|]. split; [reflexivity|].
      unfold flowShape. flow_fields. f_equal.
      by rewrite (shape_insert _ _ step).
  - eexists. split; [done|]. split; [reflexivity|].
    unfold flowShape. flow_fields. f_equal.
    by rewrite (shape_insert _ _ step).
Qed.

Lemma createApprovalFlow_frame svc now e k :
  flowId (Expense.id e) (now 0%nat) <> k ->
  JsMap.get (flows (snd (createApprovalFlow svc now e))) k
  = JsMap.get (flows svc) k.
Proof.
  intros Hne. unfold createApprovalFlow.
  destruct (ApprovalRuleEngine.findMatchingRule (ruleEngine svc) e); [|done].
  simpl. by apply get_set_ne.
Qed.

(** A frozen flow stays in the map as it is, whatever calls are made that
    keep the object under its key. *)
Lemma calls_frozen svc cs k f :
  JsMap.get (flows svc) k = Some f -> frozen f ->
  forallb (keepsFlow k) cs = true ->
  JsMap.get (flows (calls svc cs)) k = Some f.
Proof.
  revert svc. induction cs as [|c cs IH]; intros svc G Hf H; simpl in *;
    [done|].
  apply andb_true_iff in H as [Hc Hcs]. apply IH; [|done|done].
  destruct c as [r|rid u|rid|t e|t fid aid an ar act cm]; simpl in *;
    try done.
  - rewrite createApprovalFlow_frame; [done|].
    apply negb_true_iff in Hc. by apply String.eqb_neq.
  - destruct (String.eqb_spec fid k) as [->|Hne].
    + by rewrite (processApproval_frozen _ _ _ _ _ _ _ _ f).
    + by rewrite processApproval_frame.
Qed.

(** A flow keeps its shape, whatever calls are made that keep the object
    under its key. *)
Lemma calls_shape svc cs k f :
  JsMap.get (flows svc) k = Some f ->
  forallb (keepsFlow k) cs = true ->
  exists f',
    JsMap.get (flows (calls svc cs)) k = Some f' /\ flowShape f' = flowShape f.
Proof.
  revert svc f. induction cs as [|c cs IH]; intros svc f G H; simpl in *;
    [by exists f|].
  apply andb_true_iff in H as [Hc Hcs].
  assert (exists f1, JsMap.get (flows (call svc c)) k = Some f1 /\
                     flowShape f1 = flowShape f) as (f1 & G1 & E1).
  { destruct c as [r|rid u|rid|t e|t fid aid an ar act cm]; simpl in *;
      try by exists f.
    - exists f. split; [|done]. rewrite createApprovalFlow_frame; [done|].
      apply negb_true_iff in Hc. by apply String.eqb_neq.
    - destruct (String.eqb_spec fid k) as [->|Hne].
      + destruct (processApproval_state_shape svc t k aid an ar act cm)
          as [->|(f0 & f' & G0 & -> & E)]; [by exists f|].
        exists f'. split; [apply get_set_eq|]. congruence.
      + exists f. split; [|done]. by rewrite processApproval_frame. }
  destruct (IH _ _ G1 Hcs) as (f' & G' & E'). exists f'. split; [done|].
  congruence.
Qed.

End FlowFacts.

(* ===================================================================== *)
(** ** Invariants of the flows of a service                                *)
(* ===================================================================== *)

Section FlowInvariants.

Import ApprovalFlowService.

Lemma In_lookup {A : Type} (l : list A) (x : A) :
  In x l <-> exists i : nat, l !! i = Some x.
Proof. rewrite <- list_elem_of_In. apply list_elem_of_lookup. Qed.

Lemma currentStep_index f (i : nat) s s0 :
  currentStep f = Some s0 ->
  ApprovalFlow.steps f !! i = Some s ->
  Z.of_nat i = ApprovalFlow.currentLevel f - 1 -> s = s0.
Proof.
  intros Hc Hi Hn. apply currentStep_lookup in Hc as (n & Hn' & Hc).
  assert (i = n) as -> by lia. congruence.
Qed.

Lemma currentStep_exists f :
  flowInv f -> ApprovalFlow.steps f <> [] -> exists s, currentStep f = Some s.
Proof.
  intros Hinv Hne.
  pose proof (inv_level_pos f Hinv). pose proof (inv_level_max f Hinv).
  pose proof (inv_total f Hinv) as Htot.
  assert (0 < length (ApprovalFlow.steps f))%nat
    by (destruct (ApprovalFlow.steps f); [done|simpl; lia]).
  unfold currentStep.
  replace (ApprovalFlow.currentLevel f - 1)
    with (Z.of_nat (Z.to_nat (ApprovalFlow.currentLevel f - 1))) by lia.
  rewrite stepAt_lookup. apply lookup_lt_is_Some. lia.
Qed.

(** The status of the step at the current level follows that of the
    flow. *)
Lemma currentStep_status f s :
  flowInv f -> currentStep f = Some s ->
  match ApprovalFlow.status f with
  | FlowStatus.PENDING => ApprovalStep.status s = StepStatus.PENDING
  | FlowStatus.APPROVED =>
      ApprovalStep.status s = StepStatus.APPROVED /\
      ApprovalFlow.currentLevel f = ApprovalFlow.totalLevels f
  | FlowStatus.REJECTED => ApprovalStep.status s = StepStatus.REJECTED
  end.
Proof.
  intros Hinv Hc. pose proof (inv_current f Hinv) as H.
  destruct (ApprovalFlow.status f).
  - by apply H.
  - destruct H as (Hl & s' & Hc' & Hs'). split; congruence.
  - destruct H as (s' & Hc' & Hs'). congruence.
Qed.

Lemma flowInv_steps f (i : nat) s :
  flowInv f -> ApprovalFlow.steps f !! i = Some s ->
  (Z.of_nat i < ApprovalFlow.currentLevel f - 1 /\
   ApprovalStep.status s = StepStatus.APPROVED) \/
  (Z.of_nat i = ApprovalFlow.currentLevel f - 1 /\ currentStep f = Some s) \/
  (ApprovalFlow.currentLevel f - 1 < Z.of_nat i /\
   ApprovalStep.status s = StepStatus.PENDING /\ ApprovalStep.approvals s = []).
Proof.
  intros Hinv Hi.
  destruct (Z.lt_trichotomy (Z.of_nat i) (ApprovalFlow.currentLevel f - 1))
    as [H|[H|H]].
  - left. split; [done|]. by eapply (inv_before f Hinv).
  - right. left. split; [done|]. unfold currentStep.
    by rewrite <- H, stepAt_lookup.
  - right. right. split; [done|]. by eapply (inv_after f Hinv).
Qed.

(** C8.  In every flow that a service holds after its construction and any
    sequence of calls, a step at an index below that of the current level
    ([currentLevel - 1], indices from 0) is APPROVED, a step at an index
    above it is PENDING and has no approval, and the step at the current
    level is PENDING, APPROVED or REJECTED. *)
Theorem level_monotonicity svc f (i : nat) s :
  reachable svc ->
  In f (JsMap.values (flows svc)) ->
  ApprovalFlow.steps f !! i = Some s ->
  (Z.of_nat i < ApprovalFlow.currentLevel f - 1 ->
   ApprovalStep.status s = StepStatus.APPROVED) /\
  (ApprovalFlow.currentLevel f - 1 < Z.of_nat i ->
   ApprovalStep.status s = StepStatus.PENDING /\
   ApprovalStep.approvals s = []) /\
  (Z.of_nat i = ApprovalFlow.currentLevel f - 1 ->
   ApprovalStep.status s = StepStatus.PENDING \/
   ApprovalStep.status s = StepStatus.APPROVED \/
   ApprovalStep.status s = StepStatus.REJECTED).
Proof.
  intros Hr Hf Hi. pose proof (reachable_inv svc Hr f Hf) as Hinv.
  split; [|split].
  - intros H. by eapply (inv_before f Hinv).
  - intros H. by eapply (inv_after f Hinv).
  - intros H.
    destruct (flowInv_steps f i s Hinv Hi) as [[? _]|[[_ Hc]|[? _]]];
      [lia| |lia].
    pose proof (currentStep_status f s Hinv Hc) as Hs.
    destruct (ApprovalFlow.status f); [by left| |by right; right].
    right. left. apply Hs.
Qed.

(** C7, amended.  In every flow that a service holds after its construction
    and any sequence of calls: a flow without steps is PENDING; a flow with
    at least one step is APPROVED iff all its steps are APPROVED; a flow is
    REJECTED iff one of its steps is REJECTED; and it is PENDING iff
    neither holds. *)
Theorem flow_status_of_steps svc f :
  reachable svc ->
  In f (JsMap.values (flows svc)) ->
  let allApproved :=
    forall s, In s (ApprovalFlow.steps f) ->
              ApprovalStep.status s = StepStatus.APPROVED in
  let someRejected :=
    exists s, In s (ApprovalFlow.steps f) /\
              ApprovalStep.status s = StepStatus.REJECTED in
  (ApprovalFlow.steps f = [] -> ApprovalFlow.status f = FlowStatus.PENDING) /\
  (ApprovalFlow.steps f <> [] ->
   (ApprovalFlow.status f = FlowStatus.APPROVED <-> allApproved)) /\
  (ApprovalFlow.status f = FlowStatus.REJECTED <-> someRejected) /\
  (ApprovalFlow.status f = FlowStatus.PENDING <->
   ~ (ApprovalFlow.steps f <> [] /\ allApproved) /\ ~ someRejected).
Proof.
  intros Hr Hf allApproved someRejected.
  pose proof (reachable_inv svc Hr f Hf) as Hinv.
  assert (Hempty : ApprovalFlow.steps f = [] ->
                   ApprovalFlow.status f = FlowStatus.PENDING).
  { intros He. pose proof (inv_current f Hinv) as H.
    destruct (ApprovalFlow.status f); [done| |].
    - destruct H as (_ & s & Hc & _).
      apply currentStep_lookup in Hc as (n & _ & Hc). by rewrite He in Hc.
    - destruct H as (s & Hc & _).
      apply currentStep_lookup in Hc as (n & _ & Hc). by rewrite He in Hc. }
  assert (Happ : ApprovalFlow.steps f <> [] ->
                 (ApprovalFlow.status f = FlowStatus.APPROVED <-> allApproved)).
  { intros Hne. destruct (currentStep_exists f Hinv Hne) as [s0 Hc].
    pose proof (currentStep_status f s0 Hinv Hc) as Hs0. split.
    - intros Hst s Hs. rewrite Hst in Hs0. destruct Hs0 as [Hs0 Hl].
      apply In_lookup in Hs as [i Hi].
      pose proof (lookup_lt_Some _ _ _ Hi) as Hlt.
      pose proof (inv_total f Hinv) as Htot.
      destruct (flowInv_steps f i s Hinv Hi) as [[_ ?]|[[_ Hc']|[? _]]];
        [done| |lia].
      congruence.
    - intros Hall.
      assert (ApprovalStep.status s0 = StepStatus.APPROVED) as Ha.
      { apply Hall. apply currentStep_lookup in Hc as (n & _ & Hc).
        apply In_lookup. eauto. }
      destruct (ApprovalFlow.status f); [congruence|done|congruence]. }
  assert (Hrej : ApprovalFlow.status f = FlowStatus.REJECTED <-> someRejected).
  { split.
    - intros Hst. pose proof (inv_current f Hinv) as H. rewrite Hst in H.
      destruct H as (s & Hc & Hs). exists s. split; [|done].
      apply currentStep_lookup in Hc as (n & _ & Hc). apply In_lookup. eauto.
    - intros (s & Hs & Hrej). apply In_lookup in Hs as [i Hi].
      destruct (flowInv_steps f i s Hinv Hi) as [[_ ?]|[[_ Hc]|[_ [? _]]]];
        [congruence| |congruence].
      pose proof (currentStep_status f s Hinv Hc) as Hs.
      destruct (ApprovalFlow.status f); [congruence| |done].
      destruct Hs. congruence. }
  split; [exact Hempty|]. split; [exact Happ|]. split; [exact Hrej|].
  split.
  - intros Hst. split.
    + intros [Hne Hall]. apply Happ in Hall; [congruence|done].
    + intros Hsome. apply Hrej in Hsome. congruence.
  - intros [Hn1 Hn2]. destruct (ApprovalFlow.status f) eqn:Hst; [done| |].
    + exfalso. apply Hn1.
      assert (ApprovalFlow.steps f <> []) as Hne
        by (intros He; apply Hempty in He; congruence).
      split; [done|]. by apply Happ.
    + exfalso. apply Hn2. by apply Hrej.
Qed.

End FlowInvariants.

Section FlowInvariantsScenarios.

Import ApprovalFlowService.

Lemma reachable_scenarios :
  reachable Scenario.created /\ reachable Scenario.advanced /\
  reachable Scenario.approved /\ reachable Scenario.stuck /\
  reachable Scenario.halfApproved.
Proof.
  assert (H : forall rules0 cs,
             reachable (calls (Scenario.flowService rules0) cs))
    by (intros rules0 cs; by exists rules0, cs).
  repeat split; try apply H.
  apply (reachable_calls Scenario.created), H.
Defined.

(** The two-level flow after the manager's approval: its first step, below
    the current level 2, is APPROVED. *)
Lemma level_monotonicity_witness :
  exists f s,
    reachable Scenario.advanced /\
    In f (JsMap.values (flows Scenario.advanced)) /\
    ApprovalFlow.steps f !! 0%nat = Some s /\
    ApprovalFlow.currentLevel f = 2 /\
    (Z.of_nat 0 < ApprovalFlow.currentLevel f - 1 ->
     ApprovalStep.status s = StepStatus.APPROVED) /\
    (ApprovalFlow.currentLevel f - 1 < Z.of_nat 0 ->
     ApprovalStep.status s = StepStatus.PENDING /\
     ApprovalStep.approvals s = []) /\
    (Z.of_nat 0 = ApprovalFlow.currentLevel f - 1 ->
     ApprovalStep.status s = StepStatus.PENDING \/
     ApprovalStep.status s = StepStatus.APPROVED \/
     ApprovalStep.status s = StepStatus.REJECTED).
Proof.
  pose proof reachable_scenarios as (_ & Hr & _).
  eexists _, _. split; [exact Hr|].
  split; [left; reflexivity|]. split; [reflexivity|]. split; [reflexivity|].
  refine (level_monotonicity Scenario.advanced _ 0%nat _ Hr _ _).
  - left; reflexivity.
  - reflexivity.
Defined.

(** The two-level flow after the manager's approval is PENDING: not all
    its steps are APPROVED and none is REJECTED. *)
Lemma flow_status_of_steps_witness :
  exists f,
    reachable Scenario.advanced /\
    In f (JsMap.values (flows Scenario.advanced)) /\
    ApprovalFlow.status f = FlowStatus.PENDING /\
    (ApprovalFlow.steps f = [] -> ApprovalFlow.status f = FlowStatus.PENDING) /\
    (ApprovalFlow.steps f <> [] ->
     (ApprovalFlow.status f = FlowStatus.APPROVED <->
      forall s, In s (ApprovalFlow.steps f) ->
                ApprovalStep.status s = StepStatus.APPROVED)) /\
    (ApprovalFlow.status f = FlowStatus.REJECTED <->
     exists s, In s (ApprovalFlow.steps f) /\
               ApprovalStep.status s = StepStatus.REJECTED) /\
    (ApprovalFlow.status f = FlowStatus.PENDING <->
     ~ (ApprovalFlow.steps f <> [] /\
        forall s, In s (ApprovalFlow.steps f) ->
                  ApprovalStep.status s = StepStatus.APPROVED) /\
     ~ exists s, In s (ApprovalFlow.steps f) /\
                 ApprovalStep.status s = StepStatus.REJECTED).
Proof.
  pose proof reachable_scenarios as (_ & Hr & _).
  eexists. split; [exact Hr|].
  split; [left; reflexivity|]. split; [reflexivity|].
  refine (flow_status_of_steps Scenario.advanced _ Hr _).
  left; reflexivity.
Defined.

(** C7 as stated fails on a flow made from a rule without levels: the flow
    is held by a reachable service, all of its (zero) steps are APPROVED,
    and its status is PENDING, not APPROVED. *)
Lemma flow_status_of_steps_counterexample :
  exists f,
    reachable Scenario.stuck /\
    getFlow Scenario.stuck Scenario.lunchFlow = Some f /\
    In f (JsMap.values (flows Scenario.stuck)) /\
    ~ (ApprovalFlow.status f = FlowStatus.APPROVED <->
       forall s, In s (ApprovalFlow.steps f) ->
                 ApprovalStep.status s = StepStatus.APPROVED).
Proof.
  pose proof reachable_scenarios as (_ & _ & _ & Hr & _).
  eexists. split; [exact Hr|]. split; [reflexivity|].
  split; [left; reflexivity|].
  intros [_ H]. discriminate H. intros s [].
Qed.

End FlowInvariantsScenarios.

(* ===================================================================== *)
(** ** Processing an approval or a rejection                               *)
(* ===================================================================== *)

Section Processing.

Import ApprovalFlowService.

Lemma approvedCount_pushed a s :
  approvedCount (pushed a s)
  = approvedCount s + (if isApproved a then 1 else 0).
Proof.
  unfold approvedCount, pushed. simpl.
  rewrite List.filter_app, length_app. simpl.
  destruct (isApproved a); simpl; lia.
Qed.

(** C4.  In a reachable service, for a PENDING flow, an APPROVED action by
    an approver whose role the current step accepts and who has not acted
    on that step succeeds, and the flow returned is the flow stored.  The
    approval is appended to the current step, which was PENDING.  With
    [count] the number of APPROVED actions then on the step: while
    [count < requiredApprovers] the step and the flow stay PENDING and the
    level stays; otherwise the step is APPROVED with a completion date, and
    either the level is below [totalLevels], it grows by one, the flow
    stays PENDING and the next step gets its start date and is otherwise
    as it was, or the flow is APPROVED with a completion date at the same
    level.  Each date is the reading of the clock at its place. *)
Theorem processApproval_approved svc now fid aid an ar cm flow step :
  reachable svc ->
  getFlow svc fid = Some flow ->
  ApprovalFlow.status flow = FlowStatus.PENDING ->
  currentStep flow = Some step ->
  ApprovalRuleEngine.includes (ApprovalStep.approverRoles step) ar = true ->
  hasActed step aid = false ->
  let level := ApprovalFlow.currentLevel flow in
  exists flow' step',
    processApproval svc now fid aid an ar Action.APPROVED cm
    = (Ok flow', store svc fid flow') /\
    getFlow (store svc fid flow') fid = Some flow' /\
    ApprovalStep.status step = StepStatus.PENDING /\
    ApprovalFlow.stepAt flow' (level - 1) = Some step' /\
    ApprovalStep.approvals step'
    = ApprovalStep.approvals step
      ++ [approvalOf (now 0%nat) aid an ar Action.APPROVED cm] /\
    approvedCount step' = approvedCount step + 1 /\
    if approvedCount step' <? ApprovalStep.requiredApprovers step then
      ApprovalStep.status step' = StepStatus.PENDING /\
      ApprovalFlow.status flow' = FlowStatus.PENDING /\
      ApprovalFlow.currentLevel flow' = level
    else
      ApprovalStep.status step' = StepStatus.APPROVED /\
      ApprovalStep.completedAt step' = Some (now 3%nat) /\
      if level <? ApprovalFlow.totalLevels flow then
        ApprovalFlow.currentLevel flow' = level + 1 /\
        ApprovalFlow.status flow' = FlowStatus.PENDING /\
        exists next next',
          ApprovalFlow.stepAt flow level = Some next /\
          currentStep flow' = Some next' /\
          next' = ApprovalStep.set_startedAt (Some (now 4%nat)) next /\
          ApprovalStep.startedAt next' = Some (now 4%nat) /\
          ApprovalStep.level next' = ApprovalStep.level next /\
          ApprovalStep.approverRoles next' = ApprovalStep.approverRoles next /\
          ApprovalStep.requiredApprovers next'
          = ApprovalStep.requiredApprovers next /\
          ApprovalStep.approvals next' = ApprovalStep.approvals next /\
          ApprovalStep.status next' = ApprovalStep.status next /\
          ApprovalStep.completedAt next' = ApprovalStep.completedAt next
      else
        ApprovalFlow.currentLevel flow' = level /\
        ApprovalFlow.status flow' = FlowStatus.APPROVED /\
        ApprovalFlow.completedAt flow' = Some (now 5%nat).
Proof.
  intros Hr G Hst C Hinc Hact level.
  pose proof (reachable_inv svc Hr flow (get_In_values _ _ _ G)) as Hinv.
  pose proof (currentStep_status flow step Hinv C) as Hpend.
  rewrite Hst in Hpend.
  pose proof (currentStep_lookup flow step C) as (n & Hn & Hstep).
  assert (Z.to_nat (level - 1) = n) as En by (unfold level; lia).
  pose proof (lookup_lt_Some _ _ _ Hstep) as Hlt.
  pose proof (inv_total flow Hinv) as Htot.
  assert (Hidx : forall f', ApprovalFlow.stepAt f' (level - 1)
                            = ApprovalFlow.steps f' !! n).
  { intros f'. replace (level - 1) with (Z.of_nat n) by (unfold level; lia).
    apply stepAt_lookup. }
  unfold getFlow in *. unfold processApproval. rewrite G, Hst.
  unfold currentStep in C. cbn [negb FlowStatus.eqb]. cbv zeta.
  rewrite C, Hinc, Hact. cbn [negb]. fold level.
  set (step1 := ApprovalStep.set_approvals _ step).
  assert (Hcount : approvedCount step1 = approvedCount step + 1)
    by exact (approvedCount_pushed
                (approvalOf (now 0%nat) aid an ar Action.APPROVED cm) step).
  unfold ApprovalFlow.set_stepAt. rewrite En.
  destruct (ApprovalStep.requiredApprovers step1 <=? approvedCount step1)
    eqn:Enough;
    change (ApprovalStep.requiredApprovers step1)
      with (ApprovalStep.requiredApprovers step) in Enough.
  - assert (Hge : (approvedCount step1
                   <? ApprovalStep.requiredApprovers step) = false)
      by (apply Z.ltb_ge; by apply Z.leb_le).
    flow_fields. fold level.
    destruct (level <? ApprovalFlow.totalLevels flow) eqn:L.
    + apply Z.ltb_lt in L.
      destruct (ApprovalFlow.steps flow !! S n) as [next|] eqn:Hnext;
        [|apply lookup_ge_None in Hnext; unfold level in *; lia].
      assert (Hat : forall f', ApprovalFlow.stepAt f' (level + 1 - 1)
                               = ApprovalFlow.steps f' !! S n).
      { intros f'. replace (level + 1 - 1) with (Z.of_nat (S n))
          by (unfold level; lia). apply stepAt_lookup. }
      rewrite Hat. flow_fields. rewrite list_lookup_insert_ne by lia.
      rewrite Hnext.
      replace (Z.to_nat (level + 1 - 1)) with (S n) by (unfold level; lia).
      eexists _, _. split; [reflexivity|].
      split; [apply get_set_eq|]. split; [done|].
      split.
      { rewrite Hidx. flow_fields. rewrite list_lookup_insert_ne by lia.
        by apply list_lookup_insert_eq. }
      split; [reflexivity|]. split; [exact Hcount|].
      match goal with
      | |- if ?c then _ else _ =>
          replace c with false by (symmetry; exact Hge)
      end.
      split; [reflexivity|]. split; [reflexivity|].
      split; [reflexivity|]. split; [exact Hst|].
      exists next, (ApprovalStep.set_startedAt (Some (now 4%nat)) next).
      split; [|split; [|by repeat split]].
      * replace level with (Z.of_nat (S n)) by (unfold level; lia).
        by rewrite stepAt_lookup.
      * unfold currentStep. flow_fields. fold level.
        rewrite Hat. flow_fields.
        apply list_lookup_insert_eq. rewrite length_insert.
        by eapply lookup_lt_Some.
    + eexists _, _. split; [reflexivity|].
      split; [apply get_set_eq|]. split; [done|].
      split.
      { rewrite Hidx. flow_fields. by apply list_lookup_insert_eq. }
      split; [reflexivity|]. split; [exact Hcount|].
      match goal with
      | |- if ?c then _ else _ =>
          replace c with false by (symmetry; exact Hge)
      end.
      repeat split.
  - assert (Hless : (approvedCount step1
                     <? ApprovalStep.requiredApprovers step) = true)
      by (apply Z.ltb_lt; by apply Z.leb_gt).
    eexists _, _. split; [reflexivity|].
    split; [apply get_set_eq|]. split; [done|].
    split.
    { rewrite Hidx. flow_fields. by apply list_lookup_insert_eq. }
    split; [reflexivity|]. split; [exact Hcount|].
    rewrite Hless. repeat split; [exact Hpend|exact Hst].
Qed.

(** The manager's approval of the two-level flow just created: the
    hypotheses of C4 hold and the call succeeds. *)
Lemma processApproval_approved_witness :
  exists flow step,
    reachable Scenario.created /\
    getFlow Scenario.created Scenario.monitorFlow = Some flow /\
    ApprovalFlow.status flow = FlowStatus.PENDING /\
    currentStep flow = Some step /\
    ApprovalRuleEngine.includes (ApprovalStep.approverRoles step) "MANAGER"
    = true /\
    hasActed step "mgr-1" = false /\
    exists flow' step',
      processApproval Scenario.created (Clock.ticking 1001)
        Scenario.monitorFlow
        "mgr-1" "Manager One" "MANAGER" Action.APPROVED None
      = (Ok flow', store Scenario.created Scenario.monitorFlow flow') /\
      ApprovalFlow.stepAt flow' (ApprovalFlow.currentLevel flow - 1)
      = Some step' /\
      approvedCount step' = approvedCount step + 1.
Proof.
  pose proof reachable_scenarios as (Hr & _).
  eexists _, _. split; [exact Hr|].
  split; [reflexivity|]. split; [reflexivity|]. split; [reflexivity|].
  split; [reflexivity|]. split; [reflexivity|].
  destruct (processApproval_approved Scenario.created (Clock.ticking 1001)
              Scenario.monitorFlow "mgr-1" "Manager One" "MANAGER" None
              _ _ Hr eq_refl eq_refl eq_refl eq_refl eq_refl)
    as (flow' & step' & H1 & _ & _ & H4 & _ & H6 & _).
  exists flow', step'. split; [exact H1|]. split; [exact H4|exact H6].
Defined.

(** C5.  For a PENDING flow, a REJECTED action by an approver whose role
    the current step accepts and who has not acted on that step succeeds,
    and the flow returned is the flow stored: the rejection is appended to
    the current step, the step and the flow are REJECTED, each with the
    completion date read for it, and the level stays.  Afterwards, whatever
    calls are made (approvals and rejections on any flow, rule edits,
    creations of flows under other keys), the flow stays in the map as it
    is, and every call of [processApproval] on it throws the error of a
    resolved flow and leaves the service as it was. *)
Theorem processApproval_rejected svc now fid aid an ar cm flow step :
  getFlow svc fid = Some flow ->
  ApprovalFlow.status flow = FlowStatus.PENDING ->
  currentStep flow = Some step ->
  ApprovalRuleEngine.includes (ApprovalStep.approverRoles step) ar = true ->
  hasActed step aid = false ->
  exists flow' step',
    processApproval svc now fid aid an ar Action.REJECTED cm
    = (Ok flow', store svc fid flow') /\
    getFlow (store svc fid flow') fid = Some flow' /\
    currentStep flow' = Some step' /\
    ApprovalStep.approvals step'
    = ApprovalStep.approvals step
      ++ [approvalOf (now 0%nat) aid an ar Action.REJECTED cm] /\
    ApprovalStep.status step' = StepStatus.REJECTED /\
    ApprovalStep.completedAt step' = Some (now 1%nat) /\
    ApprovalFlow.status flow' = FlowStatus.REJECTED /\
    ApprovalFlow.completedAt flow' = Some (now 2%nat) /\
    ApprovalFlow.currentLevel flow' = ApprovalFlow.currentLevel flow /\
    forall cs,
      forallb (keepsFlow fid) cs = true ->
      let svc' := calls (store svc fid flow') cs in
      getFlow svc' fid = Some flow' /\
      forall now' aid' an' ar' act' cm',
        processApproval svc' now' fid aid' an' ar' act' cm'
        = (Throw (FlowAlreadyResolved fid FlowStatus.REJECTED), svc').
Proof.
  intros G Hst C Hinc Hact.
  pose proof (currentStep_lookup flow step C) as (n & Hn & Hstep).
  assert (Z.to_nat (ApprovalFlow.currentLevel flow - 1) = n) as En by lia.
  pose proof (lookup_lt_Some _ _ _ Hstep) as Hlt.
  unfold getFlow in *. unfold processApproval. rewrite G, Hst.
  unfold currentStep in C. cbn [negb FlowStatus.eqb]. cbv zeta.
  rewrite C, Hinc, Hact. cbn [negb].
  unfold ApprovalFlow.set_stepAt. rewrite En.
  eexists _, _. split; [reflexivity|].
  split; [apply get_set_eq|].
  split.
  { unfold currentStep. flow_fields. rewrite <- Hn, stepAt_lookup.
    flow_fields. by apply list_lookup_insert_eq. }
  do 6 (split; [reflexivity|]).
  intros cs Hcs. set (svc' := calls _ cs).
  match goal with
  | |- JsMap.get _ _ = Some ?f /\ _ =>
      assert (Hget : JsMap.get (flows svc') fid = Some f)
  end.
  { apply calls_frozen; [apply get_set_eq| |done]. by left. }
  split; [exact Hget|].
  intros now' aid' an' ar' act' cm'.
  refine (processApproval_frozen svc' now' fid aid' an' ar' act' cm' _ Hget _).
  by left.
Qed.

(** The manager's rejection of the two-level flow just created: the
    hypotheses of C5 hold, the flow is REJECTED, and the director's later
    approval is refused. *)
Lemma processApproval_rejected_witness :
  exists flow step,
    getFlow Scenario.created Scenario.monitorFlow = Some flow /\
    ApprovalFlow.status flow = FlowStatus.PENDING /\
    currentStep flow = Some step /\
    ApprovalRuleEngine.includes (ApprovalStep.approverRoles step) "MANAGER"
    = true /\
    hasActed step "mgr-1" = false /\
    exists flow',
      processApproval Scenario.created (Clock.ticking 1001) Scenario.monitorFlow
        "mgr-1" "Manager One" "MANAGER" Action.REJECTED (Some "Not in budget")
      = (Ok flow', store Scenario.created Scenario.monitorFlow flow') /\
      ApprovalFlow.status flow' = FlowStatus.REJECTED /\
      processApproval (store Scenario.created Scenario.monitorFlow flow') (Clock.ticking 1002)
        Scenario.monitorFlow "dir-1" "Director One" "DIRECTOR"
        Action.APPROVED None
      = (Throw (FlowAlreadyResolved Scenario.monitorFlow FlowStatus.REJECTED),
         store Scenario.created Scenario.monitorFlow flow').
Proof.
  eexists _, _.
  split; [reflexivity|]. split; [reflexivity|]. split; [reflexivity|].
  split; [reflexivity|]. split; [reflexivity|].
  destruct (processApproval_rejected Scenario.created (Clock.ticking 1001)
              Scenario.monitorFlow "mgr-1" "Manager One" "MANAGER"
              (Some "Not in budget")
              _ _ eq_refl eq_refl eq_refl eq_refl eq_refl)
    as (flow' & step' & H1 & _ & _ & _ & _ & _ & H7 & _ & _ & H10).
  exists flow'. split; [exact H1|]. split; [exact H7|].
  apply (H10 [] eq_refl).
Defined.

(** C6, amended.  In a reachable service, once an approver has recorded an
    action on the current step of a flow, every call of [processApproval]
    on that flow with the same approver id throws and leaves the service as
    it was.  The error is that of the first guard that fails: the flow is
    resolved, else the role given is not accepted by the step, else the
    approver has already acted.  No step of the flow holds two actions of
    one approver. *)
Theorem processApproval_same_approver svc now fid aid an ar act cm flow step :
  reachable svc ->
  getFlow svc fid = Some flow ->
  currentStep flow = Some step ->
  hasActed step aid = true ->
  processApproval svc now fid aid an ar act cm
  = (Throw
       (if negb (FlowStatus.eqb (ApprovalFlow.status flow) FlowStatus.PENDING)
        then FlowAlreadyResolved fid (ApprovalFlow.status flow)
        else if negb (ApprovalRuleEngine.includes
                        (ApprovalStep.approverRoles step) ar)
        then UnauthorizedRole ar (ApprovalFlow.currentLevel flow)
        else DuplicateApproval aid),
     svc) /\
  (ApprovalFlow.status flow = FlowStatus.PENDING ->
   ApprovalRuleEngine.includes (ApprovalStep.approverRoles step) ar = true ->
   processApproval svc now fid aid an ar act cm
   = (Throw (DuplicateApproval aid), svc)) /\
  forall s, In s (ApprovalFlow.steps flow) -> NoDup (approverIds s).
Proof.
  intros Hr G C Hact.
  pose proof (reachable_inv svc Hr flow (get_In_values _ _ _ G)) as Hinv.
  assert (Hcall :
    processApproval svc now fid aid an ar act cm
    = (Throw
         (if negb (FlowStatus.eqb (ApprovalFlow.status flow) FlowStatus.PENDING)
          then FlowAlreadyResolved fid (ApprovalFlow.status flow)
          else if negb (ApprovalRuleEngine.includes
                          (ApprovalStep.approverRoles step) ar)
          then UnauthorizedRole ar (ApprovalFlow.currentLevel flow)
          else DuplicateApproval aid),
       svc)).
  { unfold getFlow in G. unfold processApproval. rewrite G.
    destruct (negb (FlowStatus.eqb (ApprovalFlow.status flow)
                      FlowStatus.PENDING)); [done|].
    unfold currentStep in C. cbv zeta. rewrite C.
    destruct (negb (ApprovalRuleEngine.includes
                      (ApprovalStep.approverRoles step) ar)); [done|].
    by rewrite Hact. }
  split; [exact Hcall|]. split.
  - intros Hst Hinc. rewrite Hcall, Hst, Hinc. done.
  - intros s Hs. apply In_lookup in Hs as [i Hi].
    by eapply (inv_nodup flow Hinv).
Qed.

(** A level that needs two managers, after the first has approved: the
    hypotheses of C6 hold for that manager, whose second approval is
    refused as a duplicate. *)
Lemma processApproval_same_approver_witness :
  exists flow step,
    reachable Scenario.halfApproved /\
    getFlow Scenario.halfApproved Scenario.lunchFlow = Some flow /\
    currentStep flow = Some step /\
    hasActed step "mgr-1" = true /\
    processApproval Scenario.halfApproved (Clock.ticking 1002) Scenario.lunchFlow
      "mgr-1" "Manager One" "MANAGER" Action.APPROVED None
    = (Throw (DuplicateApproval "mgr-1"), Scenario.halfApproved) /\
    forall s, In s (ApprovalFlow.steps flow) -> NoDup (approverIds s).
Proof.
  pose proof reachable_scenarios as (_ & _ & _ & _ & Hr).
  eexists _, _. split; [exact Hr|].
  split; [reflexivity|]. split; [reflexivity|]. split; [reflexivity|].
  destruct (processApproval_same_approver Scenario.halfApproved (Clock.ticking 1002)
              Scenario.lunchFlow "mgr-1" "Manager One" "MANAGER"
              Action.APPROVED None _ _ Hr eq_refl eq_refl eq_refl)
    as (_ & H2 & H3).
  split; [exact (H2 eq_refl eq_refl)|exact H3].
Defined.

(** C6 as stated fails once the flow is resolved.  In the scenario of the
    duplicate-approval test of the flow service's suite, the manager's
    approval completes the single-level flow; the step he acted on is
    still the current one; his second call is refused because the flow is
    resolved, not as a duplicate. *)
Lemma processApproval_same_approver_counterexample :
  exists flow step,
    getFlow Scenario.approved Scenario.lunchFlow = Some flow /\
    currentStep flow = Some step /\
    hasActed step "mgr-1" = true /\
    fst (processApproval Scenario.approved (Clock.ticking 1002) Scenario.lunchFlow
           "mgr-1" "Manager One" "MANAGER" Action.APPROVED None)
    = Throw (FlowAlreadyResolved Scenario.lunchFlow FlowStatus.APPROVED) /\
    fst (processApproval Scenario.approved (Clock.ticking 1002) Scenario.lunchFlow
           "mgr-1" "Manager One" "MANAGER" Action.APPROVED None)
    <> Throw (DuplicateApproval "mgr-1").
Proof.
  eexists _, _.
  split; [reflexivity|]. split; [reflexivity|]. split; [reflexivity|].
  split; [reflexivity|]. discriminate.
Qed.

(** C10.  When the rule that [findMatchingRule] returns for an expense has
    no approval level, [createApprovalFlow] succeeds and stores the flow it
    returns, with [totalLevels] 0, no steps, [currentLevel] 1 and status
    PENDING.  Afterwards, whatever calls are made (approvals and rejections
    on any flow, rule edits, creations of flows under other keys), the flow
    stays in the map as it is, so it never becomes APPROVED or REJECTED,
    and every call of [processApproval] on it throws the invalid-level
    error and leaves the service as it was. *)
Theorem createApprovalFlow_no_levels svc now e rule :
  ApprovalRuleEngine.findMatchingRule (ruleEngine svc) e = Some rule ->
  ApprovalRule.approvalLevels rule = [] ->
  exists flow svc',
    createApprovalFlow svc now e = (Ok flow, svc') /\
    getFlow svc' (ApprovalFlow.id flow) = Some flow /\
    ApprovalFlow.totalLevels flow = 0 /\
    ApprovalFlow.steps flow = [] /\
    ApprovalFlow.currentLevel flow = 1 /\
    ApprovalFlow.status flow = FlowStatus.PENDING /\
    forall cs,
      forallb (keepsFlow (ApprovalFlow.id flow)) cs = true ->
      getFlow (calls svc' cs) (ApprovalFlow.id flow) = Some flow /\
      forall now' aid an ar act cm,
        processApproval (calls svc' cs) now' (ApprovalFlow.id flow)
                        aid an ar act cm
        = (Throw (InvalidLevel 1), calls svc' cs).
Proof.
  intros Hrule Hlevels. unfold createApprovalFlow. rewrite Hrule, Hlevels.
  cbn [length imap Z.of_nat ApprovalFlow.id].
  eexists _, _. split; [reflexivity|].
  split; [apply get_set_eq|]. do 4 (split; [reflexivity|]).
  intros cs Hcs.
  match goal with
  | |- getFlow ?s ?k = Some ?f /\ _ =>
      assert (Hfrozen : frozen f) by (by right);
      assert (Hget : JsMap.get (flows s) k = Some f)
  end.
  { apply calls_frozen; [apply get_set_eq|exact Hfrozen|exact Hcs]. }
  split; [exact Hget|].
  intros now' aid an ar act cm.
  exact (processApproval_frozen _ now' _ aid an ar act cm _ Hget Hfrozen).
Qed.

(** The rule without levels of the rule engine's suite: the flow made from
    it refuses the manager's approval. *)
Lemma createApprovalFlow_no_levels_witness :
  ApprovalRuleEngine.findMatchingRule
    (ruleEngine (Scenario.flowService [Scenario.noLevels])) Scenario.lunch
  = Some Scenario.noLevels /\
  ApprovalRule.approvalLevels Scenario.noLevels = [] /\
  exists flow,
    getFlow Scenario.stuck Scenario.lunchFlow = Some flow /\
    ApprovalFlow.status flow = FlowStatus.PENDING /\
    processApproval Scenario.stuck (Clock.ticking 1001) Scenario.lunchFlow
      "mgr-1" "Manager One" "MANAGER" Action.APPROVED None
    = (Throw (InvalidLevel 1), Scenario.stuck).
Proof.
  split; [reflexivity|]. split; [reflexivity|].
  destruct (createApprovalFlow_no_levels
              (Scenario.flowService [Scenario.noLevels]) (Clock.ticking 1000) Scenario.lunch
              Scenario.noLevels eq_refl eq_refl)
    as (flow & svc' & H1 & H2 & _ & _ & _ & H6 & H7).
  injection H1 as <- <-.
  eexists. split; [exact H2|]. split; [exact H6|].
  apply (H7 [] eq_refl).
Defined.

End Processing.

(* ===================================================================== *)
(** ** Rules and flows over shared arrays of roles                         *)
(* ===================================================================== *)

Section SharedRoles.

Lemma lookup_map {A B : Type} (f : A -> B) (l : list A) (i : nat) :
  map f l !! i = option_map f (l !! i).
Proof. revert i. induction l as [|x l IH]; intros [|i]; simpl; auto. Qed.

Lemma insert_map {A B : Type} (f : A -> B) (l : list A) (i : nat) x :
  <[i := f x]> (map f l) = map f (<[i := x]> l).
Proof.
  revert i. induction l as [|y l IH]; intros [|i]; simpl; try done.
  f_equal. apply IH.
Qed.

Lemma alter_map {A B : Type} (f : A -> B) (g : B -> B) (g' : A -> A)
    (l : list A) (i : nat) :
  (forall x, g (f x) = f (g' x)) ->
  alter g i (map f l) = map f (alter g' i l).
Proof.
  intros H. revert i. induction l as [|y l IH]; intros [|i]; simpl;
    try done.
  - by rewrite H.
  - f_equal. apply IH.
Qed.

Lemma get_viewFlows h m k :
  JsMap.get (viewFlows h m) k = option_map (viewFlow h) (JsMap.get m k).
Proof.
  induction m as [|[k0 f0] m IH]; simpl; [done|].
  by destruct (String.eqb k0 k).
Qed.

Lemma set_viewFlows h m k f :
  JsMap.set (viewFlows h m) k (viewFlow h f) = viewFlows h (JsMap.set m k f).
Proof.
  induction m as [|[k0 f0] m IH]; simpl; [done|].
  destruct (String.eqb k0 k); simpl; [done|]. f_equal. apply IH.
Qed.

Lemma insertRule_view h r l :
  ApprovalRuleEngine.insertRule (viewRule h r) (map (viewRule h) l)
  = map (viewRule h) (Shared.insertRule r l).
Proof.
  induction l as [|x l IH]; simpl; [done|].
  destruct (_ <? _); simpl; [|done]. f_equal. apply IH.
Qed.

Lemma sortRules_view h l :
  ApprovalRuleEngine.sortRules (map (viewRule h) l)
  = map (viewRule h) (Shared.sortRules l).
Proof.
  induction l as [|x l IH]; simpl; [done|]. rewrite IH.
  apply insertRule_view.
Qed.

Lemma findMatchingRule_view w e :
  ApprovalRuleEngine.findMatchingRule (ApprovalFlowService.ruleEngine (view w)) e
  = option_map (viewRule (Shared.arrays w)) (Shared.findMatchingRule w e).
Proof.
  unfold ApprovalRuleEngine.findMatchingRule, Shared.findMatchingRule.
  cbv zeta. simpl. induction (Shared.rules w) as [|r l IH]; simpl; [done|].
  destruct (Shared.ApprovalRule.active r); simpl; [|exact IH].
  change (ApprovalRuleEngine.evaluateRule (viewRule (Shared.arrays w) r) e)
    with (Shared.evaluateRule r e).
  by destruct (Shared.evaluateRule r e).
Qed.

Lemma findIndex_view h l ruleId :
  ApprovalRuleEngine.findIndex (map (viewRule h) l) ruleId
  = Shared.findIndex l ruleId.
Proof.
  induction l as [|r l IH]; simpl; [done|].
  destruct (String.eqb _ _); [done|]. by rewrite IH.
Qed.

Lemma spread_view h r u :
  ApprovalRule.spread (viewRule h r) (viewPartial h u)
  = viewRule h (Shared.ApprovalRule.spread r u).
Proof.
  destruct u as [a b c d [ls|] p q]; reflexivity.
Qed.

Lemma stepAt_view h f i :
  ApprovalFlow.stepAt (viewFlow h f) i
  = option_map (viewStep h) (Shared.ApprovalFlow.stepAt f i).
Proof.
  unfold ApprovalFlow.stepAt, Shared.ApprovalFlow.stepAt. simpl.
  destruct (i <? 0); [done|]. apply lookup_map.
Qed.

Lemma set_stepAt_view h f i s :
  ApprovalFlow.set_stepAt i (viewStep h s) (viewFlow h f)
  = viewFlow h (Shared.ApprovalFlow.set_stepAt i s f).
Proof.
  unfold ApprovalFlow.set_stepAt, Shared.ApprovalFlow.set_stepAt,
    ApprovalFlow.set_steps, Shared.ApprovalFlow.set_steps, viewFlow. simpl.
  by rewrite insert_map.
Qed.

Lemma store_view w k f :
  ApprovalFlowService.store (view w) k (viewFlow (Shared.arrays w) f)
  = view (Shared.store w k f).
Proof.
  unfold ApprovalFlowService.store, Shared.store, view. simpl.
  by rewrite set_viewFlows.
Qed.

(** The methods seen through the store: each does to the values what the
    method of the embedding by values does, and none writes the store. *)
Lemma addRule_view w r :
  view (Shared.addRule w r)
  = call (view w) (AddRule (viewRule (Shared.arrays w) r)) /\
  Shared.arrays (Shared.addRule w r) = Shared.arrays w.
Proof.
  split; [|done]. unfold view, Shared.addRule. simpl.
  unfold ApprovalFlowService.set_ruleEngine, ApprovalRuleEngine.addRule.
  simpl. by rewrite <- sortRules_view, map_app.
Qed.

Lemma updateRule_view w ruleId u :
  ApprovalRuleEngine.updateRule (ApprovalFlowService.ruleEngine (view w))
    ruleId (viewPartial (Shared.arrays w) u)
  = (fst (Shared.updateRule w ruleId u),
     ApprovalFlowService.ruleEngine (view (snd (Shared.updateRule w ruleId u))))
  /\ Shared.arrays (snd (Shared.updateRule w ruleId u)) = Shared.arrays w
  /\ Shared.flows (snd (Shared.updateRule w ruleId u)) = Shared.flows w.
Proof.
  unfold ApprovalRuleEngine.updateRule, Shared.updateRule. simpl.
  rewrite findIndex_view.
  destruct (Shared.findIndex (Shared.rules w) ruleId) as [i|]; simpl;
    [|done].
  split; [|done]. do 2 f_equal. rewrite <- sortRules_view. f_equal.
  apply alter_map. intros x. apply spread_view.
Qed.

Lemma createApprovalFlow_view w now e :
  ApprovalFlowService.createApprovalFlow (view w) now e
  = (viewResult (Shared.arrays w) (fst (Shared.createApprovalFlow w now e)),
     view (snd (Shared.createApprovalFlow w now e)))
  /\ Shared.arrays (snd (Shared.createApprovalFlow w now e)) = Shared.arrays w
  /\ Shared.rules (snd (Shared.createApprovalFlow w now e)) = Shared.rules w.
Proof.
  unfold ApprovalFlowService.createApprovalFlow, Shared.createApprovalFlow.
  rewrite findMatchingRule_view.
  destruct (Shared.findMatchingRule w e) as [rule|]; simpl; [|done].
  split; [|done].
  set (flow := Shared.ApprovalFlow.mk _ _ _ _ _ _ _ _ _).
  assert (E : forall (ls : list Shared.ApprovalLevel.t) (g : nat -> nat),
             imap (fun i => ApprovalFlowService.newStep (now 1%nat) (g i))
                  (map (viewLevel (Shared.arrays w)) ls)
             = map (viewStep (Shared.arrays w))
                   (imap (fun i => Shared.newStep (now 1%nat) (g i)) ls)).
  { induction ls as [|l ls IH]; intros g; simpl; [done|]. f_equal.
    apply (IH (fun i => g (S i))). }
  specialize (E (Shared.ApprovalRule.approvalLevels rule) (fun i => i)).
  f_equal.
  - f_equal. unfold viewFlow, flow. simpl. rewrite length_map.
    f_equal. exact E.
  - unfold view. simpl. unfold ApprovalFlowService.set_flows. simpl.
    f_equal. rewrite <- set_viewFlows. f_equal.
    unfold viewFlow, flow. simpl. rewrite length_map. f_equal. exact E.
Qed.

Lemma processApproval_view w now fid aid an ar act cm :
  ApprovalFlowService.processApproval (view w) now fid aid an ar act cm
  = (viewResult (Shared.arrays w)
       (fst (Shared.processApproval w now fid aid an ar act cm)),
     view (snd (Shared.processApproval w now fid aid an ar act cm)))
  /\ Shared.arrays (snd (Shared.processApproval w now fid aid an ar act cm))
     = Shared.arrays w
  /\ Shared.rules (snd (Shared.processApproval w now fid aid an ar act cm))
     = Shared.rules w.
Proof.
  unfold ApprovalFlowService.processApproval, Shared.processApproval.
  change (ApprovalFlowService.flows (view w))
    with (viewFlows (Shared.arrays w) (Shared.flows w)).
  rewrite get_viewFlows.
  destruct (JsMap.get (Shared.flows w) fid) as [flow|]; simpl; [|done].
  destruct (negb (FlowStatus.eqb (Shared.ApprovalFlow.status flow)
                                 FlowStatus.PENDING)); [done|].
  rewrite stepAt_view.
  destruct (Shared.ApprovalFlow.stepAt flow
              (Shared.ApprovalFlow.currentLevel flow - 1)) as [step|];
    simpl; [|done].
  destruct (negb (ApprovalRuleEngine.includes _ ar)); [done|].
  change (ApprovalFlowService.hasActed (viewStep (Shared.arrays w) step) aid)
    with (Shared.hasActed step aid).
  destruct (Shared.hasActed step aid); [done|].
  set (a := StepApproval.mk aid an ar act (now 0%nat) cm).
  set (step1 := Shared.ApprovalStep.set_approvals _ step).
  change (ApprovalStep.set_approvals _ (viewStep (Shared.arrays w) step))
    with (viewStep (Shared.arrays w) step1).
  destruct act.
  - change (ApprovalStep.requiredApprovers (viewStep (Shared.arrays w) step1))
      with (Shared.ApprovalStep.requiredApprovers step1).
    change (ApprovalFlowService.approvedCount
              (viewStep (Shared.arrays w) step1))
      with (Shared.approvedCount step1).
    destruct (_ <=? _).
    + set (step2 := Shared.ApprovalStep.set_completedAt _ _).
      change (ApprovalStep.set_completedAt _ _)
        with (viewStep (Shared.arrays w) step2).
      rewrite set_stepAt_view.
      set (flow1 := Shared.ApprovalFlow.set_stepAt _ step2 flow).
      change (ApprovalFlow.currentLevel (viewFlow (Shared.arrays w) flow1))
        with (Shared.ApprovalFlow.currentLevel flow1).
      change (ApprovalFlow.totalLevels (viewFlow (Shared.arrays w) flow1))
        with (Shared.ApprovalFlow.totalLevels flow1).
      destruct (_ <? _).
      * set (flow2 := Shared.ApprovalFlow.set_currentLevel _ flow1).
        change (ApprovalFlow.set_currentLevel _ _)
          with (viewFlow (Shared.arrays w) flow2).
        change (ApprovalFlow.currentLevel (viewFlow (Shared.arrays w) flow2))
          with (Shared.ApprovalFlow.currentLevel flow2).
        rewrite stepAt_view.
        destruct (Shared.ApprovalFlow.stepAt flow2 _) as [next|]; simpl.
        -- change (ApprovalStep.set_startedAt _ _)
             with (viewStep (Shared.arrays w)
                     (Shared.ApprovalStep.set_startedAt (Some (now 4%nat))
                        next)).
           by rewrite set_stepAt_view, store_view.
        -- by rewrite store_view.
      * change (ApprovalFlow.set_completedAt _ _)
          with (viewFlow (Shared.arrays w)
                  (Shared.ApprovalFlow.set_completedAt (Some (now 5%nat))
                     (Shared.ApprovalFlow.set_status FlowStatus.APPROVED
                        flow1))).
        by rewrite store_view.
    + by rewrite set_stepAt_view, store_view.
  - set (step2 := Shared.ApprovalStep.set_completedAt _ _).
    change (ApprovalStep.set_completedAt _ _)
      with (viewStep (Shared.arrays w) step2).
    rewrite set_stepAt_view.
    change (ApprovalFlow.set_completedAt _ _)
      with (viewFlow (Shared.arrays w)
              (Shared.ApprovalFlow.set_completedAt (Some (now 2%nat))
                 (Shared.ApprovalFlow.set_status FlowStatus.REJECTED
                    (Shared.ApprovalFlow.set_stepAt
                       (Shared.ApprovalFlow.currentLevel flow - 1) step2
                       flow)))).
    by rewrite store_view.
Qed.

(** A call on the services over the store is the call on the services over
    the values behind the references, and leaves the store as it was. *)
Lemma call_view w c :
  view (Shared.call w c) = call (view w) (viewCall (Shared.arrays w) c) /\
  Shared.arrays (Shared.call w c) = Shared.arrays w.
Proof.
  destruct c as [r|rid u|rid|now e|now fid aid an ar act cm];
    cbn [Shared.call viewCall call].
  - apply addRule_view.
  - destruct (updateRule_view w rid u) as (E & Ha & Hf). split; [|done].
    rewrite E. unfold view, ApprovalFlowService.set_ruleEngine. simpl.
    by rewrite Ha, Hf.
  - destruct (updateRule_view w rid Shared.deactivation) as (E & Ha & Hf).
    split; [|done]. unfold ApprovalRuleEngine.deactivateRule.
    change ApprovalRuleEngine.deactivation
      with (viewPartial (Shared.arrays w) Shared.deactivation).
    rewrite E. unfold view, ApprovalFlowService.set_ruleEngine. simpl.
    unfold Shared.deactivateRule. by rewrite Ha, Hf.
  - destruct (createApprovalFlow_view w now e) as (E & Ha & _).
    split; [|done]. by rewrite E.
  - destruct (processApproval_view w now fid aid an ar act cm)
      as (E & Ha & _).
    split; [|done]. by rewrite E.
Qed.

Lemma calls_view w cs :
  view (Shared.calls w cs)
  = calls (view w) (map (viewCall (Shared.arrays w)) cs) /\
  Shared.arrays (Shared.calls w cs) = Shared.arrays w.
Proof.
  revert w. induction cs as [|c cs IH]; intros w; simpl; [done|].
  destruct (call_view w c) as [E Ha]. destruct (IH (Shared.call w c)) as [E' Ha'].
  rewrite E', Ha', E, Ha. done.
Qed.

(** The calls on the rule engine leave the map of flows as it was. *)
Lemma shared_rule_calls_flows w cs :
  forallb Shared.isRuleCall cs = true ->
  Shared.flows (Shared.calls w cs) = Shared.flows w.
Proof.
  revert w. induction cs as [|c cs IH]; intros w H; simpl in *; [done|].
  apply andb_true_iff in H as [Hc Hcs]. rewrite IH by done.
  destruct c as [r|rid u|rid| |]; simpl in *; try done.
  - by destruct (updateRule_view w rid u) as (_ & _ & Hf).
  - by destruct (updateRule_view w rid Shared.deactivation) as (_ & _ & Hf).
Qed.

(** [processApproval] reads the map of flows and the arrays of roles, and
    nothing of the rules. *)
Lemma shared_processApproval_reads w1 w2 now fid aid an ar act cm :
  Shared.arrays w1 = Shared.arrays w2 ->
  Shared.flows w1 = Shared.flows w2 ->
  fst (Shared.processApproval w1 now fid aid an ar act cm)
  = fst (Shared.processApproval w2 now fid aid an ar act cm).
Proof.
  intros Ha Hf. unfold Shared.processApproval. rewrite Ha, Hf.
  repeat (match goal with
          | |- context [match ?x with _ => _ end] => destruct x
          end; simpl; try reflexivity).
Qed.

Lemma keepsFlow_view h k cs :
  forallb (keepsFlow k) (map (viewCall h) cs)
  = forallb (Shared.keepsFlow k) cs.
Proof.
  induction cs as [|c cs IH]; simpl; [done|]. rewrite IH. by destruct c.
Qed.

Lemma newStep_refs now (levels : list Shared.ApprovalLevel.t) :
  map Shared.ApprovalStep.approverRoles (imap (Shared.newStep now) levels)
  = map Shared.ApprovalLevel.approverRoles levels.
Proof.
  assert (E : forall (g : nat -> nat),
             map Shared.ApprovalStep.approverRoles
               (imap (fun i => Shared.newStep now (g i)) levels)
             = map Shared.ApprovalLevel.approverRoles levels).
  { induction levels as [|l ls IH]; intros g; simpl; [done|]. f_equal.
    apply (IH (fun i => g (S i))). }
  exact (E (fun i => i)).
Qed.

Lemma newStep_view_shape h now (levels : list Shared.ApprovalLevel.t) :
  map stepShape (map (viewStep h) (imap (Shared.newStep now) levels))
  = map levelShape (map (viewLevel h) levels).
Proof.
  assert (E : forall (g : nat -> nat),
             map stepShape
               (map (viewStep h)
                  (imap (fun i => Shared.newStep now (g i)) levels))
             = map levelShape (map (viewLevel h) levels)).
  { induction levels as [|l ls IH]; intros g; simpl; [done|]. f_equal.
    apply (IH (fun i => g (S i))). }
  exact (E (fun i => i)).
Qed.

(** C9.  The embedding is the one over shared arrays of roles, where a
    step holds the very array of the level of its rule.  When
    [createApprovalFlow] finds a rule for an expense, it stores the flow
    it returns; the flow carries the id of the rule, as many levels as the
    rule has, and in each step the level number, the required count and
    the reference to the array of roles of the level of the rule at that
    position.  Whatever is then done to the rules of the engine
    ([addRule], [updateRule] and [deactivateRule], on the matched rule or
    another, with any levels and arrays in the update), no array of roles
    has been written, the service returns that same flow under its id, and
    [processApproval] answers on it what it answered before the edits.
    With approvals, rejections and creations under other keys in between,
    still no array has been written, and the flow under that id has the
    number of levels of the rule at the creation and, in each step, the
    level number, the required count and the roles that the level of the
    rule had then. *)
Theorem rule_edits_leave_flows w now e rule :
  Shared.findMatchingRule w e = Some rule ->
  exists flow w',
    Shared.createApprovalFlow w now e = (Ok flow, w') /\
    Shared.getFlow w' (Shared.ApprovalFlow.id flow) = Some flow /\
    Shared.arrays w' = Shared.arrays w /\
    Shared.ApprovalFlow.ruleId flow = Shared.ApprovalRule.id rule /\
    Shared.ApprovalFlow.totalLevels flow
    = Z.of_nat (length (Shared.ApprovalRule.approvalLevels rule)) /\
    map Shared.ApprovalStep.approverRoles (Shared.ApprovalFlow.steps flow)
    = map Shared.ApprovalLevel.approverRoles
          (Shared.ApprovalRule.approvalLevels rule) /\
    map stepShape
        (map (viewStep (Shared.arrays w)) (Shared.ApprovalFlow.steps flow))
    = map levelShape
          (map (viewLevel (Shared.arrays w))
               (Shared.ApprovalRule.approvalLevels rule)) /\
    (forall cs,
       forallb Shared.isRuleCall cs = true ->
       Shared.arrays (Shared.calls w' cs) = Shared.arrays w /\
       Shared.getFlow (Shared.calls w' cs) (Shared.ApprovalFlow.id flow)
       = Some flow /\
       forall now' aid an ar act cm,
         fst (Shared.processApproval (Shared.calls w' cs) now'
                (Shared.ApprovalFlow.id flow) aid an ar act cm)
         = fst (Shared.processApproval w' now'
                  (Shared.ApprovalFlow.id flow) aid an ar act cm)) /\
    (forall cs,
       forallb (Shared.keepsFlow (Shared.ApprovalFlow.id flow)) cs = true ->
       Shared.arrays (Shared.calls w' cs) = Shared.arrays w /\
       exists flow',
         Shared.getFlow (Shared.calls w' cs) (Shared.ApprovalFlow.id flow)
         = Some flow' /\
         Shared.ApprovalFlow.totalLevels flow'
         = Z.of_nat (length (Shared.ApprovalRule.approvalLevels rule)) /\
         map stepShape
             (map (viewStep (Shared.arrays (Shared.calls w' cs)))
                  (Shared.ApprovalFlow.steps flow'))
         = map levelShape
               (map (viewLevel (Shared.arrays w))
                    (Shared.ApprovalRule.approvalLevels rule))).
Proof.
  intros Hrule. unfold Shared.createApprovalFlow. rewrite Hrule.
  set (flow := Shared.ApprovalFlow.mk _ _ _ _ _ _ _ _ _).
  set (w' := Shared.set_flows _ w).
  assert (G : JsMap.get (Shared.flows w') (Shared.ApprovalFlow.id flow)
              = Some flow) by apply get_set_eq.
  exists flow, w'. split; [reflexivity|]. split; [exact G|].
  do 3 (split; [reflexivity|]).
  split; [apply newStep_refs|]. split; [apply newStep_view_shape|]. split.
  - intros cs Hcs. destruct (calls_view w' cs) as [_ Ha].
    pose proof (shared_rule_calls_flows w' cs Hcs) as Hf.
    split; [exact Ha|]. split; [unfold Shared.getFlow; by rewrite Hf|].
    intros now' aid an ar act cm.
    apply shared_processApproval_reads; [exact Ha|exact Hf].
  - intros cs Hcs. destruct (calls_view w' cs) as [E Ha].
    split; [exact Ha|].
    assert (Gv : JsMap.get (ApprovalFlowService.flows (view w'))
                   (Shared.ApprovalFlow.id flow)
                 = Some (viewFlow (Shared.arrays w) flow)).
    { unfold view. simpl. by rewrite get_viewFlows, get_set_eq. }
    rewrite <- (keepsFlow_view (Shared.arrays w')) in Hcs.
    destruct (calls_shape (view w') _ _ _ Gv Hcs) as (fv & G' & S').
    rewrite <- E in G'.
    change (ApprovalFlowService.flows (view (Shared.calls w' cs)))
      with (viewFlows (Shared.arrays (Shared.calls w' cs))
              (Shared.flows (Shared.calls w' cs))) in G'.
    rewrite get_viewFlows in G'. rewrite Ha.
    unfold Shared.getFlow.
    destruct (JsMap.get (Shared.flows (Shared.calls w' cs))
                (Shared.ApprovalFlow.id flow)) as [flow'|];
      [|discriminate G'].
    cbn [option_map] in G'. rewrite Ha in G'. injection G' as <-.
    exists flow'. split; [done|].
    unfold flowShape in S'. injection S' as S1 S2. simpl in S1, S2.
    split; [exact S1|]. etransitivity; [exact S2|].
    apply newStep_view_shape.
Qed.

(** The two-level flow just created, after its rule has got the level of
    the CFO in place of its two levels and been deactivated: the rule of
    the engine is the edited one, the flow still has its two steps, for
    the manager and for the director, and no array has been written. *)
Lemma rule_edits_leave_flows_witness :
  Shared.findMatchingRule Scenario.sharedService Scenario.monitor
  = Some Scenario.sharedTwoLevel /\
  forallb Shared.isRuleCall Scenario.sharedEdits = true /\
  List.find (fun r => String.eqb (Shared.ApprovalRule.id r) "rule-2")
    (Shared.rules (Shared.calls Scenario.sharedCreated Scenario.sharedEdits))
  = Some (Shared.ApprovalRule.mk "rule-2" "Two Level" "Two level approval"
            (Shared.ApprovalRule.conditions Scenario.sharedTwoLevel)
            [Scenario.sharedCfoLevel] 2 false) /\
  Shared.arrays (Shared.calls Scenario.sharedCreated Scenario.sharedEdits)
  = Scenario.roleArrays /\
  exists flow,
    Shared.getFlow (Shared.calls Scenario.sharedCreated Scenario.sharedEdits)
      Scenario.monitorFlow = Some flow /\
    Shared.ApprovalFlow.totalLevels flow = 2 /\
    map stepShape
      (map (viewStep Scenario.roleArrays) (Shared.ApprovalFlow.steps flow))
    = [(1, ["MANAGER"], 1); (2, ["DIRECTOR"], 1)].
Proof.
  split; [reflexivity|]. split; [reflexivity|]. split; [reflexivity|].
  destruct (rule_edits_leave_flows Scenario.sharedService
              (Clock.ticking 1000) Scenario.monitor Scenario.sharedTwoLevel
              eq_refl)
    as (flow & w' & H1 & _ & _ & _ & H5 & _ & H7 & H8 & _).
  injection H1 as <- <-.
  destruct (H8 Scenario.sharedEdits eq_refl) as (Ha & Hg & _).
  split; [exact Ha|].
  eexists. split; [exact Hg|]. split; [exact H5|exact H7].
Defined.

(** The arrays are shared indeed: a client that writes in place to the
    array of roles of the manager level of the rule, which no method of
    the services does, changes what the flow accepts; the edits of the
    rule through the engine do not. *)
Example writeRoles_reaches_flow :
  let approveBy (w : Shared.t) :=
    fst (Shared.processApproval w (Clock.ticking 1001) Scenario.monitorFlow
           "mgr-1" "Manager One" "MANAGER" Action.APPROVED None) in
  isThrow (approveBy Scenario.sharedCreated) = false /\
  isThrow (approveBy (Shared.calls Scenario.sharedCreated Scenario.sharedEdits))
  = false /\
  approveBy (Shared.writeRoles Scenario.sharedCreated 0%nat ["CFO"])
  = Throw (UnauthorizedRole "MANAGER" 1).
Proof. repeat split. Qed.

End SharedRoles.


(* ===================================================================== *)
(** ** The expense service                                                 *)
(* ===================================================================== *)

Section Expenses.

Import ExpenseService.

(** The level recorded for a rejection is one below the level of the flow
    it returns. *)
Lemma recordLevel_rejected (updatedFlow : ApprovalFlow.t) :
  recordLevel updatedFlow Action.REJECTED
  = ApprovalFlow.currentLevel updatedFlow - 1.
Proof. reflexivity. Qed.

(** The level recorded for an approval is that of the flow returned when
    the flow is APPROVED, and one below it otherwise. *)
Lemma recordLevel_approved (updatedFlow : ApprovalFlow.t) :
  recordLevel updatedFlow Action.APPROVED
  = match ApprovalFlow.status updatedFlow with
    | FlowStatus.APPROVED => ApprovalFlow.currentLevel updatedFlow
    | _ => ApprovalFlow.currentLevel updatedFlow - 1
    end.
Proof.
  unfold recordLevel. destruct (ApprovalFlow.status updatedFlow); simpl; lia.
Qed.

(** Apart from [submitExpense], a call on the expense service that throws
    has changed nothing, the flows satisfying their invariant. *)
Lemma processExpenseApproval_throw_unchanged svc now eid aid an ar act cm :
  serviceInv (approvalFlowService svc) ->
  isThrow (fst (processExpenseApproval svc now eid aid an ar act cm)) = true ->
  snd (processExpenseApproval svc now eid aid an ar act cm) = svc.
Proof.
  intros Hinv. unfold processExpenseApproval.
  destruct (JsMap.get (expenses svc) eid) as [e|]; [|done].
  destruct (negb _); [done|].
  destruct (ApprovalFlowService.getFlowByExpenseId _ eid) as [flow|]; [|done].
  pose proof (processApproval_throw_unchanged (approvalFlowService svc) now
                (ApprovalFlow.id flow) aid an ar act cm Hinv) as H.
  destruct (ApprovalFlowService.processApproval _ now _ aid an ar act cm)
    as [[f'|err] fs]; simpl in *; [done|].
  intros _. rewrite H by done. by destruct svc.
Qed.

Lemma cancelExpense_throw_unchanged svc eid employee :
  isThrow (fst (cancelExpense svc eid employee)) = true ->
  snd (cancelExpense svc eid employee) = svc.
Proof.
  unfold cancelExpense.
  destruct (JsMap.get (expenses svc) eid) as [e|]; [|done].
  destruct (negb _); [done|]. by destruct (_ || _).
Qed.

(** C1.  [submitExpense] on a draft for which no active rule matches: the
    call throws the error of [createApprovalFlow], and the expense it
    leaves in the map is PENDING with a submission date.  No flow exists
    for it, so it can neither be submitted again nor be approved. *)
Lemma submitExpense_without_rule :
  getExpense Scenario.draftOnly "exp-2" = Some Scenario.monitor /\
  Expense.status Scenario.monitor = ExpenseStatus.DRAFT /\
  Expense.submittedAt Scenario.monitor = None /\
  ApprovalRuleEngine.findMatchingRule
    (ApprovalFlowService.ruleEngine (approvalFlowService Scenario.draftOnly))
    Scenario.monitor = None /\
  let after :=
    snd (submitExpense Scenario.draftOnly (Clock.ticking 5) "exp-2") in
  fst (submitExpense Scenario.draftOnly (Clock.ticking 5) "exp-2")
  = Throw (NoMatchingRule "exp-2") /\
  option_map Expense.status (getExpense after "exp-2")
  = Some ExpenseStatus.PENDING /\
  option_map Expense.submittedAt (getExpense after "exp-2") = Some (Some 5) /\
  ApprovalFlowService.flows (approvalFlowService after) = [] /\
  fst (submitExpense after (Clock.ticking 6) "exp-2")
  = Throw (AlreadySubmitted "exp-2") /\
  fst (processExpenseApproval after (Clock.ticking 7) "exp-2" "mgr-1"
         "Manager One" "MANAGER" Action.APPROVED None)
  = Throw (NoFlowForExpense "exp-2").
Proof. repeat split. Qed.

(** C2.  A manager rejects, at level 1, an expense whose flow has a single
    level: the record appended to the history carries level 0.  A manager
    approves, at level 1, an expense whose level needs two managers: the
    flow stays at level 1 and the record carries level 0. *)
Lemma processExpenseApproval_level_recorded :
  option_map ApprovalFlow.currentLevel
    (ApprovalFlowService.getFlowByExpenseId
       (approvalFlowService Scenario.submitted) "exp-1") = Some 1 /\
  (exists e,
     fst (processExpenseApproval Scenario.submitted (Clock.ticking 1001)
            "exp-1" "mgr-1" "Manager One" "MANAGER" Action.REJECTED None)
     = Ok e /\
     Expense.status e = ExpenseStatus.REJECTED /\
     map ApprovalRecord.approverLevel (Expense.approvalHistory e) = [0]) /\
  option_map ApprovalFlow.currentLevel
    (ApprovalFlowService.getFlowByExpenseId
       (approvalFlowService Scenario.submittedTwoManagers) "exp-1") = Some 1 /\
  (exists e,
     fst (processExpenseApproval Scenario.submittedTwoManagers
            (Clock.ticking 1001) "exp-1"
            "mgr-1" "Manager One" "MANAGER" Action.APPROVED None) = Ok e /\
     Expense.status e = ExpenseStatus.PENDING /\
     map ApprovalRecord.approverLevel (Expense.approvalHistory e) = [0]).
Proof.
  split; [reflexivity|]. split; [eexists; repeat split|].
  split; [reflexivity|]. eexists; repeat split.
Qed.

End Expenses.

(* ===================================================================== *)
(** ** Further properties of the rule engine                               *)
(* ===================================================================== *)

Section RuleEngineFurther.

Import ApprovalRuleEngine.


Lemma bool_ext (a b : bool) : (a = true <-> b = true) -> a = b.
Proof. destruct a, b; intuition congruence. Qed.

Lemma Qle_bool_ext a a' b b' :
  (a == a')%Q -> (b == b')%Q -> Qle_bool a b = Qle_bool a' b'.
Proof.
  intros Ha Hb. apply bool_ext. rewrite !Qle_bool_iff. by rewrite Ha, Hb.
Qed.

Lemma evaluateCondition_ext c e1 e2 :
  (Expense.amount e1 == Expense.amount e2)%Q ->
  Expense.category e1 = Expense.category e2 ->
  evaluateCondition c e1 = evaluateCondition c e2.
Proof.
  intros Ha Hc. unfold evaluateCondition.
  destruct (ApprovalCondition.type c); [|by rewrite Hc|done|done].
  unfold evaluateAmountCondition.
  destruct (ApprovalCondition.value c) as [|t|]; try done.
  destruct (ApprovalCondition.operator c); try done; unfold Qlt_bool;
    try (f_equal; apply Qle_bool_ext; [done || reflexivity ..]).
  - apply bool_ext. rewrite !Qeq_bool_iff. by rewrite Ha.
  - by apply Qle_bool_ext.
  - by apply Qle_bool_ext.
Qed.

Lemma findMatchingRule_ext eng e1 e2 :
  (Expense.amount e1 == Expense.amount e2)%Q ->
  Expense.category e1 = Expense.category e2 ->
  findMatchingRule eng e1 = findMatchingRule eng e2.
Proof.
  intros Ha Hc. unfold findMatchingRule. cbv zeta.
  induction (List.filter ApprovalRule.active (rules eng)) as [|r l IH];
    simpl; [done|].
  assert (evaluateRule r e1 = evaluateRule r e2) as ->.
  { unfold evaluateRule.
    induction (ApprovalRule.conditions r) as [|c cs IHc]; simpl; [done|].
    by rewrite (evaluateCondition_ext c e1 e2), IHc. }
  by rewrite IH.
Qed.

(** Matching reads the amount and the category of an expense and nothing
    else: two expenses of equal amount and of the same category get the
    same rule from any engine. *)
Theorem findMatchingRule_amount_category eng e1 e2 :
  (Expense.amount e1 == Expense.amount e2)%Q ->
  Expense.category e1 = Expense.category e2 ->
  findMatchingRule eng e1 = findMatchingRule eng e2.
Proof. apply findMatchingRule_ext. Qed.

(** The status of the expense changes and its amount stays: the witness of
    the hypotheses above. *)
Lemma findMatchingRule_amount_category_witness :
  (Expense.amount Scenario.lunch
   == Expense.amount (Expense.set_status ExpenseStatus.PENDING Scenario.lunch))%Q
  /\ Expense.category Scenario.lunch
     = Expense.category (Expense.set_status ExpenseStatus.PENDING Scenario.lunch)
  /\ findMatchingRule (constructor DEFAULT_APPROVAL_RULES) Scenario.lunch
     = findMatchingRule (constructor DEFAULT_APPROVAL_RULES)
         (Expense.set_status ExpenseStatus.PENDING Scenario.lunch).
Proof.
  split; [reflexivity|]. split; [reflexivity|].
  apply (findMatchingRule_amount_category _ Scenario.lunch
           (Expense.set_status ExpenseStatus.PENDING Scenario.lunch));
    reflexivity.
Defined.

(** Conditions on the department and on the employee level have no effect:
    a rule matches the expenses it matches without them. *)
Theorem evaluateRule_placeholders r e :
  evaluateRule r e = evaluateRule (withoutPlaceholders r) e.
Proof.
  unfold evaluateRule, withoutPlaceholders. simpl.
  induction (ApprovalRule.conditions r) as [|c cs IH]; simpl; [done|].
  rewrite IH. unfold placeholder.
  destruct (ApprovalCondition.type c) eqn:T; simpl;
    unfold evaluateCondition; by rewrite T.
Qed.


Lemma insertRule_Permutation r l : Permutation (insertRule r l) (r :: l).
Proof.
  induction l as [|x l IH]; simpl; [done|].
  destruct (prio r <? prio x); [|done].
  rewrite IH. apply perm_swap.
Qed.

Lemma sortRules_Permutation l : Permutation (sortRules l) l.
Proof.
  induction l as [|r l IH]; simpl; [done|].
  by rewrite insertRule_Permutation, IH.
Qed.

(** [addRule] keeps every rule of the engine, adds the new one, and leaves
    the array in descending order of priority. *)
Theorem addRule_rules eng r :
  Permutation (getRules (addRule eng r)) (getRules eng ++ [r]) /\
  sortedRules (getRules (addRule eng r)).
Proof.
  unfold getRules, addRule. simpl.
  split; [apply sortRules_Permutation|apply sortRules_sorted].
Qed.

Lemma sortedRules_prio l :
  sortedRules l <-> StronglySorted (fun a b => b <= a) (map prio l).
Proof.
  unfold sortedRules. induction l as [|x l IH]; simpl.
  - split; constructor.
  - split; intros H; inversion H as [|? ? Hs Hall]; subst; constructor;
      try (by apply IH).
    + rewrite List.Forall_forall in Hall |- *. intros p Hp.
      apply in_map_iff in Hp as (y & <- & Hy). auto.
    + rewrite List.Forall_forall in Hall |- *. intros y Hy.
      apply Hall, in_map. done.
Qed.

Lemma alter_prio (f : ApprovalRule.t -> ApprovalRule.t) (i : nat) l :
  (forall x, prio (f x) = prio x) ->
  map prio (alter f i l) = map prio l.
Proof.
  intros Hf. revert i. induction l as [|x l IH]; intros [|i]; simpl; try done.
  - by rewrite Hf.
  - f_equal. apply IH.
Qed.

Lemma findIndex_None l ruleId :
  findIndex l ruleId = None <->
  forall r, In r l -> ApprovalRule.id r <> ruleId.
Proof.
  induction l as [|x l IH]; simpl.
  - split; [intros _ r []|done].
  - destruct (String.eqb_spec (ApprovalRule.id x) ruleId) as [E|E].
    + split; [done|]. intros H. exfalso. apply (H x); auto.
    + destruct (findIndex l ruleId) as [i|]; simpl.
      * split; [done|]. intros H. exfalso.
        assert (Some i = None) by (apply IH; intros r Hr; apply H; auto).
        discriminate.
      * split; [|done]. intros _ r [<-|Hr]; [done|]. by apply IH.
Qed.

Lemma findIndex_Some l ruleId i :
  findIndex l ruleId = Some i ->
  exists l1 old l2,
    l = l1 ++ old :: l2 /\ length l1 = i /\
    ApprovalRule.id old = ruleId /\
    forall r, In r l1 -> ApprovalRule.id r <> ruleId.
Proof.
  revert i. induction l as [|x l IH]; intros i; simpl; [done|].
  destruct (String.eqb_spec (ApprovalRule.id x) ruleId) as [E|E].
  - intros [= <-]. exists [], x, l. repeat split; [done|]. intros r [].
  - destruct (findIndex l ruleId) as [j|]; simpl; [|done].
    intros [= <-]. destruct (IH j eq_refl) as (l1 & old & l2 & -> & Hl & Ho & H1).
    exists (x :: l1), old, l2. repeat split; simpl; [by rewrite Hl|done|].
    intros r [<-|Hr]; auto.
Qed.

Lemma alter_middle {A : Type} (f : A -> A) (l1 : list A) x l2 :
  alter f (length l1) (l1 ++ x :: l2) = l1 ++ f x :: l2.
Proof. induction l1 as [|y l1 IH]; simpl; [done|]. f_equal. apply IH. Qed.

(** [updateRule], for an update each of whose keys carries a value.  It
    answers [false] and changes nothing when no rule has the id.
    Otherwise it answers [true] and replaces the first rule of the array
    with that id by the merged rule: each field of the merged rule is the
    value that the update carries for it, and the value of the old rule
    when the update has no such key.  All other rules are kept, and the
    array is left in descending order of priority. *)
Theorem updateRule_first_with_id eng ruleId updates :
  (updateRule eng ruleId updates = (false, eng) /\
   forall r, In r (getRules eng) -> ApprovalRule.id r <> ruleId) \/
  (exists l1 old l2 merged,
     getRules eng = l1 ++ old :: l2 /\
     ApprovalRule.id old = ruleId /\
     (forall r, In r l1 -> ApprovalRule.id r <> ruleId) /\
     fst (updateRule eng ruleId updates) = true /\
     merged = ApprovalRule.spread old updates /\
     ApprovalRule.id merged
     = default (ApprovalRule.id old) (ApprovalRule.p_id updates) /\
     ApprovalRule.name merged
     = default (ApprovalRule.name old) (ApprovalRule.p_name updates) /\
     ApprovalRule.description merged
     = default (ApprovalRule.description old)
               (ApprovalRule.p_description updates) /\
     ApprovalRule.conditions merged
     = default (ApprovalRule.conditions old)
               (ApprovalRule.p_conditions updates) /\
     ApprovalRule.approvalLevels merged
     = default (ApprovalRule.approvalLevels old)
               (ApprovalRule.p_approvalLevels updates) /\
     ApprovalRule.priority merged
     = default (ApprovalRule.priority old)
               (ApprovalRule.p_priority updates) /\
     ApprovalRule.active merged
     = default (ApprovalRule.active old) (ApprovalRule.p_active updates) /\
     Permutation (getRules (snd (updateRule eng ruleId updates)))
                 (l1 ++ merged :: l2) /\
     sortedRules (getRules (snd (updateRule eng ruleId updates)))).
Proof.
  unfold getRules, updateRule.
  destruct (findIndex (rules eng) ruleId) as [i|] eqn:F.
  - right. destruct (findIndex_Some _ _ _ F) as (l1 & old & l2 & E & <- & Ho & H1).
    exists l1, old, l2, (ApprovalRule.spread old updates).
    rewrite E. simpl. rewrite alter_middle.
    repeat split; try done.
    + apply sortRules_Permutation.
    + apply sortRules_sorted.
  - left. split; [done|]. by apply findIndex_None.
Qed.

(** After a deactivation the array holds the same rules in the same
    order, the first rule with the id switched off. *)
Lemma deactivateRule_rules eng ruleId :
  sortedRules (rules eng) ->
  rules (snd (deactivateRule eng ruleId))
  = match findIndex (rules eng) ruleId with
    | Some i =>
        alter (fun old => ApprovalRule.spread old deactivation) i (rules eng)
    | None => rules eng
    end.
Proof.
  intros Hs. unfold deactivateRule, updateRule.
  destruct (findIndex (rules eng) ruleId) as [i|]; [|done]. simpl.
  apply sortRules_id, sortedRules_prio. rewrite alter_prio by done.
  by apply sortedRules_prio.
Qed.

Lemma find_alter_other {A : Type} (p : A -> bool) (f : A -> A) (l : list A)
    (i : nat) (x r : A) :
  List.find p l = Some r -> l !! i = Some x -> x <> r -> p (f x) = false ->
  List.find p (alter f i l) = Some r.
Proof.
  revert i. induction l as [|y l IH]; intros [|i] Hf Hi Hne Hp; simpl in *;
    try done.
  - injection Hi as ->. rewrite Hp. destruct (p x); [congruence|done].
  - destruct (p y); [done|]. by apply (IH i).
Qed.

(** Deactivating a rule changes nothing for the expenses that another
    rule serves: the rule found for them is found again. *)
Theorem deactivateRule_other eng ruleId e r :
  sortedRules (rules eng) ->
  findMatchingRule eng e = Some r ->
  ApprovalRule.id r <> ruleId ->
  findMatchingRule (snd (deactivateRule eng ruleId)) e = Some r.
Proof.
  intros Hs Hr Hne. unfold findMatchingRule in *. cbv zeta in *.
  rewrite firstMatch_filter in *. rewrite deactivateRule_rules by done.
  destruct (findIndex (rules eng) ruleId) as [i|] eqn:F; [|done].
  destruct (findIndex_Some _ _ _ F) as (l1 & old & l2 & E & Hl & Ho & _).
  apply (find_alter_other _ _ _ i old); try done.
  - rewrite E, <- Hl. by rewrite list_lookup_middle.
  - congruence.
Qed.

(** The default rules: deactivating the travel rule leaves the rule of a
    lunch of 50 as it was. *)
Lemma deactivateRule_other_witness :
  sortedRules (rules (constructor DEFAULT_APPROVAL_RULES)) /\
  option_map ApprovalRule.id
    (findMatchingRule (constructor DEFAULT_APPROVAL_RULES) Scenario.lunch)
  = Some "rule-1" /\
  option_map ApprovalRule.id
    (findMatchingRule
       (snd (deactivateRule (constructor DEFAULT_APPROVAL_RULES) "rule-5"))
       Scenario.lunch)
  = Some "rule-1".
Proof.
  split; [apply sortRules_sorted|]. split; [reflexivity|].
  destruct (findMatchingRule (constructor DEFAULT_APPROVAL_RULES) Scenario.lunch)
    as [r|] eqn:Hr; [|discriminate].
  rewrite (deactivateRule_other (constructor DEFAULT_APPROVAL_RULES) "rule-5"
             Scenario.lunch r (sortRules_sorted _) Hr).
  - by vm_compute in Hr; injection Hr as <-.
  - vm_compute in Hr. injection Hr as <-. discriminate.
Defined.

(** When the ids of the rules are distinct, a deactivated rule is never
    returned again. *)
Theorem deactivateRule_never_returned eng ruleId e r :
  sortedRules (rules eng) ->
  NoDup (map ApprovalRule.id (rules eng)) ->
  findMatchingRule (snd (deactivateRule eng ruleId)) e = Some r ->
  ApprovalRule.id r <> ruleId.
Proof.
  intros Hs Hnd Hr Hid. unfold findMatchingRule in Hr. cbv zeta in Hr.
  rewrite firstMatch_filter, deactivateRule_rules in Hr by done.
  apply List.find_some in Hr as [Hin Hc].
  destruct (findIndex (rules eng) ruleId) as [i|] eqn:F.
  - destruct (findIndex_Some _ _ _ F) as (l1 & old & l2 & E & Hl & Ho & H1).
    rewrite E, <- Hl, alter_middle in Hin. rewrite E in Hnd.
    rewrite map_app in Hnd. simpl in Hnd.
    apply NoDup_app in Hnd as (_ & Hdis & Hnd2).
    apply NoDup_cons in Hnd2 as [Hnotin _].
    apply in_app_or in Hin as [Hin|[<-|Hin]].
    + by apply (H1 r).
    + unfold candidate in Hc. simpl in Hc. discriminate.
    + apply Hnotin. rewrite Ho, <- Hid. apply list_elem_of_In, in_map. done.
  - rewrite findIndex_None in F. by apply (F r).
Qed.

(** The default rules have distinct ids: once the travel rule is
    deactivated, a flight of 1200 gets another rule. *)
Lemma deactivateRule_never_returned_witness :
  sortedRules (rules (constructor DEFAULT_APPROVAL_RULES)) /\
  NoDup (map ApprovalRule.id (rules (constructor DEFAULT_APPROVAL_RULES))) /\
  exists r,
    findMatchingRule
      (snd (deactivateRule (constructor DEFAULT_APPROVAL_RULES) "rule-5"))
      (Scenario.expenseOf "exp-5" 1200 ExpenseCategory.TRAVEL)
    = Some r /\
    ApprovalRule.id r <> "rule-5".
Proof.
  assert (Hnd : NoDup (map ApprovalRule.id
                         (rules (constructor DEFAULT_APPROVAL_RULES)))).
  { vm_compute. repeat constructor; rewrite ?list_elem_of_In; simpl;
      intuition discriminate. }
  split; [apply sortRules_sorted|]. split; [exact Hnd|].
  eexists. split; [reflexivity|].
  eapply (deactivateRule_never_returned (constructor DEFAULT_APPROVAL_RULES)
            "rule-5" (Scenario.expenseOf "exp-5" 1200 ExpenseCategory.TRAVEL));
    [apply sortRules_sorted|exact Hnd|reflexivity].
Defined.

Lemma find_insertLast r l e :
  sortedRules l ->
  List.find (candidate e) (insertLast r l)
  = match List.find (candidate e) l with
    | Some a =>
        if candidate e r && (prio a <? prio r) then Some r else Some a
    | None => if candidate e r then Some r else None
    end.
Proof.
  induction l as [|y l IH]; intros Hs.
  - simpl. by destruct (candidate e r).
  - pose proof Hs as Hs0. inversion Hs as [|? ? Hs' Hall]; subst.
    cbn [insertLast]. destruct (prio y <? prio r) eqn:E.
    + apply Z.ltb_lt in E.
      destruct (List.find (candidate e) (y :: l)) as [a|] eqn:F.
      * pose proof (find_sorted_le l e a y Hs0 F) as Hle.
        assert ((prio a <? prio r) = true) as -> by (apply Z.ltb_lt; lia).
        cbn [List.find]. destruct (candidate e r); [done|]. simpl.
        exact F.
      * cbn [List.find]. destruct (candidate e r); [done|]. exact F.
    + apply Z.ltb_ge in E. cbn [List.find].
      destruct (candidate e y) eqn:Cy.
      * assert ((prio y <? prio r) = false) as -> by (apply Z.ltb_ge; lia).
        by rewrite andb_false_r.
      * by apply IH.
Qed.

(** First match wins.  After [addRule], the rule found for an expense is
    the new rule when it is active, matches, and has a priority strictly
    above that of the rule found before (or none was found); otherwise it
    is the rule found before. *)
Theorem addRule_first_match_wins eng r e :
  sortedRules (rules eng) ->
  findMatchingRule (addRule eng r) e
  = match findMatchingRule eng e with
    | Some a =>
        if candidate e r && (prio a <? prio r) then Some r else Some a
    | None => if candidate e r then Some r else None
    end.
Proof.
  intros Hs. unfold findMatchingRule, addRule. cbv zeta. simpl.
  rewrite !firstMatch_filter, sortRules_push, sortRules_id by done.
  by apply find_insertLast.
Qed.

(** The priority test of the rule engine's suite, on the default rules: a
    rule of priority 10 for amounts from 50 takes over a lunch of 75. *)
Lemma addRule_first_match_wins_witness :
  sortedRules (rules (constructor DEFAULT_APPROVAL_RULES)) /\
  option_map ApprovalRule.id
    (findMatchingRule
       (addRule (constructor DEFAULT_APPROVAL_RULES)
          (ApprovalRule.mk "rule-high" "High Priority" "High priority rule"
             [ApprovalCondition.mk ConditionType.AMOUNT
                Operator.GREATER_THAN_OR_EQUAL (ConditionValue.Num 50)]
             [ApprovalLevel.mk 1 ["VP"] 1 None None] 10 true))
       (Scenario.expenseOf "exp-3" 75 ExpenseCategory.MEALS))
  = Some "rule-high".
Proof.
  split; [apply sortRules_sorted|].
  rewrite (addRule_first_match_wins (constructor DEFAULT_APPROVAL_RULES) _ _
             (sortRules_sorted _)).
  reflexivity.
Defined.

End RuleEngineFurther.

(* ===================================================================== *)
(** ** Further properties of the flow service                              *)
(* ===================================================================== *)

Section JsMapEntries.

Context {V : Type}.
Implicit Types (m : JsMap.t V) (k : string) (v : V).

Lemma get_In m k v : JsMap.get m k = Some v -> In (k, v) m.
Proof.
  induction m as [|[k' v'] m IH]; simpl; [done|].
  destruct (String.eqb_spec k' k) as [->|Hne].
  - intros [= ->]. by left.
  - intros H. right. by apply IH.
Qed.

Lemma In_get m k v : NoDup (map fst m) -> In (k, v) m -> JsMap.get m k = Some v.
Proof.
  induction m as [|[k' v'] m IH]; simpl; [done|].
  intros Hnd Hin. apply NoDup_cons in Hnd as [Hk Hnd].
  destruct Hin as [[= -> ->]|Hin].
  - by rewrite String.eqb_refl.
  - destruct (String.eqb_spec k' k) as [->|Hne]; [|by apply IH].
    exfalso. apply Hk, list_elem_of_In. by apply (in_map fst _ (k, v)).
Qed.

Lemma set_In m k v k' v' :
  In (k', v') (JsMap.set m k v) -> (k', v') = (k, v) \/ In (k', v') m.
Proof.
  induction m as [|[k0 v0] m IH]; simpl.
  - intros [<-|[]]. by left.
  - destruct (String.eqb k0 k); simpl.
    + intros [<-|H]; [by left|right; by right].
    + intros [<-|H]; [right; by left|].
      destruct (IH H) as [->|H']; [by left|right; by right].
Qed.

Lemma set_keys_In m k v x :
  In x (map fst (JsMap.set m k v)) -> x = k \/ In x (map fst m).
Proof.
  intros H. apply in_map_iff in H as ([k' v'] & <- & H).
  apply set_In in H as [[= -> ->]|H]; [by left|right].
  by apply (in_map fst _ (k', v')).
Qed.

Lemma set_keys_NoDup m k v :
  NoDup (map fst m) -> NoDup (map fst (JsMap.set m k v)).
Proof.
  induction m as [|[k0 v0] m IH]; simpl; intros Hnd.
  - apply NoDup_singleton.
  - apply NoDup_cons in Hnd as [Hk Hnd].
    destruct (String.eqb_spec k0 k) as [->|Hne]; simpl.
    + by apply NoDup_cons.
    + apply NoDup_cons. split; [|by apply IH].
      rewrite list_elem_of_In. intros H.
      apply set_keys_In in H as [->|H]; [done|].
      by apply Hk, list_elem_of_In.
Qed.

Lemma find_values_set m k v (p : V -> bool) :
  p v = true ->
  (forall x, In x (JsMap.values m) -> p x = false) ->
  List.find p (JsMap.values (JsMap.set m k v)) = Some v.
Proof.
  intros Hv. induction m as [|[k0 v0] m IH]; simpl; intros Hm.
  - by rewrite Hv.
  - destruct (String.eqb k0 k); simpl.
    + by rewrite Hv.
    + rewrite (Hm v0) by (by left). apply IH. intros x Hx. apply Hm.
      by right.
Qed.

End JsMapEntries.

Section FlowFurther.

Import ApprovalFlowService.

Lemma stepLe_refl s : stepLe s s.
Proof. split; [done|]. exists []. by rewrite app_nil_r. Qed.

Lemma stepLe_trans s1 s2 s3 : stepLe s1 s2 -> stepLe s2 s3 -> stepLe s1 s3.
Proof.
  intros [E1 [m1 A1]] [E2 [m2 A2]]. split; [congruence|].
  exists (m1 ++ m2). by rewrite A2, A1, app_assoc.
Qed.

Lemma Forall2_stepLe_refl l : Forall2 stepLe l l.
Proof. induction l; constructor; [apply stepLe_refl|done]. Qed.

Lemma Forall2_stepLe_insert l l1 (m : nat) x x' :
  Forall2 stepLe l l1 -> l1 !! m = Some x -> stepLe x x' ->
  Forall2 stepLe l (<[m := x']> l1).
Proof.
  intros H. revert m. induction H as [|a b l l1 Hab H IH]; intros [|m] Hm Hx;
    simpl in *; try done.
  - injection Hm as ->. constructor; [by eapply stepLe_trans|done].
  - constructor; [done|]. by apply IH.
Qed.

Lemma flowLe_refl f : flowLe f f.
Proof.
  unfold flowLe. repeat split; try done; try lia. apply Forall2_stepLe_refl.
Qed.

Lemma flowLe_trans f1 f2 f3 : flowLe f1 f2 -> flowLe f2 f3 -> flowLe f1 f3.
Proof.
  intros (A1 & A2 & A3 & A4 & A5 & A6 & A7) (B1 & B2 & B3 & B4 & B5 & B6 & B7).
  unfold flowLe. repeat split; try congruence; try lia.
  clear -A7 B7. revert B7. generalize (ApprovalFlow.steps f3).
  induction A7 as [|a b l l' Hab H IH]; intros l3 B7; inversion B7; subst;
    constructor; [by eapply stepLe_trans|by apply IH].
Qed.

(** The state after [processApproval]: as before, or with one write at the
    key of the flow, of that flow later in its life. *)
Lemma processApproval_progress svc now fid aid an ar act cm :
  snd (processApproval svc now fid aid an ar act cm) = svc \/
  exists f f',
    JsMap.get (flows svc) fid = Some f /\
    snd (processApproval svc now fid aid an ar act cm) = store svc fid f' /\
    flowLe f f'.
Proof.
  unfold processApproval.
  destruct (JsMap.get (flows svc) fid) as [flow|] eqn:G; [|by left].
  destruct (negb _); [by left|]. cbv zeta.
  destruct (ApprovalFlow.stepAt flow (ApprovalFlow.currentLevel flow - 1))
    as [step|] eqn:C; [|by left].
  destruct (negb _); [by left|]. destruct (hasActed step aid); [by left|].
  apply stepAt_Some in C as [_ Hstep].
  right. exists flow. unfold ApprovalFlow.set_stepAt.
  assert (Hpush : forall d st,
    stepLe step
      (ApprovalStep.set_completedAt d
         (ApprovalStep.set_status st
            (ApprovalStep.set_approvals
               (ApprovalStep.approvals step
                ++ [StepApproval.mk aid an ar act (now 0%nat) cm]) step)))).
  { intros d st. split; [done|]. by eexists. }
  assert (Hpush' :
    stepLe step
      (ApprovalStep.set_approvals
         (ApprovalStep.approvals step
          ++ [StepApproval.mk aid an ar act (now 0%nat) cm]) step)).
  { split; [done|]. by eexists. }
  pose proof (Forall2_stepLe_refl (ApprovalFlow.steps flow)) as Hrefl.
  destruct act.
  - destruct (_ <=? _).
    + flow_fields. destruct (_ <? _).
      * destruct (ApprovalFlow.stepAt _ _) as [next|] eqn:C2.
        -- apply stepAt_Some in C2 as [_ Hnext]. revert Hnext. flow_fields.
           intros Hnext. eexists. split; [done|]. split; [reflexivity|].
           unfold flowLe. flow_fields. repeat split; try done; try lia.
           eapply Forall2_stepLe_insert; [|exact Hnext|by split; [|exists []; rewrite app_nil_r]].
           by eapply Forall2_stepLe_insert.
        -- eexists. split; [done|]. split; [reflexivity|].
           unfold flowLe. flow_fields. repeat split; try done; try lia.
           by eapply Forall2_stepLe_insert.
      * eexists. split; [done|]. split; [reflexivity|].
        unfold flowLe. flow_fields. repeat split; try done; try lia.
        by eapply Forall2_stepLe_insert.
    + eexists. split; [done|]. split; [reflexivity|].
      unfold flowLe. flow_fields. repeat split; try done; try lia.
      by eapply Forall2_stepLe_insert.
  - eexists. split; [done|]. split; [reflexivity|].
    unfold flowLe. flow_fields. repeat split; try done; try lia.
    by eapply Forall2_stepLe_insert.
Qed.

Lemma keysInv_store svc k f :
  keysInv svc ->
  k = ApprovalFlow.id f ->
  (exists t, ApprovalFlow.id f = flowId (ApprovalFlow.expenseId f) t) ->
  keysInv (store svc k f).
Proof.
  intros [Hnd Hk] -> Hid. split; simpl.
  - by apply set_keys_NoDup.
  - intros k' f' Hin. apply set_In in Hin as [[= -> ->]|Hin]; [done|].
    by apply Hk.
Qed.

Lemma call_keysInv svc c : keysInv svc -> keysInv (call svc c).
Proof.
  intros Hinv. destruct c as [r|rid u|rid|now e|now fid aid an ar act cm];
    simpl; try done.
  - unfold createApprovalFlow.
    destruct (ApprovalRuleEngine.findMatchingRule _ e); [|done]. simpl.
    apply (keysInv_store svc); [done|done|]. by eexists.
  - destruct (processApproval_progress svc now fid aid an ar act cm)
      as [->|(f & f' & G & -> & Hle)]; [done|].
    destruct Hinv as [Hnd Hk].
    destruct (Hk fid f (get_In _ _ _ G)) as [E1 [t E2]].
    destruct Hle as (L1 & L2 & _).
    apply keysInv_store; [done|congruence|]. exists t. congruence.
Qed.

Lemma reachable_keysInv svc : reachable svc -> keysInv svc.
Proof.
  intros (rules0 & cs & ->).
  assert (H : keysInv (constructor (ApprovalRuleEngine.constructor rules0))).
  { split; simpl; [constructor|intros k f []]. }
  revert H. generalize (constructor (ApprovalRuleEngine.constructor rules0)).
  induction cs as [|c cs IH]; intros svc H; simpl; [done|].
  by apply IH, call_keysInv.
Qed.

Lemma flows_stored_under_id_aux svc :
  reachable svc ->
  forall f, In f (JsMap.values (flows svc)) ->
            getFlow svc (ApprovalFlow.id f) = Some f.
Proof.
  intros Hr f Hf. destruct (reachable_keysInv svc Hr) as [Hnd Hk].
  apply in_map_iff in Hf as ([k f'] & <- & Hin).
  destruct (Hk k f' Hin) as [-> _]. by apply In_get.
Qed.

(** In a reachable service every flow of the map is returned by [getFlow]
    for its own id, which is made of its expense id and a reading of the
    clock; the ids of the flows are distinct; and the flow that
    [getFlowByExpenseId] returns has that expense id and is the flow that
    [getFlow] returns for its id. *)
Theorem flows_stored_under_id svc :
  reachable svc ->
  (forall f,
     In f (JsMap.values (flows svc)) ->
     getFlow svc (ApprovalFlow.id f) = Some f /\
     exists t, ApprovalFlow.id f = flowId (ApprovalFlow.expenseId f) t) /\
  NoDup (map ApprovalFlow.id (JsMap.values (flows svc))) /\
  (forall expenseId f,
     getFlowByExpenseId svc expenseId = Some f ->
     ApprovalFlow.expenseId f = expenseId /\
     getFlow svc (ApprovalFlow.id f) = Some f).
Proof.
  intros Hr. destruct (reachable_keysInv svc Hr) as [Hnd Hk].
  assert (Hget : forall f, In f (JsMap.values (flows svc)) ->
                           getFlow svc (ApprovalFlow.id f) = Some f).
  { intros f Hf. apply in_map_iff in Hf as ([k f'] & <- & Hin).
    destruct (Hk k f' Hin) as [-> _]. by apply In_get. }
  split; [|split].
  - intros f Hf. split; [by apply Hget|].
    apply in_map_iff in Hf as ([k f'] & <- & Hin). by apply (Hk k f').
  - assert (map ApprovalFlow.id (JsMap.values (flows svc))
            = map fst (flows svc)) as ->; [|done].
    unfold JsMap.values. rewrite map_map. apply map_ext_in.
    intros [k f] Hin. simpl. by destruct (Hk k f Hin) as [-> _].
  - intros eid f Hf. unfold getFlowByExpenseId in Hf.
    apply List.find_some in Hf as [Hin He]. apply String.eqb_eq in He.
    split; [done|by apply Hget].
Qed.

(** The two-level flow just created is found by its expense id and by its
    own id. *)
Lemma flows_stored_under_id_witness :
  reachable Scenario.created /\
  exists f,
    getFlowByExpenseId Scenario.created "exp-2" = Some f /\
    ApprovalFlow.id f = Scenario.monitorFlow /\
    getFlow Scenario.created (ApprovalFlow.id f) = Some f.
Proof.
  pose proof reachable_scenarios as (Hr & _). split; [exact Hr|].
  destruct (flows_stored_under_id Scenario.created Hr) as (_ & _ & H).
  eexists. split; [reflexivity|]. split; [reflexivity|].
  exact (proj2 (H "exp-2" _ eq_refl)).
Defined.

(** A flow only moves forward.  Whatever calls are made that keep the
    object under its key, the flow found there afterwards has the same id,
    expense, rule, creation date and number of levels; its level is not
    below the level before; and each of its steps has the same level
    number, roles and required count, and the actions it had, in the same
    order, at the head of its actions. *)
Theorem flow_moves_forward svc cs k f :
  getFlow svc k = Some f ->
  forallb (keepsFlow k) cs = true ->
  exists f', getFlow (calls svc cs) k = Some f' /\ flowLe f f'.
Proof.
  unfold getFlow. revert svc f.
  induction cs as [|c cs IH]; intros svc f G H; simpl in *.
  - exists f. split; [done|apply flowLe_refl].
  - apply andb_true_iff in H as [Hc Hcs].
    assert (exists f1, JsMap.get (flows (call svc c)) k = Some f1 /\
                       flowLe f f1) as (f1 & G1 & E1).
    { destruct c as [r|rid u|rid|t e|t fid aid an ar act cm]; simpl in *;
        try (exists f; split; [done|apply flowLe_refl]).
      - exists f. split; [|apply flowLe_refl].
        rewrite createApprovalFlow_frame; [done|].
        apply negb_true_iff in Hc. by apply String.eqb_neq.
      - destruct (String.eqb_spec fid k) as [->|Hne].
        + destruct (processApproval_progress svc t k aid an ar act cm)
            as [->|(f0 & f' & G0 & -> & E)];
            [exists f; split; [done|apply flowLe_refl]|].
          exists f'. split; [apply get_set_eq|]. congruence.
        + exists f. split; [|apply flowLe_refl].
          by rewrite processApproval_frame. }
    destruct (IH _ _ G1 Hcs) as (f' & G' & E'). exists f'.
    split; [done|]. by eapply flowLe_trans.
Qed.

(** The two-level flow: after the manager's approval its level is not
    below 1 and its steps keep their shape. *)
Lemma flow_moves_forward_witness :
  exists f f',
    getFlow Scenario.created Scenario.monitorFlow = Some f /\
    forallb (keepsFlow Scenario.monitorFlow)
      [Scenario.approve 1001 Scenario.monitorFlow "mgr-1" "Manager One" "MANAGER"]
    = true /\
    getFlow Scenario.advanced Scenario.monitorFlow = Some f' /\
    flowLe f f'.
Proof.
  destruct (flow_moves_forward Scenario.created
              [Scenario.approve 1001 Scenario.monitorFlow "mgr-1" "Manager One"
                 "MANAGER"]
              Scenario.monitorFlow _ eq_refl eq_refl) as (f' & G & Hle).
  eexists _, f'. split; [reflexivity|]. split; [reflexivity|].
  split; [exact G|exact Hle].
Defined.

Lemma approvedCount_nonneg s : 0 <= approvedCount s.
Proof. unfold approvedCount. lia. Qed.

Lemma flowAudit_update f (n : nat) step s' st' c' :
  flowAudit f ->
  Z.of_nat n = ApprovalFlow.currentLevel f - 1 ->
  ApprovalFlow.steps f !! n = Some step ->
  stepAudit s' ->
  ApprovalStep.startedAt s' = ApprovalStep.startedAt step ->
  (c' = None <-> st' = FlowStatus.PENDING) ->
  flowAudit
    (ApprovalFlow.mk (ApprovalFlow.id f) (ApprovalFlow.expenseId f)
       (ApprovalFlow.ruleId f) (ApprovalFlow.currentLevel f)
       (ApprovalFlow.totalLevels f) st'
       (<[n := s']> (ApprovalFlow.steps f))
       (ApprovalFlow.createdAt f) c').
Proof.
  intros [Hsteps _] Hn Hstep Hs' Hstart Hc.
  pose proof (lookup_lt_Some _ _ _ Hstep) as Hlt.
  split; simpl; [|done].
  intros i s Hi. destruct (decide (i = n)) as [->|Hne].
  - rewrite list_lookup_insert_eq in Hi by done. injection Hi as <-.
    split; [done|]. rewrite Hstart. by apply (Hsteps n step).
  - rewrite list_lookup_insert_ne in Hi by done. by apply Hsteps.
Qed.

Lemma flowAudit_advance f (n : nat) step s' next next' st' c' :
  flowAudit f ->
  Z.of_nat n = ApprovalFlow.currentLevel f - 1 ->
  ApprovalFlow.steps f !! n = Some step ->
  ApprovalFlow.steps f !! S n = Some next ->
  stepAudit s' ->
  ApprovalStep.startedAt s' = ApprovalStep.startedAt step ->
  stepAudit next' ->
  ApprovalStep.startedAt next' <> None ->
  (c' = None <-> st' = FlowStatus.PENDING) ->
  flowAudit
    (ApprovalFlow.mk (ApprovalFlow.id f) (ApprovalFlow.expenseId f)
       (ApprovalFlow.ruleId f) (ApprovalFlow.currentLevel f + 1)
       (ApprovalFlow.totalLevels f) st'
       (<[S n := next']> (<[n := s']> (ApprovalFlow.steps f)))
       (ApprovalFlow.createdAt f) c').
Proof.
  intros [Hsteps _] Hn Hstep Hnext Hs' Hstart Hn' Hstart' Hc.
  pose proof (lookup_lt_Some _ _ _ Hstep) as Hlt.
  pose proof (lookup_lt_Some _ _ _ Hnext) as Hlt'.
  split; simpl; [|done].
  intros i s Hi. destruct (decide (i = S n)) as [->|Hne].
  - rewrite list_lookup_insert_eq in Hi by (by rewrite length_insert).
    injection Hi as <-. split; [done|]. split; [done|lia].
  - rewrite list_lookup_insert_ne in Hi by done.
    destruct (decide (i = n)) as [->|Hne'].
    + rewrite list_lookup_insert_eq in Hi by done. injection Hi as <-.
      split; [done|]. rewrite Hstart.
      destruct (Hsteps n step Hstep) as [_ H]. split; [|lia].
      intros H0. apply H in H0. lia.
    + rewrite list_lookup_insert_ne in Hi by done.
      destruct (Hsteps i s Hi) as [Ha H]. split; [done|].
      rewrite H. lia.
Qed.

Lemma flowAudit_new fid eid rid now created (levels : list ApprovalLevel.t) :
  flowAudit
    (ApprovalFlow.mk fid eid rid 1 (Z.of_nat (length levels))
       FlowStatus.PENDING (imap (newStep now) levels) created None).
Proof.
  split; simpl; [|done]. intros i s Hi.
  rewrite list_lookup_imap in Hi.
  destruct (levels !! i) as [l|]; simpl in Hi; [|done]. injection Hi as <-.
  split.
  - unfold stepAudit. replace (ApprovalStep.status (newStep now i l))
      with StepStatus.PENDING by (by destruct i).
    split; [constructor|]. split; [|done].
    unfold approvedCount, quota. simpl. lia.
  - destruct i; simpl; split; try done; lia.
Qed.

(** [processApproval] keeps the audit trail of the flows. *)
Lemma processApproval_audit svc now fid aid an ar act cm :
  serviceInv svc -> serviceAudit svc ->
  serviceAudit (snd (processApproval svc now fid aid an ar act cm)).
Proof.
  intros Hsvc Haud. unfold processApproval.
  destruct (JsMap.get (flows svc) fid) as [flow|] eqn:G; [|done].
  assert (Hinv : flowInv flow) by (eapply Hsvc, get_In_values, G).
  assert (Ha : flowAudit flow) by (eapply Haud, get_In_values, G).
  destruct (negb (FlowStatus.eqb (ApprovalFlow.status flow) FlowStatus.PENDING))
    eqn:Hst; [done|].
  apply pending_check in Hst. cbv zeta.
  destruct (ApprovalFlow.stepAt flow (ApprovalFlow.currentLevel flow - 1))
    as [step|] eqn:C; [|done].
  destruct (negb (ApprovalRuleEngine.includes (ApprovalStep.approverRoles step) ar));
    [done|].
  destruct (hasActed step aid) eqn:A; [done|].
  pose proof (currentStep_lookup flow step C) as (n & Hn & Hstep).
  assert (Z.to_nat (ApprovalFlow.currentLevel flow - 1) = n) as En by lia.
  pose proof (lookup_lt_Some _ _ _ Hstep) as Hlt.
  pose proof (inv_total flow Hinv) as Htot.
  assert (Hpend : ApprovalStep.status step = StepStatus.PENDING).
  { pose proof (inv_current flow Hinv) as Hc. rewrite Hst in Hc. by apply Hc. }
  destruct (proj1 Ha n step Hstep) as [Hsa _].
  unfold stepAudit in Hsa. rewrite Hpend in Hsa.
  destruct Hsa as (Hall & Hcount & Hdone).
  set (a := StepApproval.mk aid an ar act (now 0%nat) cm).
  pose proof (approvedCount_pushed a step) as Hpc.
  assert (Hstore : forall f', flowAudit f' ->
                              serviceAudit (store svc fid f')).
  { intros f' Hf' x Hx. unfold store in Hx. simpl in Hx.
    apply values_set_In in Hx as [->|Hx]; [done|by apply Haud]. }
  destruct act.
  - assert (Hall' : Forall (fun a => StepApproval.action a = Action.APPROVED)
                      (ApprovalStep.approvals step ++ [a])).
    { apply Forall_app. split; [done|]. by repeat constructor. }
    change (isApproved a) with true in Hpc.
    fold a. fold (pushed a step).
    change (ApprovalStep.requiredApprovers (pushed a step))
      with (ApprovalStep.requiredApprovers step).
    destruct (ApprovalStep.requiredApprovers step <=? approvedCount (pushed a step))
      eqn:Enough.
    + apply Z.leb_le in Enough.
      assert (Hs2 : stepAudit
                (ApprovalStep.set_completedAt (Some (now 3%nat))
                   (ApprovalStep.set_status StepStatus.APPROVED
                      (pushed a step)))).
      { unfold stepAudit. simpl. split; [done|]. split; [|done].
        change (approvedCount _) with (approvedCount (pushed a step)).
        unfold quota in *. simpl. pose proof (approvedCount_nonneg step). lia. }
      unfold ApprovalFlow.set_stepAt. flow_fields. rewrite En.
      destruct (ApprovalFlow.currentLevel flow <? ApprovalFlow.totalLevels flow)
        eqn:L.
      * apply Z.ltb_lt in L.
        destruct (ApprovalFlow.steps flow !! S n) as [next|] eqn:Hnext;
          [|apply lookup_ge_None in Hnext; lia].
        unfold ApprovalFlow.stepAt. flow_fields.
        assert ((ApprovalFlow.currentLevel flow + 1 - 1 <? 0) = false) as ->
          by (apply Z.ltb_ge; lia).
        replace (Z.to_nat (ApprovalFlow.currentLevel flow + 1 - 1))
          with (S n) by lia.
        rewrite list_lookup_insert_ne by lia. rewrite Hnext.
        apply Hstore.
        apply (flowAudit_advance flow n step _ next); try done.
        -- exact (proj1 (proj1 Ha (S n) next Hnext)).
        -- exact (proj2 Ha).
      * apply Hstore. apply (flowAudit_update flow n step); try done.
    + apply Z.leb_gt in Enough.
      unfold ApprovalFlow.set_stepAt. flow_fields. rewrite En.
      apply Hstore. apply (flowAudit_update flow n step); try done.
      * unfold stepAudit.
        change (ApprovalStep.status (pushed a step))
          with (ApprovalStep.status step). rewrite Hpend.
        split; [done|]. split; [|done]. unfold quota. simpl. lia.
      * exact (proj2 Ha).
  - change (isApproved a) with false in Hpc.
    unfold ApprovalFlow.set_stepAt. flow_fields. rewrite En.
    apply Hstore. apply (flowAudit_update flow n step); try done.
    unfold stepAudit. simpl. split; [by exists (ApprovalStep.approvals step), a|].
    split; [|done].
    change (approvedCount _) with (approvedCount (pushed a step)).
    unfold quota in *. simpl. lia.
Qed.

Lemma reachable_audit svc : reachable svc -> serviceAudit svc.
Proof.
  intros (rules0 & cs & ->).
  assert (H : serviceInv (constructor (ApprovalRuleEngine.constructor rules0)) /\
              serviceAudit (constructor (ApprovalRuleEngine.constructor rules0))).
  { split; intros f []. }
  revert H. generalize (constructor (ApprovalRuleEngine.constructor rules0)).
  induction cs as [|c cs IH]; intros svc [H1 H2]; simpl; [done|].
  apply IH. split; [by apply call_inv|].
  destruct c as [r|rid u|rid|now e|now fid aid an ar act cm]; simpl;
    try done.
  - unfold createApprovalFlow.
    destruct (ApprovalRuleEngine.findMatchingRule _ e); [|done]. simpl.
    intros f Hf. apply values_set_In in Hf as [->|Hf]; [|by apply H2].
    apply flowAudit_new.
  - by apply processApproval_audit.
Qed.

(** The audit trail.  In every flow of a reachable service: a PENDING
    step holds approvals only, fewer than its quota (the required count,
    or one if that is below one), and has no completion date; an APPROVED
    step holds approvals only, exactly its quota, and has a completion
    date; a REJECTED step holds approvals followed by one rejection, its
    last action, fewer approvals than its quota, and a completion date; no
    step is SKIPPED; a step has a start date exactly when the flow has
    reached its level; and the flow has a completion date exactly when it
    is not PENDING. *)
Theorem audit_trail svc f :
  reachable svc ->
  In f (JsMap.values (flows svc)) ->
  flowAudit f.
Proof. intros Hr Hf. by apply (reachable_audit svc Hr). Qed.

(** The two-level flow after the manager's approval: its first step is
    APPROVED with exactly one approval. *)
Lemma audit_trail_witness :
  exists f s,
    reachable Scenario.advanced /\
    In f (JsMap.values (flows Scenario.advanced)) /\
    ApprovalFlow.steps f !! 0%nat = Some s /\
    ApprovalStep.status s = StepStatus.APPROVED /\
    stepAudit s /\
    approvedCount s = 1.
Proof.
  pose proof reachable_scenarios as (_ & Hr & _).
  eexists _, _. split; [exact Hr|]. split; [left; reflexivity|].
  split; [reflexivity|]. split; [reflexivity|].
  split; [|reflexivity].
  refine (proj1 (proj1 (audit_trail Scenario.advanced _ Hr _) 0%nat _ _)).
  - left; reflexivity.
  - reflexivity.
Defined.

(** What [getApprovalSummary] reports for a flow of a reachable service:
    a current level from 1 to the number of levels (1 for a flow without
    levels), one entry per level, and in each entry a count of approvals
    that is the quota of the step when the step is APPROVED and is from 0
    to below the quota when it is PENDING or REJECTED. *)
Theorem getApprovalSummary_counts svc fid sm :
  reachable svc ->
  getApprovalSummary svc fid = Some sm ->
  1 <= ApprovalSummary.currentLevel sm <=
    Z.max 1 (ApprovalSummary.totalLevels sm) /\
  Z.of_nat (length (ApprovalSummary.steps sm)) = ApprovalSummary.totalLevels sm /\
  forall (i : nat) t,
    ApprovalSummary.steps sm !! i = Some t ->
    match SummaryStep.status t with
    | StepStatus.APPROVED =>
        SummaryStep.approved t = Z.max 1 (SummaryStep.required t)
    | StepStatus.PENDING | StepStatus.REJECTED =>
        0 <= SummaryStep.approved t < Z.max 1 (SummaryStep.required t)
    | StepStatus.SKIPPED => False
    end.
Proof.
  intros Hr. unfold getApprovalSummary.
  destruct (JsMap.get (flows svc) fid) as [flow|] eqn:G; [|done].
  intros [= <-]. simpl.
  pose proof (reachable_inv svc Hr flow (get_In_values _ _ _ G)) as Hinv.
  pose proof (reachable_audit svc Hr flow (get_In_values _ _ _ G)) as Ha.
  split; [split; apply Hinv|]. split.
  - rewrite length_map. symmetry. apply Hinv.
  - intros i t Hi.
    assert (exists s, ApprovalFlow.steps flow !! i = Some s /\
                      t = SummaryStep.mk (ApprovalStep.level s)
                            (ApprovalStep.approverRoles s)
                            (ApprovalStep.requiredApprovers s)
                            (approvedCount s) (ApprovalStep.status s))
      as (s & Hs & ->).
    { clear -Hi. revert i Hi.
      induction (ApprovalFlow.steps flow) as [|x l IH]; intros [|i] Hi;
        simpl in *; try done.
      - injection Hi as <-. by exists x.
      - by apply IH. }
    simpl. destruct (proj1 Ha i s Hs) as [Hsa _]. unfold stepAudit in Hsa.
    pose proof (approvedCount_nonneg s).
    destruct (ApprovalStep.status s); unfold quota in Hsa; intuition lia.
Qed.

(** The summary of the two-level flow after the manager's approval. *)
Lemma getApprovalSummary_counts_witness :
  exists sm,
    reachable Scenario.advanced /\
    getApprovalSummary Scenario.advanced Scenario.monitorFlow = Some sm /\
    ApprovalSummary.currentLevel sm = 2 /\
    map SummaryStep.approved (ApprovalSummary.steps sm) = [1; 0] /\
    1 <= ApprovalSummary.currentLevel sm <=
      Z.max 1 (ApprovalSummary.totalLevels sm).
Proof.
  pose proof reachable_scenarios as (_ & Hr & _).
  eexists. split; [exact Hr|]. split; [reflexivity|].
  split; [reflexivity|]. split; [reflexivity|].
  exact (proj1 (getApprovalSummary_counts Scenario.advanced
                  Scenario.monitorFlow _ Hr eq_refl)).
Defined.

(** The errors of the guards of [processApproval], in their order. *)
Lemma processApproval_guards svc now fid aid an ar act cm :
  serviceInv svc ->
  match JsMap.get (flows svc) fid with
  | None =>
      processApproval svc now fid aid an ar act cm
      = (Throw (FlowNotFound fid), svc)
  | Some flow =>
      if negb (FlowStatus.eqb (ApprovalFlow.status flow) FlowStatus.PENDING)
      then processApproval svc now fid aid an ar act cm
           = (Throw (FlowAlreadyResolved fid (ApprovalFlow.status flow)), svc)
      else
        match currentStep flow with
        | None =>
            processApproval svc now fid aid an ar act cm
            = (Throw (InvalidLevel (ApprovalFlow.currentLevel flow)), svc)
        | Some step =>
            if negb (ApprovalRuleEngine.includes
                       (ApprovalStep.approverRoles step) ar)
            then processApproval svc now fid aid an ar act cm
                 = (Throw (UnauthorizedRole ar (ApprovalFlow.currentLevel flow)),
                    svc)
            else if hasActed step aid
            then processApproval svc now fid aid an ar act cm
                 = (Throw (DuplicateApproval aid), svc)
            else
              ApprovalStep.status step = StepStatus.PENDING /\
              exists flow',
                processApproval svc now fid aid an ar act cm
                = (Ok flow', store svc fid flow')
        end
  end.
Proof.
  intros Hsvc. unfold processApproval, currentStep.
  destruct (JsMap.get (flows svc) fid) as [flow|] eqn:G; [|done].
  assert (Hinv : flowInv flow) by (eapply Hsvc, get_In_values, G).
  destruct (negb (FlowStatus.eqb (ApprovalFlow.status flow) FlowStatus.PENDING))
    eqn:Hst; [done|].
  apply pending_check in Hst. cbv zeta.
  destruct (ApprovalFlow.stepAt flow (ApprovalFlow.currentLevel flow - 1))
    as [step|] eqn:C; [|done].
  destruct (negb _); [done|]. destruct (hasActed step aid); [done|].
  pose proof (currentStep_lookup flow step C) as (n & Hn & Hstep).
  pose proof (inv_total flow Hinv) as Htot.
  split.
  { pose proof (inv_current flow Hinv) as Hc. rewrite Hst in Hc. by apply Hc. }
  destruct act; [|by eexists].
  destruct (_ <=? _); [|by eexists].
  unfold ApprovalFlow.set_stepAt. flow_fields.
  destruct (ApprovalFlow.currentLevel flow <? ApprovalFlow.totalLevels flow)
    eqn:L; [|by eexists].
  apply Z.ltb_lt in L.
  destruct (ApprovalFlow.steps flow !! S n) as [next|] eqn:Hnext;
    [|apply lookup_ge_None in Hnext; lia].
  unfold ApprovalFlow.stepAt. flow_fields.
  assert ((ApprovalFlow.currentLevel flow + 1 - 1 <? 0) = false) as ->
    by (apply Z.ltb_ge; lia).
  replace (Z.to_nat (ApprovalFlow.currentLevel flow + 1 - 1)) with (S n) by lia.
  rewrite list_lookup_insert_ne by lia. rewrite Hnext. by eexists.
Qed.

(** In a reachable service, [canApprove] answers [true] exactly when the
    call of [processApproval] with the same flow id, role and approver id
    succeeds, whatever the action, the name, the comments and the clock
    reading. *)
Theorem canApprove_iff_accepted svc now fid aid an ar act cm :
  reachable svc ->
  canApprove svc fid ar aid
  = negb (isThrow (fst (processApproval svc now fid aid an ar act cm))).
Proof.
  intros Hr.
  pose proof (processApproval_guards svc now fid aid an ar act cm
                (reachable_inv svc Hr)) as H.
  unfold canApprove. unfold currentStep in H.
  destruct (JsMap.get (flows svc) fid) as [flow|]; [|by rewrite H].
  destruct (negb (FlowStatus.eqb _ _)); [by rewrite H|].
  destruct (ApprovalFlow.stepAt _ _) as [step|]; [|by rewrite H].
  destruct (negb (ApprovalRuleEngine.includes _ _)) eqn:I.
  - rewrite H. simpl. by destruct (negb (StepStatus.eqb _ _)).
  - destruct (hasActed step aid).
    + rewrite H. simpl. by destruct (negb (StepStatus.eqb _ _)).
    + destruct H as (-> & flow' & ->). done.
Qed.

(** The two-level flow just created: the manager can approve, the
    director cannot yet, and [processApproval] agrees. *)
Lemma canApprove_iff_accepted_witness :
  reachable Scenario.created /\
  canApprove Scenario.created Scenario.monitorFlow "MANAGER" "mgr-1" = true /\
  canApprove Scenario.created Scenario.monitorFlow "DIRECTOR" "dir-1" = false /\
  isThrow (fst (processApproval Scenario.created (Clock.ticking 1001) Scenario.monitorFlow
                  "dir-1" "Director One" "DIRECTOR" Action.APPROVED None))
  = true.
Proof.
  pose proof reachable_scenarios as (Hr & _). split; [exact Hr|].
  split; [reflexivity|]. split; [reflexivity|].
  pose proof (canApprove_iff_accepted Scenario.created (Clock.ticking 1001)
                Scenario.monitorFlow "dir-1" "Director One" "DIRECTOR"
                Action.APPROVED None Hr) as H.
  apply negb_false_iff. rewrite <- H. reflexivity.
Defined.

(** In a reachable service, a call of [processApproval] that throws leaves
    the service as it was, and the error is one of the five that the
    guards throw: the flow is not found, is resolved, has no step at its
    level, does not accept the role, or has an action of the approver. *)
Theorem processApproval_failure svc now fid aid an ar act cm e svc' :
  reachable svc ->
  processApproval svc now fid aid an ar act cm = (Throw e, svc') ->
  svc' = svc /\
  (getFlow svc fid = None /\ e = FlowNotFound fid \/
   exists flow,
     getFlow svc fid = Some flow /\
     (ApprovalFlow.status flow <> FlowStatus.PENDING /\
      e = FlowAlreadyResolved fid (ApprovalFlow.status flow) \/
      ApprovalFlow.status flow = FlowStatus.PENDING /\
      (currentStep flow = None /\
       e = InvalidLevel (ApprovalFlow.currentLevel flow) \/
       exists step,
         currentStep flow = Some step /\
         (ApprovalRuleEngine.includes (ApprovalStep.approverRoles step) ar
          = false /\
          e = UnauthorizedRole ar (ApprovalFlow.currentLevel flow) \/
          ApprovalRuleEngine.includes (ApprovalStep.approverRoles step) ar
          = true /\
          hasActed step aid = true /\ e = DuplicateApproval aid)))).
Proof.
  intros Hr Hp.
  pose proof (processApproval_guards svc now fid aid an ar act cm
                (reachable_inv svc Hr)) as H.
  unfold getFlow.
  destruct (JsMap.get (flows svc) fid) as [flow|].
  - destruct (negb (FlowStatus.eqb _ _)) eqn:Hst.
    + rewrite H in Hp. injection Hp as <- <-. split; [done|]. right.
      exists flow. split; [done|]. left. split; [|done].
      intros E. rewrite E in Hst. discriminate.
    + apply pending_check in Hst.
      destruct (currentStep flow) as [step|] eqn:C.
      * destruct (negb (ApprovalRuleEngine.includes _ _)) eqn:I.
        -- rewrite H in Hp. injection Hp as <- <-. split; [done|]. right.
           exists flow. split; [done|]. right. split; [done|]. right.
           exists step. split; [done|]. left. split; [|done].
           by apply negb_true_iff.
        -- apply negb_false_iff in I. destruct (hasActed step aid) eqn:A.
           ++ rewrite H in Hp. injection Hp as <- <-. split; [done|]. right.
              exists flow. split; [done|]. right. split; [done|]. right.
              exists step. split; [done|]. by right.
           ++ destruct H as (_ & flow' & H). rewrite H in Hp. discriminate.
      * rewrite H in Hp. injection Hp as <- <-. split; [done|]. right.
        exists flow. split; [done|]. right. split; [done|]. by left.
  - rewrite H in Hp. injection Hp as <- <-. split; [done|]. by left.
Qed.

(** The director's attempt on the two-level flow at its first level. *)
Lemma processApproval_failure_witness :
  reachable Scenario.created /\
  processApproval Scenario.created (Clock.ticking 1001) Scenario.monitorFlow
    "dir-1" "Director One" "DIRECTOR" Action.APPROVED None
  = (Throw (UnauthorizedRole "DIRECTOR" 1), Scenario.created) /\
  exists flow, getFlow Scenario.created Scenario.monitorFlow = Some flow.
Proof.
  pose proof reachable_scenarios as (Hr & _). split; [exact Hr|].
  split; [reflexivity|].
  destruct (processApproval_failure Scenario.created (Clock.ticking 1001)
              Scenario.monitorFlow "dir-1" "Director One" "DIRECTOR"
              Action.APPROVED None _ _ Hr eq_refl)
    as (_ & [[H _]|(flow & H & _)]); [discriminate H|].
  by exists flow.
Defined.

(** In a reachable service, the flows that [getPendingApprovalsForRole]
    lists for a role are those on which an approver of that role who has
    not acted on the current step can act: [canApprove] holds for each of
    them, and a flow for which [canApprove] holds is listed. *)
Theorem getPendingApprovalsForRole_canApprove svc role :
  reachable svc ->
  (forall f step aid,
     In f (getPendingApprovalsForRole svc role) ->
     currentStep f = Some step ->
     hasActed step aid = false ->
     canApprove svc (ApprovalFlow.id f) role aid = true) /\
  (forall fid aid,
     canApprove svc fid role aid = true ->
     exists f, getFlow svc fid = Some f /\
               In f (getPendingApprovalsForRole svc role)).
Proof.
  intros Hr. split.
  - intros f step aid Hf Hc Ha. unfold getPendingApprovalsForRole in Hf.
    apply List.filter_In in Hf as [Hin Hp].
    pose proof (flows_stored_under_id_aux svc Hr f Hin) as G.
    unfold canApprove. unfold getFlow in G. rewrite G.
    destruct (negb (FlowStatus.eqb _ _)); [done|].
    unfold currentStep in Hc. rewrite Hc in Hp |- *.
    apply andb_true_iff in Hp as [-> ->]. simpl. by rewrite Ha.
  - intros fid aid Hc. unfold canApprove in Hc. unfold getFlow.
    destruct (JsMap.get (flows svc) fid) as [f|] eqn:G; [|done].
    exists f. split; [done|]. unfold getPendingApprovalsForRole.
    apply List.filter_In. split; [by eapply get_In_values|].
    destruct (negb (FlowStatus.eqb _ _)); [done|].
    destruct (ApprovalFlow.stepAt _ _) as [step|]; [|done].
    destruct (StepStatus.eqb _ _); [|done]. simpl in *.
    by destruct (ApprovalRuleEngine.includes _ _).
Qed.

(** The two-level flow just created is listed for the managers, and a
    manager can approve it. *)
Lemma getPendingApprovalsForRole_canApprove_witness :
  exists f step,
    reachable Scenario.created /\
    In f (getPendingApprovalsForRole Scenario.created "MANAGER") /\
    currentStep f = Some step /\
    hasActed step "mgr-1" = false /\
    canApprove Scenario.created (ApprovalFlow.id f) "MANAGER" "mgr-1" = true.
Proof.
  pose proof reachable_scenarios as (Hr & _).
  eexists _, _. split; [exact Hr|]. split; [left; reflexivity|].
  split; [reflexivity|]. split; [reflexivity|].
  refine (proj1 (getPendingApprovalsForRole_canApprove Scenario.created
                   "MANAGER" Hr) _ _ "mgr-1" _ _ _).
  - left; reflexivity.
  - reflexivity.
  - reflexivity.
Defined.

Lemma createApprovalFlow_found_aux svc now e flow svc' :
  getFlowByExpenseId svc (Expense.id e) = None ->
  createApprovalFlow svc now e = (Ok flow, svc') ->
  getFlowByExpenseId svc' (Expense.id e) = Some flow.
Proof.
  intros Hnone. unfold createApprovalFlow.
  destruct (ApprovalRuleEngine.findMatchingRule (ruleEngine svc) e) as [rule|];
    [|done].
  intros [= <- <-]. unfold getFlowByExpenseId. simpl.
  apply (find_values_set _ _ _
           (fun flow => String.eqb (ApprovalFlow.expenseId flow) (Expense.id e))).
  - simpl. apply String.eqb_refl.
  - intros x Hx. unfold getFlowByExpenseId in Hnone.
    by apply (List.find_none _ _ Hnone).
Qed.

(** When no flow exists for an expense, the flow that [createApprovalFlow]
    returns for it is the one [getFlowByExpenseId] finds afterwards, and
    the one [getFlow] returns for its id. *)
Theorem createApprovalFlow_found svc now e flow svc' :
  getFlowByExpenseId svc (Expense.id e) = None ->
  createApprovalFlow svc now e = (Ok flow, svc') ->
  getFlowByExpenseId svc' (Expense.id e) = Some flow /\
  getFlow svc' (ApprovalFlow.id flow) = Some flow /\
  ApprovalFlow.id flow = flowId (Expense.id e) (now 0%nat).
Proof.
  intros Hnone. unfold createApprovalFlow.
  destruct (ApprovalRuleEngine.findMatchingRule (ruleEngine svc) e) as [rule|];
    [|done].
  intros [= <- <-]. unfold getFlowByExpenseId, getFlow. simpl.
  split; [|split; [apply get_set_eq|done]].
  apply (find_values_set _ _ _
           (fun flow => String.eqb (ApprovalFlow.expenseId flow) (Expense.id e))).
  - simpl. apply String.eqb_refl.
  - intros x Hx. unfold getFlowByExpenseId in Hnone.
    by apply (List.find_none _ _ Hnone).
Qed.

(** The monitor's flow, created in a service without flows. *)
Lemma createApprovalFlow_found_witness :
  exists flow svc',
    getFlowByExpenseId
      (Scenario.flowService [Scenario.singleLevel; Scenario.twoLevel])
      (Expense.id Scenario.monitor) = None /\
    createApprovalFlow
      (Scenario.flowService [Scenario.singleLevel; Scenario.twoLevel])
      (Clock.ticking 1000) Scenario.monitor = (Ok flow, svc') /\
    getFlowByExpenseId svc' (Expense.id Scenario.monitor) = Some flow /\
    ApprovalFlow.id flow = Scenario.monitorFlow.
Proof.
  eexists _, _. split; [reflexivity|]. split; [reflexivity|].
  split; [|reflexivity].
  exact (proj1 (createApprovalFlow_found
                  (Scenario.flowService [Scenario.singleLevel; Scenario.twoLevel])
                  (Clock.ticking 1000) Scenario.monitor _ _ eq_refl eq_refl)).
Defined.

End FlowFurther.

(* ===================================================================== *)
(** ** Further properties of the expense service                           *)
(* ===================================================================== *)

Section ExpensesFurther.

Import ExpenseService.

(** [createExpense] returns a DRAFT without history or submission date,
    whose attachments are the given ones or none; [getExpense] returns it
    for its id and [getAllExpenses] lists it; the expenses under other ids
    and the flow service are as before. *)
Theorem createExpense_stored svc now rnd employeeId employeeName amount
    currency category description date attachments :
  let e := fst (createExpense svc now rnd employeeId employeeName amount
                  currency category description date attachments) in
  let svc' := snd (createExpense svc now rnd employeeId employeeName amount
                     currency category description date attachments) in
  getExpense svc' (Expense.id e) = Some e /\
  In e (getAllExpenses svc') /\
  Expense.status e = ExpenseStatus.DRAFT /\
  Expense.approvalHistory e = [] /\
  Expense.submittedAt e = None /\
  Expense.attachments e = Some (default [] attachments) /\
  (forall k, k <> Expense.id e -> getExpense svc' k = getExpense svc k) /\
  approvalFlowService svc' = approvalFlowService svc.
Proof.
  intros e svc'. unfold getExpense, getAllExpenses. subst e svc'. simpl.
  split; [apply get_set_eq|].
  split; [eapply get_In_values, get_set_eq|].
  do 4 (split; [done|]). split; [|done].
  intros k Hk. apply get_set_ne. congruence.
Qed.

(** [submitExpense] on a DRAFT for which the engine has a rule: the call
    returns the expense and the id of a new flow.  The expense is PENDING,
    its submission date is the first reading of the clock, and its other
    fields are those of the draft.  The flow is in the flow service,
    PENDING at level 1, for the id and the rule of the expense, under the
    id made of the expense id and the second reading of the clock; the
    other expenses are as before; and when the expense had no flow,
    [getFlowByExpenseId] finds this one afterwards. *)
Theorem submitExpense_success svc now eid e rule :
  getExpense svc eid = Some e ->
  Expense.status e = ExpenseStatus.DRAFT ->
  ApprovalRuleEngine.findMatchingRule
    (ApprovalFlowService.ruleEngine (approvalFlowService svc)) e = Some rule ->
  exists e' flow svc',
    submitExpense svc now eid = (Ok (e', ApprovalFlow.id flow), svc') /\
    Expense.status e' = ExpenseStatus.PENDING /\
    Expense.submittedAt e' = Some (now 0%nat) /\
    e' = Expense.mk (Expense.id e) (Expense.employeeId e)
           (Expense.employeeName e) (Expense.amount e) (Expense.currency e)
           (Expense.category e) (Expense.description e) (Expense.date e)
           ExpenseStatus.PENDING (Some (now 0%nat))
           (Expense.approvalHistory e) (Expense.attachments e) /\
    getExpense svc' eid = Some e' /\
    (forall k, k <> eid -> getExpense svc' k = getExpense svc k) /\
    ApprovalFlowService.getFlow (approvalFlowService svc') (ApprovalFlow.id flow)
    = Some flow /\
    ApprovalFlow.id flow
    = ApprovalFlowService.flowId (Expense.id e) (now 1%nat) /\
    ApprovalFlow.expenseId flow = Expense.id e /\
    ApprovalFlow.ruleId flow = ApprovalRule.id rule /\
    ApprovalFlow.status flow = FlowStatus.PENDING /\
    ApprovalFlow.currentLevel flow = 1 /\
    ApprovalFlow.totalLevels flow
    = Z.of_nat (length (ApprovalRule.approvalLevels rule)) /\
    (ApprovalFlowService.getFlowByExpenseId (approvalFlowService svc)
       (Expense.id e) = None ->
     ApprovalFlowService.getFlowByExpenseId (approvalFlowService svc')
       (Expense.id e) = Some flow).
Proof.
  intros G Hst Hrule. unfold getExpense in G.
  set (e' := Expense.set_submittedAt (Some (now 0%nat))
               (Expense.set_status ExpenseStatus.PENDING e)).
  assert (Hrule' :
    ApprovalRuleEngine.findMatchingRule
      (ApprovalFlowService.ruleEngine (approvalFlowService svc)) e'
    = Some rule).
  { rewrite <- Hrule. by apply findMatchingRule_ext. }
  assert (Hc : exists flow fs,
             ApprovalFlowService.createApprovalFlow
               (approvalFlowService svc) (Clock.after 1 now) e'
             = (Ok flow, fs) /\
             ApprovalFlowService.getFlow fs (ApprovalFlow.id flow) = Some flow /\
             ApprovalFlow.id flow
             = ApprovalFlowService.flowId (Expense.id e) (now 1%nat) /\
             ApprovalFlow.expenseId flow = Expense.id e /\
             ApprovalFlow.ruleId flow = ApprovalRule.id rule /\
             ApprovalFlow.status flow = FlowStatus.PENDING /\
             ApprovalFlow.currentLevel flow = 1 /\
             ApprovalFlow.totalLevels flow
             = Z.of_nat (length (ApprovalRule.approvalLevels rule))).
  { unfold ApprovalFlowService.createApprovalFlow. rewrite Hrule'.
    eexists _, _. split; [reflexivity|]. split; [apply get_set_eq|done]. }
  destruct Hc as (flow & fs & Hc & Hget & H0 & H1 & H2 & H3 & H4 & H5).
  unfold submitExpense. rewrite G, Hst.
  cbn [negb ExpenseStatus.eqb store set_expenses approvalFlowService].
  fold e'. rewrite Hc.
  exists e', flow. eexists. split; [reflexivity|].
  do 3 (split; [reflexivity|]). unfold getExpense.
  cbn [set_approvalFlowService expenses approvalFlowService].
  split; [apply get_set_eq|].
  split; [intros k Hk; apply get_set_ne; congruence|].
  split; [exact Hget|]. do 6 (split; [done|]).
  intros Hnone.
  by apply (createApprovalFlow_found_aux (approvalFlowService svc)
              (Clock.after 1 now) e').
Qed.

(** The lunch of 50 is a DRAFT with a rule: its submission succeeds. *)
Lemma submitExpense_success_witness :
  getExpense (Scenario.expenseService [Scenario.singleLevel] Scenario.lunch)
             "exp-1" = Some Scenario.lunch /\
  Expense.status Scenario.lunch = ExpenseStatus.DRAFT /\
  ApprovalRuleEngine.findMatchingRule
    (ApprovalFlowService.ruleEngine
       (approvalFlowService
          (Scenario.expenseService [Scenario.singleLevel] Scenario.lunch)))
    Scenario.lunch = Some Scenario.singleLevel /\
  exists e' flow,
    fst (submitExpense
           (Scenario.expenseService [Scenario.singleLevel] Scenario.lunch)
           (Clock.ticking 1000) "exp-1")
    = Ok (e', ApprovalFlow.id flow) /\
    Expense.status e' = ExpenseStatus.PENDING /\
    Expense.submittedAt e' = Some 1000 /\
    ApprovalFlow.id flow = "flow-exp-1-1001" /\
    ApprovalFlow.status flow = FlowStatus.PENDING.
Proof.
  split; [reflexivity|]. split; [reflexivity|]. split; [reflexivity|].
  destruct (submitExpense_success
              (Scenario.expenseService [Scenario.singleLevel] Scenario.lunch)
              (Clock.ticking 1000) "exp-1" Scenario.lunch Scenario.singleLevel
              eq_refl eq_refl eq_refl)
    as (e' & flow & svc' & H1 & H2 & H3 & _ & _ & _ & _ & H8 & _ & _ & H11 & _).
  exists e', flow. split; [by rewrite H1|].
  split; [exact H2|]. split; [exact H3|]. split; [exact H8|exact H11].
Defined.

(** An expense that is APPROVED, REJECTED or CANCELLED refuses a
    submission and an approval or rejection, and one that is APPROVED or
    REJECTED refuses a cancellation even by its owner; each refusal leaves
    the service as it was. *)
Theorem closed_expense_refuses svc eid e :
  getExpense svc eid = Some e ->
  closed (Expense.status e) = true ->
  (forall now,
     submitExpense svc now eid = (Throw (AlreadySubmitted eid), svc)) /\
  (forall now aid an ar act cm,
     processExpenseApproval svc now eid aid an ar act cm
     = (Throw (NotPending eid), svc)) /\
  (Expense.status e <> ExpenseStatus.CANCELLED ->
   forall employee,
     cancelExpense svc eid employee
     = (Throw (if String.eqb (Expense.employeeId e) employee
               then AlreadyFinal eid (Expense.status e) else NotOwner), svc)).
Proof.
  intros G Hc. unfold getExpense in G.
  split; [|split].
  - intros now. unfold submitExpense. rewrite G.
    by destruct (Expense.status e).
  - intros now aid an ar act cm. unfold processExpenseApproval. rewrite G.
    by destruct (Expense.status e).
  - intros Hn employee. unfold cancelExpense. rewrite G.
    destruct (String.eqb _ _); [|done]. simpl.
    by destruct (Expense.status e).
Qed.

(** The lunch expense after its rejection by the manager. *)
Lemma closed_expense_refuses_witness :
  exists e,
    getExpense
      (snd (processExpenseApproval Scenario.submitted (Clock.ticking 1001) "exp-1"
              "mgr-1" "Manager One" "MANAGER" Action.REJECTED None))
      "exp-1" = Some e /\
    closed (Expense.status e) = true /\
    fst (cancelExpense
           (snd (processExpenseApproval Scenario.submitted (Clock.ticking 1001) "exp-1"
                   "mgr-1" "Manager One" "MANAGER" Action.REJECTED None))
           "exp-1" "emp-1")
    = Throw (AlreadyFinal "exp-1" ExpenseStatus.REJECTED).
Proof.
  eexists. split; [reflexivity|]. split; [reflexivity|].
  destruct (closed_expense_refuses
              (snd (processExpenseApproval Scenario.submitted (Clock.ticking 1001) "exp-1"
                      "mgr-1" "Manager One" "MANAGER" Action.REJECTED None))
              "exp-1" _ eq_refl eq_refl) as (_ & _ & H).
  rewrite (H ltac:(discriminate) "emp-1"). reflexivity.
Defined.

(** From submission to approval.  A DRAFT stored under its id, without a
    flow so far, whose rule has a single level that needs at most one
    approver: after [submitExpense], one [processExpenseApproval] with the
    action APPROVED by an approver whose role the level accepts succeeds;
    the expense is APPROVED, its history has gained one record, of level
    1, and the flow of the submission is APPROVED. *)
Theorem single_level_approval svc now now' eid e rule level aid an role cm :
  getExpense svc eid = Some e ->
  Expense.id e = eid ->
  Expense.status e = ExpenseStatus.DRAFT ->
  ApprovalFlowService.getFlowByExpenseId (approvalFlowService svc) eid = None ->
  ApprovalRuleEngine.findMatchingRule
    (ApprovalFlowService.ruleEngine (approvalFlowService svc)) e = Some rule ->
  ApprovalRule.approvalLevels rule = [level] ->
  ApprovalLevel.requiredApprovers level <= 1 ->
  ApprovalRuleEngine.includes (ApprovalLevel.approverRoles level) role = true ->
  exists e1 fid svc1 e2 svc2,
    submitExpense svc now eid = (Ok (e1, fid), svc1) /\
    processExpenseApproval svc1 now' eid aid an role Action.APPROVED cm
    = (Ok e2, svc2) /\
    getExpense svc2 eid = Some e2 /\
    Expense.status e2 = ExpenseStatus.APPROVED /\
    Expense.approvalHistory e2
    = Expense.approvalHistory e
      ++ [ApprovalRecord.mk aid an 1 Action.APPROVED (now' 6%nat) cm] /\
    option_map ApprovalFlow.status
      (ApprovalFlowService.getFlow (approvalFlowService svc2) fid)
    = Some FlowStatus.APPROVED.
Proof.
  intros G Hid Hst Hnone Hrule Hlevels Hreq Hinc. unfold getExpense in G.
  set (e' := Expense.set_submittedAt (Some (now 0%nat))
               (Expense.set_status ExpenseStatus.PENDING e)).
  assert (Hrule' :
    ApprovalRuleEngine.findMatchingRule
      (ApprovalFlowService.ruleEngine (approvalFlowService svc)) e'
    = Some rule).
  { rewrite <- Hrule. by apply findMatchingRule_ext. }
  set (step0 := ApprovalFlowService.newStep (now 2%nat) 0 level).
  set (flow0 :=
    ApprovalFlow.mk (ApprovalFlowService.flowId (Expense.id e) (now 1%nat))
      (Expense.id e) (ApprovalRule.id rule) 1 1 FlowStatus.PENDING
      [step0] (now 3%nat) None).
  set (fs1 := ApprovalFlowService.store (approvalFlowService svc)
                (ApprovalFlow.id flow0) flow0).
  assert (Hc : ApprovalFlowService.createApprovalFlow
                 (approvalFlowService svc) (Clock.after 1 now) e'
               = (Ok flow0, fs1)).
  { unfold ApprovalFlowService.createApprovalFlow.
    by rewrite Hrule', Hlevels. }
  assert (Hfound : ApprovalFlowService.getFlowByExpenseId fs1 eid = Some flow0).
  { rewrite <- Hid in Hnone |- *.
    exact (createApprovalFlow_found_aux (approvalFlowService svc)
             (Clock.after 1 now) e' flow0 fs1 Hnone Hc). }
  set (a := StepApproval.mk aid an role Action.APPROVED (now' 0%nat) cm).
  set (flowA :=
    ApprovalFlow.set_completedAt (Some (now' 5%nat))
      (ApprovalFlow.set_status FlowStatus.APPROVED
         (ApprovalFlow.set_stepAt 0
            (ApprovalStep.set_completedAt (Some (now' 3%nat))
               (ApprovalStep.set_status StepStatus.APPROVED
                  (pushed a step0)))
            flow0))).
  assert (Hp : ApprovalFlowService.processApproval fs1 now'
                 (ApprovalFlow.id flow0) aid an role Action.APPROVED cm
               = (Ok flowA,
                  ApprovalFlowService.store fs1 (ApprovalFlow.id flow0) flowA)).
  { unfold ApprovalFlowService.processApproval.
    assert (JsMap.get (ApprovalFlowService.flows fs1) (ApprovalFlow.id flow0)
            = Some flow0) as -> by apply get_set_eq.
    cbv zeta.
    change (ApprovalFlow.status flow0) with FlowStatus.PENDING.
    change (ApprovalFlow.stepAt flow0 (ApprovalFlow.currentLevel flow0 - 1))
      with (Some step0).
    cbn [negb FlowStatus.eqb]. cbv beta iota.
    change (ApprovalStep.approverRoles step0)
      with (ApprovalLevel.approverRoles level).
    rewrite Hinc.
    change (ApprovalFlowService.hasActed step0 aid) with false.
    cbn [negb]. cbv beta iota.
    fold a. fold (pushed a step0).
    change (ApprovalStep.requiredApprovers (pushed a step0))
      with (ApprovalLevel.requiredApprovers level).
    change (ApprovalFlowService.approvedCount (pushed a step0)) with 1.
    assert ((ApprovalLevel.requiredApprovers level <=? 1) = true) as ->
      by (by apply Z.leb_le).
    reflexivity. }
  exists e', (ApprovalFlow.id flow0).
  eexists. eexists. eexists. split.
  { unfold submitExpense. rewrite G, Hst.
    cbn [negb ExpenseStatus.eqb store set_expenses approvalFlowService].
    fold e'. rewrite Hc. reflexivity. }
  unfold processExpenseApproval, getExpense.
  cbn [set_approvalFlowService expenses approvalFlowService store set_expenses].
  rewrite get_set_eq.
  cbn [negb ExpenseStatus.eqb Expense.status e' Expense.set_submittedAt
       Expense.set_status].
  rewrite Hfound, Hp.
  cbn [set_approvalFlowService expenses approvalFlowService store set_expenses].
  split; [reflexivity|]. split; [apply get_set_eq|].
  split; [reflexivity|]. split; [reflexivity|].
  exact (f_equal (option_map ApprovalFlow.status)
           (get_set_eq (ApprovalFlowService.flows fs1) (ApprovalFlow.id flow0)
              flowA)).
Qed.

(** The first example of the repository's tour: a lunch under the
    single-level rule, approved by a manager. *)
Lemma single_level_approval_witness :
  getExpense (Scenario.expenseService [Scenario.singleLevel] Scenario.lunch)
             "exp-1" = Some Scenario.lunch /\
  Expense.status Scenario.lunch = ExpenseStatus.DRAFT /\
  ApprovalRule.approvalLevels Scenario.singleLevel = [Scenario.managerLevel] /\
  ApprovalLevel.requiredApprovers Scenario.managerLevel <= 1 /\
  exists e2,
    fst (processExpenseApproval Scenario.submitted (Clock.ticking 1001) "exp-1"
           "mgr-1" "Manager One" "MANAGER" Action.APPROVED None) = Ok e2 /\
    Expense.status e2 = ExpenseStatus.APPROVED.
Proof.
  split; [reflexivity|]. split; [reflexivity|]. split; [reflexivity|].
  split; [by vm_compute|].
  destruct (single_level_approval
              (Scenario.expenseService [Scenario.singleLevel] Scenario.lunch)
              (Clock.ticking 1000) (Clock.ticking 1001) "exp-1" Scenario.lunch Scenario.singleLevel
              Scenario.managerLevel "mgr-1" "Manager One" "MANAGER" None
              eq_refl eq_refl eq_refl eq_refl eq_refl eq_refl
              ltac:(by vm_compute) eq_refl)
    as (e1 & fid & svc1 & e2 & svc2 & H1 & H2 & _ & H4 & _).
  exists e2. split; [|exact H4].
  assert (svc1 = Scenario.submitted) as <-.
  { unfold Scenario.submitted. by rewrite H1. }
  by rewrite H2.
Defined.




End ExpensesFurther.
